(** * claude-code-proxy: the protocol bridge of [dist/claude-code-proxy.js]

    A shallow embedding of the message translator, the stream decoder, the
    process session, the response builders and the route handlers of the
    proxy, with the properties its specification states about them and
    further properties of the code.

    JavaScript strings are sequences of UTF-16 code units, [Buffer]s are
    sequences of bytes, values read from JSON are a tree type, exceptions are
    an explicit completion type, the callbacks registered on the child
    process and on the request are functions on an explicit state, and the
    calls made on the response are a list. *)

From Stdlib Require Import List NArith ZArith Bool Ascii String Lia Zify.
From Stdlib Require DecimalFacts DecimalPos.
Import ListNotations.

Open Scope string_scope.
Open Scope N_scope.
Open Scope list_scope.

Abbreviation length := List.length.
Abbreviation concat := List.concat.

(* ====================================================================== *)
(** * The JavaScript runtime the program relies on *)
(* ====================================================================== *)

Module JS.

(** ** Strings *)

(** A string is its sequence of UTF-16 code units; [length] is [.length]. *)
Definition CodeUnit := N.
Definition jsstring := list CodeUnit.

(** A literal of the source text (ASCII only). *)
Definition js (s : string) : jsstring :=
  map N_of_ascii (list_ascii_of_string s).

Definition LF : CodeUnit := 10.

(** [a === b] on two strings. *)
Fixpoint streq (a b : jsstring) : bool :=
  match a, b with
  | [], [] => true
  | x :: a', y :: b' => (x =? y) && streq a' b'
  | _, _ => false
  end.

(** [s.slice(n)] for [0 <= n]. *)
Definition slice (s : jsstring) (n : nat) : jsstring := skipn n s.

(** WhiteSpace and LineTerminator code points, the ones [trim] strips. *)
Definition isWhiteSpace (c : CodeUnit) : bool :=
  (c =? 9) || (c =? 10) || (c =? 11) || (c =? 12) || (c =? 13) || (c =? 32)
  || (c =? 160) || (c =? 5760) || ((8192 <=? c) && (c <=? 8202))
  || (c =? 8232) || (c =? 8233) || (c =? 8239) || (c =? 8287)
  || (c =? 12288) || (c =? 65279).

Fixpoint trimStart (s : jsstring) : jsstring :=
  match s with
  | c :: s' => if isWhiteSpace c then trimStart s' else s
  | [] => []
  end.

Definition trimEnd (s : jsstring) : jsstring := rev (trimStart (rev s)).

(** [s.trim()] *)
Definition trim (s : jsstring) : jsstring := trimEnd (trimStart s).

(** [s.split(sep)] for a separator of one code unit: [cur] is the piece
    being read. The result is never empty. *)
Fixpoint split_from (sep : CodeUnit) (cur s : jsstring) : list jsstring :=
  match s with
  | [] => [cur]
  | c :: s' =>
      if c =? sep then cur :: split_from sep [] s'
      else split_from sep (cur ++ [c]) s'
  end.

Definition split (sep : CodeUnit) (s : jsstring) : list jsstring :=
  split_from sep [] s.

(** [pieces.join(sep)] on an array of strings. *)
Fixpoint join (sep : jsstring) (pieces : list jsstring) : jsstring :=
  match pieces with
  | [] => []
  | [p] => p
  | p :: rest => p ++ sep ++ join sep rest
  end.

(** [a.pop()]: the array without its last element, and that element
    ([None] is [undefined], for the empty array). *)
Definition pop {A} (a : list A) : list A * option A :=
  (removelast a, last (map Some a) None).

(** [x ?? d] *)
Definition nullish_or {A} (x : option A) (d : A) : A :=
  match x with Some v => v | None => d end.

(** ** Numbers

    A number is kept as what [Number::toString] reads off it: its sign and,
    for a finite non-zero value, the integers [s] and [n] of the shortest
    decimal form [s * 10^(n-k)] ([k] digits in [s], no trailing zero). *)
Inductive Number :=
| Zero
| Finite (negative : bool) (s : positive) (n : Z)
| Infinite (negative : bool).

Fixpoint uint_digits (u : Decimal.uint) : jsstring :=
  match u with
  | Decimal.Nil => []
  | Decimal.D0 u' => 48 :: uint_digits u'
  | Decimal.D1 u' => 49 :: uint_digits u'
  | Decimal.D2 u' => 50 :: uint_digits u'
  | Decimal.D3 u' => 51 :: uint_digits u'
  | Decimal.D4 u' => 52 :: uint_digits u'
  | Decimal.D5 u' => 53 :: uint_digits u'
  | Decimal.D6 u' => 54 :: uint_digits u'
  | Decimal.D7 u' => 55 :: uint_digits u'
  | Decimal.D8 u' => 56 :: uint_digits u'
  | Decimal.D9 u' => 57 :: uint_digits u'
  end.

Definition digitsOf (p : positive) : jsstring := uint_digits (Pos.to_uint p).

Definition zeros (n : Z) : jsstring := repeat 48 (Z.to_nat n).

(** [Number::toString(x)] in radix 10. *)
Definition NumberToString (x : Number) : jsstring :=
  match x with
  | Zero => js "0"
  | Infinite negative =>
      (if negative then js "-" else []) ++ js "Infinity"
  | Finite negative s n =>
      let d := digitsOf s in
      let k := Z.of_nat (length d) in
      (if negative then js "-" else []) ++
      if ((k <=? n) && (n <=? 21))%Z then d ++ zeros (n - k)
      else if ((0 <? n) && (n <=? 21))%Z then
        firstn (Z.to_nat n) d ++ js "." ++ skipn (Z.to_nat n) d
      else if ((-6 <? n) && (n <=? 0))%Z then js "0." ++ zeros (- n) ++ d
      else
        let e := (n - 1)%Z in
        let exponent :=
          js "e" ++ (if (e <? 0)%Z then js "-" else js "+")
                 ++ digitsOf (Z.to_pos (Z.abs e)) in
        match d with
        | [] => []
        | [c] => c :: exponent
        | c :: more => c :: js "." ++ more ++ exponent
        end
  end.

(** An integer printed by a template literal, as in [`${Code}`]. *)
Definition IntegerToString (z : Z) : jsstring :=
  match z with
  | Z0 => js "0"
  | Zpos p => digitsOf p
  | Zneg p => js "-" ++ digitsOf p
  end.

(** ** Values and exceptions *)

(** What [JSON.parse] can return, and what the request body holds. An
    object is the list of its own properties in enumeration order. *)
#[warnings="-register-all"]
Inductive JSON :=
| JNull
| JBool (b : bool)
| JNum (x : Number)
| JStr (s : jsstring)
| JArr (elements : list JSON)
| JObj (properties : list (jsstring * JSON)).

(** A value read from a property: [None] is [undefined]. *)
Definition Value := option JSON.
Definition undefined : Value := None.

Inductive Exception := TypeError | SyntaxError.

(** The outcome of evaluating an expression that may throw. *)
Inductive Completion (A : Type) :=
| Normal (a : A)
| Throw (e : Exception).
Arguments Normal {A} a.
Arguments Throw {A} e.

Definition bind {A B} (c : Completion A) (k : A -> Completion B)
  : Completion B :=
  match c with
  | Normal a => k a
  | Throw e => Throw e
  end.

Notation "x <- c ;; k" := (bind c (fun x => k))
  (at level 61, c at next level, right associativity).

Fixpoint lookup (k : jsstring) (properties : list (jsstring * JSON)) : Value :=
  match properties with
  | [] => undefined
  | (k', v) :: rest => if streq k k' then Some v else lookup k rest
  end.

(** [v.k] for the property names this program reads ([type], [message],
    [content], [text], and of a request body [role], [messages], [model],
    [session_id], [stream], [prompt]): none of them is defined on the
    prototypes of strings, numbers, booleans, arrays or plain objects, so
    only an own property of an object answers; reading from [null] or
    [undefined] throws. *)
Definition Get (v : Value) (k : jsstring) : Completion Value :=
  match v with
  | None => Throw TypeError
  | Some JNull => Throw TypeError
  | Some (JObj properties) => Normal (lookup k properties)
  | Some _ => Normal undefined
  end.

(** [v == null] *)
Definition isNullish (v : Value) : bool :=
  match v with
  | None | Some JNull => true
  | Some _ => false
  end.

(** [v?.k] *)
Definition GetOptional (v : Value) (k : jsstring) : Completion Value :=
  if isNullish v then Normal undefined else Get v k.

(** [v === "literal"] *)
Definition isString (v : Value) (literal : jsstring) : bool :=
  match v with
  | Some (JStr s) => streq s literal
  | _ => false
  end.

(** [ToString(v)] as [Array.prototype.join] applies it to an element:
    [undefined] and [null] give the empty string; an array is joined with
    commas in the same way; a plain object prints as [[object Object]]
    unless an own [toString] property (never callable here) hides the
    inherited method, in which case the conversion throws. *)
Fixpoint elementToString (v : JSON) : Completion jsstring :=
  match v with
  | JNull => Normal []
  | JBool b => Normal (if b then js "true" else js "false")
  | JNum x => Normal (NumberToString x)
  | JStr s => Normal s
  | JArr elements =>
      pieces <- (fix each (l : list JSON) : Completion (list jsstring) :=
                   match l with
                   | [] => Normal []
                   | e :: l' =>
                       p <- elementToString e ;;
                       ps <- each l' ;;
                       Normal (p :: ps)
                   end) elements ;;
      Normal (join (js ",") pieces)
  | JObj properties =>
      match lookup (js "toString") properties with
      | Some _ => Throw TypeError
      | None => Normal (js "[object Object]")
      end
  end.

Definition valueToString (v : Value) : Completion jsstring :=
  match v with
  | None => Normal []
  | Some j => elementToString j
  end.

(** [a.map(f)] and [a.filter(f)] with a callback that may throw. *)
Fixpoint mapM {A B} (f : A -> Completion B) (a : list A)
  : Completion (list B) :=
  match a with
  | [] => Normal []
  | x :: a' => y <- f x ;; ys <- mapM f a' ;; Normal (y :: ys)
  end.

Fixpoint filterM {A} (f : A -> Completion bool) (a : list A)
  : Completion (list A) :=
  match a with
  | [] => Normal []
  | x :: a' =>
      keep <- f x ;;
      rest <- filterM f a' ;;
      Normal (if keep then x :: rest else rest)
  end.

(** [values.join(sep)] on an array of values. *)
Definition Array_join (sep : jsstring) (values : list Value)
  : Completion jsstring :=
  pieces <- mapM valueToString values ;;
  Normal (join sep pieces).

End JS.

(* ====================================================================== *)
(** * [JSON.stringify] and [JSON.parse] *)
(* ====================================================================== *)

Module JSONText.
Import JS.

(** A literal of the source text in which the apostrophe stands for the
    double quote. *)
Definition jsq (s : string) : jsstring :=
  map (fun c => if c =? 39 then 34 else c) (js s).

Definition isLeadSurrogate (c : CodeUnit) : bool :=
  (55296 <=? c) && (c <=? 56319).
Definition isTrailSurrogate (c : CodeUnit) : bool :=
  (56320 <=? c) && (c <=? 57343).

Definition hexDigit (n : N) : CodeUnit :=
  if n <? 10 then 48 + n else 87 + n.

(** [\uXXXX], lower-case digits. *)
Definition UnicodeEscape (c : CodeUnit) : jsstring :=
  [92; 117; hexDigit ((c / 4096) mod 16); hexDigit ((c / 256) mod 16);
   hexDigit ((c / 16) mod 16); hexDigit (c mod 16)].

Definition QuoteCodeUnit (c : CodeUnit) : jsstring :=
  if c =? 8 then [92; 98]
  else if c =? 9 then [92; 116]
  else if c =? 10 then [92; 110]
  else if c =? 12 then [92; 102]
  else if c =? 13 then [92; 114]
  else if c =? 34 then [92; 34]
  else if c =? 92 then [92; 92]
  else if c <? 32 then UnicodeEscape c
  else [c].

(** The characters of [QuoteJSONString]: a surrogate pair is kept, a lone
    surrogate is escaped. *)
Fixpoint QuoteBody (s : jsstring) : jsstring :=
  match s with
  | [] => []
  | c :: s' =>
      if isLeadSurrogate c then
        match s' with
        | d :: s'' =>
            if isTrailSurrogate d then c :: d :: QuoteBody s''
            else UnicodeEscape c ++ QuoteBody s'
        | [] => UnicodeEscape c
        end
      else if isTrailSurrogate c then UnicodeEscape c ++ QuoteBody s'
      else QuoteCodeUnit c ++ QuoteBody s'
  end.

Definition QuoteJSONString (s : jsstring) : jsstring :=
  34 :: QuoteBody s ++ [34].

(** [JSON.stringify(v)] without indentation. *)
Fixpoint JSON_stringify (v : JSON) : jsstring :=
  match v with
  | JNull => js "null"
  | JBool b => if b then js "true" else js "false"
  | JNum x =>
      match x with
      | Infinite _ => js "null"
      | _ => NumberToString x
      end
  | JStr s => QuoteJSONString s
  | JArr elements =>
      js "[" ++ join (js ",") (map JSON_stringify elements) ++ js "]"
  | JObj properties =>
      js "{" ++
      join (js ",")
        (map (fun kv : jsstring * JSON =>
                let (k, x) := kv in
                QuoteJSONString k ++ js ":" ++ JSON_stringify x)
             properties)
      ++ js "}"
  end.

(** ** Reading JSON text *)

Definition isJSONSpace (c : CodeUnit) : bool :=
  (c =? 9) || (c =? 10) || (c =? 13) || (c =? 32).

Fixpoint skipSpace (s : jsstring) : jsstring :=
  match s with
  | c :: s' => if isJSONSpace c then skipSpace s' else s
  | [] => []
  end.

Definition isDigit (c : CodeUnit) : bool := (48 <=? c) && (c <=? 57).

Definition hexValue (c : CodeUnit) : option N :=
  if isDigit c then Some (c - 48)
  else if (97 <=? c) && (c <=? 102) then Some (c - 87)
  else if (65 <=? c) && (c <=? 70) then Some (c - 55)
  else None.

Definition escaped (c : CodeUnit) : option CodeUnit :=
  if c =? 34 then Some 34
  else if c =? 92 then Some 92
  else if c =? 47 then Some 47
  else if c =? 98 then Some 8
  else if c =? 102 then Some 12
  else if c =? 110 then Some 10
  else if c =? 114 then Some 13
  else if c =? 116 then Some 9
  else None.

(** The characters of a string literal after its opening quote. *)
Fixpoint readChars (s acc : jsstring) : option (jsstring * jsstring) :=
  match s with
  | [] => None
  | c :: s' =>
      if c =? 34 then Some (acc, s')
      else if c =? 92 then
        match s' with
        | [] => None
        | e :: s'' =>
            if e =? 117 then
              match s'' with
              | h1 :: h2 :: h3 :: h4 :: s''' =>
                  match hexValue h1, hexValue h2, hexValue h3, hexValue h4 with
                  | Some a, Some b, Some c', Some d =>
                      readChars s''' (acc ++ [4096 * a + 256 * b + 16 * c' + d])
                  | _, _, _, _ => None
                  end
              | _ => None
              end
            else
              match escaped e with
              | Some x => readChars s'' (acc ++ [x])
              | None => None
              end
        end
      else if c <? 32 then None
      else readChars s' (acc ++ [c])
  end.

Fixpoint readDigits (s acc : jsstring) : jsstring * jsstring :=
  match s with
  | c :: s' => if isDigit c then readDigits s' (acc ++ [c]) else (acc, s)
  | [] => (acc, [])
  end.

Definition digitsValue (d : jsstring) : N :=
  fold_left (fun v c => 10 * v + (c - 48)) d 0.

(** The largest power of ten dividing [m], up to [fuel] of them. *)
Fixpoint stripZeros (fuel : nat) (m : N) (t : Z) : N * Z :=
  match fuel with
  | O => (m, t)
  | S fuel' =>
      if (m mod 10 =? 0) && negb (m =? 0)
      then stripZeros fuel' (m / 10) (t + 1)%Z
      else (m, t)
  end.

(** The number a literal denotes: sign, integer and fraction digits,
    exponent. The rounding to binary64 is not modelled: the digits are kept
    as written, a decimal exponent above 308 gives infinity and one below
    -324 gives zero. This is the value the runtime computes for a literal
    of at most 15 significant digits between 1e-307 and 1e308; no property
    below depends on the value of a number. *)
Definition NumberOfLiteral (negative : bool) (int frac : jsstring) (exp : Z)
  : Number :=
  let m := digitsValue (int ++ frac) in
  match m with
  | N0 => Zero
  | Npos _ =>
      let '(s, t) := stripZeros (length (int ++ frac)) m 0%Z in
      let k := Z.of_nat (length (digitsOf (N.succ_pos (N.pred s)))) in
      let n := (k + t + exp - Z.of_nat (length frac))%Z in
      if (309 <? n)%Z then Infinite negative
      else if (n <? -323)%Z then Zero
      else Finite negative (N.succ_pos (N.pred s)) n
  end.

(** A number literal: an optional minus, an integer part without leading
    zero, an optional fraction, an optional exponent. *)
Definition readNumber (s : jsstring) : option (Number * jsstring) :=
  let '(negative, s1) :=
    match s with
    | c :: r => if c =? 45 then (true, r) else (false, s)
    | [] => (false, s)
    end in
  let '(int, s2) := readDigits s1 [] in
  match int with
  | [] => None
  | d :: more =>
      if (d =? 48) && negb (length more =? 0)%nat then None
      else
        let fraction :=
          match s2 with
          | c :: r =>
              if c =? 46 then
                let '(frac, s3) := readDigits r [] in
                match frac with [] => None | _ => Some (frac, s3) end
              else Some ([], s2)
          | [] => Some ([], s2)
          end in
        match fraction with
        | None => None
        | Some (frac, s3) =>
            match s3 with
            | c :: r =>
                if (c =? 101) || (c =? 69) then
                  let '(minus, r') :=
                    match r with
                    | g :: r'' =>
                        if g =? 45 then (true, r'')
                        else if g =? 43 then (false, r'')
                        else (false, r)
                    | [] => (false, r)
                    end in
                  let '(e, s4) := readDigits r' [] in
                  match e with
                  | [] => None
                  | _ =>
                      let ev := Z.of_N (digitsValue e) in
                      Some (NumberOfLiteral negative int frac
                              (if minus then - ev else ev)%Z, s4)
                  end
                else Some (NumberOfLiteral negative int frac 0%Z, s3)
            | [] => Some (NumberOfLiteral negative int frac 0%Z, s3)
            end
        end
  end.

Fixpoint startsWith (prefix s : jsstring) : option jsstring :=
  match prefix, s with
  | [], _ => Some s
  | p :: prefix', c :: s' => if p =? c then startsWith prefix' s' else None
  | _ :: _, [] => None
  end.

(** [CreateDataProperty]: a repeated name replaces the earlier value. *)
Fixpoint setProperty (k : jsstring) (v : JSON)
  (properties : list (jsstring * JSON)) : list (jsstring * JSON) :=
  match properties with
  | [] => [(k, v)]
  | (k', v') :: rest =>
      if streq k k' then (k, v) :: rest
      else (k', v') :: setProperty k v rest
  end.

(** One JSON value, with the text after it. [fuel] bounds the nesting and
    the number of elements read. *)
Fixpoint readValue (fuel : nat) (s : jsstring) : option (JSON * jsstring) :=
  match fuel with
  | O => None
  | S fuel' =>
      match skipSpace s with
      | [] => None
      | c :: s' =>
          if c =? 123 then
            match skipSpace s' with
            | 125 :: r => Some (JObj [], r)
            | _ => readMembers fuel' s' []
            end
          else if c =? 91 then
            match skipSpace s' with
            | 93 :: r => Some (JArr [], r)
            | _ => readElements fuel' s' []
            end
          else if c =? 34 then
            match readChars s' [] with
            | Some (str, r) => Some (JStr str, r)
            | None => None
            end
          else if c =? 116 then
            match startsWith (js "rue") s' with
            | Some r => Some (JBool true, r)
            | None => None
            end
          else if c =? 102 then
            match startsWith (js "alse") s' with
            | Some r => Some (JBool false, r)
            | None => None
            end
          else if c =? 110 then
            match startsWith (js "ull") s' with
            | Some r => Some (JNull, r)
            | None => None
            end
          else
            match readNumber (c :: s') with
            | Some (x, r) => Some (JNum x, r)
            | None => None
            end
      end
  end
with readElements (fuel : nat) (s : jsstring) (acc : list JSON)
  : option (JSON * jsstring) :=
  match fuel with
  | O => None
  | S fuel' =>
      match readValue fuel' s with
      | None => None
      | Some (v, r) =>
          match skipSpace r with
          | 44 :: r' => readElements fuel' r' (acc ++ [v])
          | 93 :: r' => Some (JArr (acc ++ [v]), r')
          | _ => None
          end
      end
  end
with readMembers (fuel : nat) (s : jsstring) (acc : list (jsstring * JSON))
  : option (JSON * jsstring) :=
  match fuel with
  | O => None
  | S fuel' =>
      match skipSpace s with
      | 34 :: s1 =>
          match readChars s1 [] with
          | None => None
          | Some (k, s2) =>
              match skipSpace s2 with
              | 58 :: s3 =>
                  match readValue fuel' s3 with
                  | None => None
                  | Some (v, r) =>
                      match skipSpace r with
                      | 44 :: r' => readMembers fuel' r' (setProperty k v acc)
                      | 125 :: r' => Some (JObj (setProperty k v acc), r')
                      | _ => None
                      end
                  end
              | _ => None
              end
          end
      | _ => None
      end
  end.

(** [JSON.parse(text)]: one value between optional white space, or a
    [SyntaxError]. *)
Definition JSON_parse (text : jsstring) : Completion JSON :=
  match readValue (2 * length text + 2) text with
  | Some (v, r) =>
      match skipSpace r with
      | [] => Normal v
      | _ :: _ => Throw SyntaxError
      end
  | None => Throw SyntaxError
  end.

End JSONText.

(* ====================================================================== *)
(** * [Buffer.prototype.toString()]: UTF-8 decoding *)
(* ====================================================================== *)

Module Utf8.
Import JS.

Definition Buffer := list Byte.byte.

(** The bytes of a literal. *)
Definition bytes (s : string) : Buffer := list_byte_of_string s.

Definition REPLACEMENT : CodeUnit := 65533.

(** The code units of one code point. *)
Definition CodeUnitsOf (cp : N) : jsstring :=
  if cp <? 65536 then [cp]
  else [55296 + (cp - 65536) / 1024; 56320 + (cp - 65536) mod 1024].

(** The decoder reads a lead byte when [needed] is 0, and otherwise a
    continuation byte between [lower] and [upper]. A byte that cannot
    continue the sequence ends it with U+FFFD and is read again as a lead
    byte; a sequence cut off by the end of the buffer gives U+FFFD. *)
Fixpoint decode (b : Buffer) (cp needed lower upper : N) : jsstring :=
  match b with
  | [] => if needed =? 0 then [] else [REPLACEMENT]
  | x :: rest =>
      let lead (c : N) : jsstring :=
        if c <=? 127 then c :: decode rest 0 0 128 191
        else if (194 <=? c) && (c <=? 223) then
          decode rest (c mod 32) 1 128 191
        else if (224 <=? c) && (c <=? 239) then
          decode rest (c mod 16) 2
            (if c =? 224 then 160 else 128) (if c =? 237 then 159 else 191)
        else if (240 <=? c) && (c <=? 244) then
          decode rest (c mod 8) 3
            (if c =? 240 then 144 else 128) (if c =? 244 then 143 else 191)
        else REPLACEMENT :: decode rest 0 0 128 191 in
      let c := Byte.to_N x in
      if needed =? 0 then lead c
      else if (lower <=? c) && (c <=? upper) then
        if needed =? 1 then CodeUnitsOf (cp * 64 + c mod 64)
                            ++ decode rest 0 0 128 191
        else decode rest (cp * 64 + c mod 64) (needed - 1) 128 191
      else REPLACEMENT :: lead c
  end.

(** [Chunk.toString()] *)
Definition toString (Chunk : Buffer) : jsstring := decode Chunk 0 0 128 191.

End Utf8.

(* ====================================================================== *)
(** * Messages to NDJSON *)
(* ====================================================================== *)

Module Translator.
Import JS JSONText.

(** The content of a message: a string, or an array of blocks. *)
Inductive Content :=
| TextContent (text : jsstring)
| BlockContent (Blocks : list JSON).

Record Message := { role : jsstring; content : Content }.

(** [normalizedContent] (lines 47 to 51) *)
Definition normalizedContent (Content : Content) : list JSON :=
  match Content with
  | TextContent text => [JObj [(js "type", JStr (js "text"));
                               (js "text", JStr text)]]
  | BlockContent Blocks => Blocks
  end.

(** The event built for one message by the first [map] (lines 56 to 59). *)
Definition AgentEvent (Msg : Message) : JSON :=
  JObj [(js "type",
         JStr (if streq (role Msg) (js "user") then js "user"
               else js "assistant"));
        (js "message",
         JObj [(js "role", JStr (role Msg));
               (js "content", JArr (normalizedContent (content Msg)))])].

(** [MessagesAsNDJSON] (lines 53 to 62) *)
Definition MessagesAsNDJSON (Messages : list Message) : jsstring :=
  join [LF]
    (map JSON_stringify
       (map AgentEvent
          (filter (fun Msg => negb (streq (role Msg) (js "system")))
             Messages)))
  ++ [LF].

(** [extractedSystemPrompt] (lines 64 to 76). [None] is [undefined]. A
    block that is [null] makes [Block.type] throw. *)
Definition extractedSystemPrompt (Messages : list Message)
  : Completion (option jsstring) :=
  match find (fun Msg => streq (role Msg) (js "system")) Messages with
  | None => Normal None
  | Some SystemMsg =>
      match content SystemMsg with
      | TextContent text => Normal (Some text)
      | BlockContent Blocks =>
          kept <- filterM (fun Block =>
                             type <- Get (Some Block) (js "type") ;;
                             Normal (isString type (js "text"))) Blocks ;;
          texts <- mapM (fun Block => Get (Some Block) (js "text")) kept ;;
          merged <- Array_join [LF] texts ;;
          Normal (Some merged)
      end
  end.

End Translator.

(* ====================================================================== *)
(** * Decoding the output of the CLI *)
(* ====================================================================== *)

Module Decoder.
Import JS JSONText.

(** [Block.text ?? ""] *)
Definition textOrEmpty (text : Value) : Value :=
  if isNullish text then Some (JStr []) else text.

(** [ContentAsString] (lines 81 to 89); a content that is neither a string
    nor an array has no [filter] method. *)
Definition ContentAsString (Content : JSON) : Completion jsstring :=
  match Content with
  | JStr text => Normal text
  | JArr Blocks =>
      kept <- filterM (fun Block =>
                         type <- Get (Some Block) (js "type") ;;
                         Normal (isString type (js "text"))) Blocks ;;
      texts <- mapM (fun Block =>
                       text <- Get (Some Block) (js "text") ;;
                       Normal (textOrEmpty text)) kept ;;
      Array_join [] texts
  | _ => Throw TypeError
  end.

(** [(Line) => (Line.trim() !== "")] *)
Definition notBlank (Line : jsstring) : bool := negb (streq (trim Line) []).

(** The callback of [reduce] (lines 94 to 106). [attempt] is the [try]
    block: [Normal (Some Text)] when it returns [Text], [Normal None] when
    it falls through; an exception is caught and ignored. [Text], a string,
    is never [null]. *)
Definition LastTextAfter (LastText Line : jsstring) : jsstring :=
  let attempt : Completion (option jsstring) :=
    Event <- JSON_parse Line ;;
    type <- Get (Some Event) (js "type") ;;
    if isString type (js "assistant") then
      message <- Get (Some Event) (js "message") ;;
      content <- GetOptional message (js "content") ;;
      match content with
      | None | Some JNull => Normal None
      | Some Content => Text <- ContentAsString Content ;; Normal (Some Text)
      end
    else Normal None in
  match attempt with
  | Normal (Some Text) => Text
  | Normal None => LastText
  | Throw _ => LastText
  end.

(** [TextExtractedFromStreamJSON] (lines 91 to 107) *)
Definition TextExtractedFromStreamJSON (Raw : jsstring) : jsstring :=
  fold_left LastTextAfter (filter notBlank (split LF Raw)) [].

(** The variables the [data] callback of the streaming variant closes
    over, and the calls of [onToken] made so far. *)
Record State := {
  LineBuffer : jsstring;
  LastText : jsstring;
  Tokens : list jsstring
}.

Definition initial : State :=
  {| LineBuffer := []; LastText := []; Tokens := [] |}.

(** The callback of [forEach] (lines 168 to 181). [attempt] is the [try]
    block, which changes the variables only at its end; an exception is
    caught and ignored. [onToken] returns normally. *)
Definition onLine (st : State) (Line : jsstring) : State :=
  let attempt : Completion State :=
    Event <- JSON_parse Line ;;
    type <- Get (Some Event) (js "type") ;;
    if isString type (js "assistant") then
      message <- Get (Some Event) (js "message") ;;
      content <- GetOptional message (js "content") ;;
      match content with
      | None | Some JNull => Normal st
      | Some Content =>
          Text <- ContentAsString Content ;;
          if (length (LastText st) <? length Text)%nat then
            Normal {| LineBuffer := LineBuffer st;
                      LastText := Text;
                      Tokens := Tokens st
                                ++ [slice Text (length (LastText st))] |}
          else Normal st
      end
    else Normal st in
  match attempt with
  | Normal st' => st'
  | Throw _ => st
  end.

(** The [data] callback (lines 162 to 182) on the text of a chunk. *)
Definition onText (text : jsstring) (st : State) : State :=
  let (Lines, popped) := pop (split LF (LineBuffer st ++ text)) in
  fold_left onLine (filter notBlank Lines)
    {| LineBuffer := nullish_or popped [];
       LastText := LastText st;
       Tokens := Tokens st |}.

(** The [data] callback of [Process.stdout]. *)
Definition onData (Chunk : Utf8.Buffer) (st : State) : State :=
  onText (Utf8.toString Chunk) st.

Definition feed (Chunks : list Utf8.Buffer) (st : State) : State :=
  fold_left (fun st Chunk => onData Chunk st) Chunks st.

End Decoder.

(* ====================================================================== *)
(** * Invoking the CLI *)
(* ====================================================================== *)

(** What both variants share: the promise, the child process and the events
    the runtime delivers to the callbacks registered on it. *)
Module Session.
Import JS.

(** [new Error(message)] *)
Record Error := { message : jsstring }.

Inductive Promise (A : Type) :=
| Pending
| Fulfilled (value : A)
| Rejected (reason : Error).
Arguments Pending {A}.
Arguments Fulfilled {A} value.
Arguments Rejected {A} reason.

(** A promise is settled once; later calls change nothing. *)
Definition resolve {A} (value : A) (p : Promise A) : Promise A :=
  match p with Pending => Fulfilled value | _ => p end.

Definition reject {A} (reason : Error) (p : Promise A) : Promise A :=
  match p with Pending => Rejected reason | _ => p end.

(** The spawned process as the program acts on it: how it was started,
    what was written to its input, and the signals sent to it. *)
Record ChildProcess := {
  command : jsstring;
  Args : list jsstring;
  stdin : jsstring;
  stdinEnded : bool;
  signals : list jsstring
}.

Definition spawn (command : jsstring) (Args : list jsstring) : ChildProcess :=
  {| command := command; Args := Args; stdin := []; stdinEnded := false;
     signals := [] |}.

Definition write_and_end (data : jsstring) (P : ChildProcess) : ChildProcess :=
  {| command := command P; Args := Args P; stdin := stdin P ++ data;
     stdinEnded := true; signals := signals P |}.

Definition kill (signal : jsstring) (P : ChildProcess) : ChildProcess :=
  {| command := command P; Args := Args P; stdin := stdin P;
     stdinEnded := stdinEnded P; signals := signals P ++ [signal] |}.

(** The events of the child process and of the timer. [Code] is [None]
    for [null], the code of a process ended by a signal. *)
Inductive ProcessEvent :=
| stdout_data (Chunk : Utf8.Buffer)
| stderr_data (Chunk : Utf8.Buffer)
| timer_expired
| close (Code : option Z)
| error (Signal : Error).

(** [`${Code}`] *)
Definition CodeToString (Code : option Z) : jsstring :=
  match Code with
  | None => js "null"
  | Some z => IntegerToString z
  end.

(** [Code !== 0] *)
Definition isNonZero (Code : option Z) : bool :=
  match Code with
  | Some 0%Z => false
  | _ => true
  end.

Definition TimeoutError : Error :=
  {| message := js "claude CLI timed out after 120 s" |}.

Definition ExitError (Code : option Z) (StdErr : jsstring) : Error :=
  {| message := js "claude exited with code " ++ CodeToString Code
                ++ js ": " ++ trim StdErr |}.

(** The delay given to [setTimeout], in milliseconds. *)
Definition TimerDelay : N := 120000.

(** The order in which the runtime runs the callbacks, given the events of
    the child process with their times of arrival in milliseconds since the
    timer was set: the callback of the timer has its turn once the delay
    has elapsed, after the events that arrived before and ahead of those
    that arrive later. (A timer cleared by then does not run: the
    callbacks below ignore [timer_expired] when no timer is pending.) *)
Definition schedule (trace : list (N * ProcessEvent)) : list ProcessEvent :=
  map snd (filter (fun te => fst te <? TimerDelay) trace)
  ++ timer_expired
     :: map snd (filter (fun te => negb (fst te <? TimerDelay)) trace).

End Session.

(** ** [ResponseFromClaudeCode] *)
Module NonStreaming.
Import JS Session.

Record Response := { Text : jsstring; SessionId : jsstring }.

(** The variables of one call. [Timer] holds the delay of the pending
    timeout, [None] once it was cleared or has fired; [console] lists the
    calls of [console.error]. *)
Record State := {
  Process : ChildProcess;
  UsedSessionId : jsstring;
  StdOut : jsstring;
  StdErr : jsstring;
  Timer : option N;
  console : list (jsstring * jsstring);
  promise : Promise Response
}.

(** The body of the function (lines 109 to 144) up to [return promise],
    the callbacks it registers being the functions below; [randomUUID] is
    the identifier the runtime would generate. *)
Definition ResponseFromClaudeCode (randomUUID : jsstring)
  (NDJSON : jsstring) (SystemPrompt SessionId : option jsstring) : State :=
  let Args :=
    [js "--print"; js "--verbose"; js "--input-format"; js "stream-json";
     js "--output-format"; js "stream-json";
     js "--dangerously-skip-permissions"] in
  let Args :=
    match SystemPrompt with
    | Some prompt => Args ++ [js "--system-prompt"; prompt]
    | None => Args
    end in
  let UsedSessionId := nullish_or SessionId randomUUID in
  let Args := Args ++ [js "--session-id"; UsedSessionId] in
  {| Process := write_and_end NDJSON (spawn (js "claude") Args);
     UsedSessionId := UsedSessionId;
     StdOut := []; StdErr := [];
     Timer := Some TimerDelay;
     console := [];
     promise := Pending |}.

Definition onStdout (Chunk : Utf8.Buffer) (st : State) : State :=
  {| Process := Process st; UsedSessionId := UsedSessionId st;
     StdOut := StdOut st ++ Utf8.toString Chunk; StdErr := StdErr st;
     Timer := Timer st; console := console st; promise := promise st |}.

Definition onStderr (Chunk : Utf8.Buffer) (st : State) : State :=
  {| Process := Process st; UsedSessionId := UsedSessionId st;
     StdOut := StdOut st; StdErr := StdErr st ++ Utf8.toString Chunk;
     Timer := Timer st; console := console st; promise := promise st |}.

(** The callback of [setTimeout]; a cleared timer never runs it. *)
Definition onTimeout (st : State) : State :=
  match Timer st with
  | None => st
  | Some _ =>
      {| Process := kill (js "SIGTERM") (Process st);
         UsedSessionId := UsedSessionId st;
         StdOut := StdOut st; StdErr := StdErr st;
         Timer := None; console := console st;
         promise := reject TimeoutError (promise st) |}
  end.

Definition onClose (Code : option Z) (st : State) : State :=
  let console :=
    match trim (StdErr st) with
    | [] => console st
    | _ :: _ => console st ++ [(js "[claude stderr]", trim (StdErr st))]
    end in
  {| Process := Process st; UsedSessionId := UsedSessionId st;
     StdOut := StdOut st; StdErr := StdErr st;
     Timer := None; console := console;
     promise :=
       if isNonZero Code
       then reject (ExitError Code (StdErr st)) (promise st)
       else resolve
              {| Text := Decoder.TextExtractedFromStreamJSON (StdOut st);
                 SessionId := UsedSessionId st |} (promise st) |}.

Definition onError (Signal : Error) (st : State) : State :=
  {| Process := Process st; UsedSessionId := UsedSessionId st;
     StdOut := StdOut st; StdErr := StdErr st;
     Timer := None; console := console st;
     promise := reject Signal (promise st) |}.

Definition handle (st : State) (ev : ProcessEvent) : State :=
  match ev with
  | stdout_data Chunk => onStdout Chunk st
  | stderr_data Chunk => onStderr Chunk st
  | timer_expired => onTimeout st
  | close Code => onClose Code st
  | error Signal => onError Signal st
  end.

Definition run (events : list ProcessEvent) (st : State) : State :=
  fold_left handle events st.

End NonStreaming.

(** ** [ResponseFromClaudeCodeStreaming] *)
Module Streaming.
Import JS Session.

(** The variables of one call; [decoder] holds [LineBuffer], [LastText]
    and the calls of [onToken]. *)
Record State := {
  Process : ChildProcess;
  UsedSessionId : jsstring;
  decoder : Decoder.State;
  StdErr : jsstring;
  Timer : option N;
  console : list (jsstring * jsstring);
  promise : Promise jsstring
}.

(** The body of the function (lines 146 to 202) up to [return promise]. *)
Definition ResponseFromClaudeCodeStreaming (randomUUID : jsstring)
  (NDJSON : jsstring) (SystemPrompt SessionId : option jsstring) : State :=
  let Args :=
    [js "--print"; js "--verbose"; js "--input-format"; js "stream-json";
     js "--output-format"; js "stream-json";
     js "--include-partial-messages"; js "--dangerously-skip-permissions"] in
  let Args :=
    match SystemPrompt with
    | Some prompt => Args ++ [js "--system-prompt"; prompt]
    | None => Args
    end in
  let UsedSessionId := nullish_or SessionId randomUUID in
  let Args := Args ++ [js "--session-id"; UsedSessionId] in
  {| Process := write_and_end NDJSON (spawn (js "claude") Args);
     UsedSessionId := UsedSessionId;
     decoder := Decoder.initial;
     StdErr := [];
     Timer := Some TimerDelay;
     console := [];
     promise := Pending |}.

Definition onStdout (Chunk : Utf8.Buffer) (st : State) : State :=
  {| Process := Process st; UsedSessionId := UsedSessionId st;
     decoder := Decoder.onData Chunk (decoder st); StdErr := StdErr st;
     Timer := Timer st; console := console st; promise := promise st |}.

Definition onStderr (Chunk : Utf8.Buffer) (st : State) : State :=
  {| Process := Process st; UsedSessionId := UsedSessionId st;
     decoder := decoder st; StdErr := StdErr st ++ Utf8.toString Chunk;
     Timer := Timer st; console := console st; promise := promise st |}.

Definition onTimeout (st : State) : State :=
  match Timer st with
  | None => st
  | Some _ =>
      {| Process := kill (js "SIGTERM") (Process st);
         UsedSessionId := UsedSessionId st;
         decoder := decoder st; StdErr := StdErr st;
         Timer := None; console := console st;
         promise := reject TimeoutError (promise st) |}
  end.

Definition onClose (Code : option Z) (st : State) : State :=
  let console :=
    match trim (StdErr st) with
    | [] => console st
    | _ :: _ => console st ++ [(js "[claude stderr]", trim (StdErr st))]
    end in
  {| Process := Process st; UsedSessionId := UsedSessionId st;
     decoder := decoder st; StdErr := StdErr st;
     Timer := None; console := console;
     promise :=
       if isNonZero Code
       then reject (ExitError Code (StdErr st)) (promise st)
       else resolve (UsedSessionId st) (promise st) |}.

Definition onError (Signal : Error) (st : State) : State :=
  {| Process := Process st; UsedSessionId := UsedSessionId st;
     decoder := decoder st; StdErr := StdErr st;
     Timer := None; console := console st;
     promise := reject Signal (promise st) |}.

Definition handle (st : State) (ev : ProcessEvent) : State :=
  match ev with
  | stdout_data Chunk => onStdout Chunk st
  | stderr_data Chunk => onStderr Chunk st
  | timer_expired => onTimeout st
  | close Code => onClose Code st
  | error Signal => onError Signal st
  end.

Definition run (events : list ProcessEvent) (st : State) : State :=
  fold_left handle events st.

End Streaming.

(* ====================================================================== *)
(** * Responses and requests *)
(* ====================================================================== *)

Module Http.
Import JS JSONText Session.

(** A non-negative integer as a number: its digits without the trailing
    zeros, and their count (exact below 2^53). *)
Definition NumberOfN (m : N) : Number :=
  match m with
  | N0 => Zero
  | Npos p =>
      let '(s, t) := stripZeros (length (digitsOf p)) m 0%Z in
      let s := N.succ_pos (N.pred s) in
      Finite false s (Z.of_nat (length (digitsOf s)) + t)
  end.

(** [JSON.stringify(v, null, 2)]: [indent] is the indentation of the
    line the value starts on. *)
Fixpoint JSON_stringify_indented (indent : jsstring) (v : JSON) : jsstring :=
  match v with
  | JArr [] => js "[]"
  | JArr elements =>
      let inner := indent ++ js "  " in
      js "[" ++ [LF] ++ inner ++
      join (js "," ++ [LF] ++ inner)
        (map (JSON_stringify_indented inner) elements)
      ++ [LF] ++ indent ++ js "]"
  | JObj [] => js "{}"
  | JObj properties =>
      let inner := indent ++ js "  " in
      js "{" ++ [LF] ++ inner ++
      join (js "," ++ [LF] ++ inner)
        (map (fun kv : jsstring * JSON =>
                let (k, x) := kv in
                QuoteJSONString k ++ js ": " ++ JSON_stringify_indented inner x)
             properties)
      ++ [LF] ++ indent ++ js "}"
  | _ => JSON_stringify v
  end.

(** [Buffer.byteLength(s)]: the length of the UTF-8 encoding, in which a
    surrogate outside a pair is written as U+FFFD. *)
Fixpoint byteLength (s : jsstring) : N :=
  match s with
  | [] => 0
  | c :: s' =>
      if c <? 128 then 1 + byteLength s'
      else if c <? 2048 then 2 + byteLength s'
      else if isLeadSurrogate c then
        match s' with
        | d :: s'' =>
            if isTrailSurrogate d then 4 + byteLength s''
            else 3 + byteLength s'
        | [] => 3
        end
      else 3 + byteLength s'
  end.

(** ** Response builders *)

(** [now] is the value of [Date.now()]. *)
Definition usage : JSON :=
  JObj [(js "prompt_tokens", JNum (Finite true 1 1));
        (js "completion_tokens", JNum (Finite true 1 1));
        (js "total_tokens", JNum (Finite true 1 1))].

(** [buildChatResponse] (lines 207 to 220) *)
Definition buildChatResponse (now : N) (Content : jsstring) (Model : JSON)
  (SessionId : jsstring) : JSON :=
  JObj [(js "id", JStr (js "chatcmpl-" ++ NumberToString (NumberOfN now)));
        (js "object", JStr (js "chat.completion"));
        (js "created", JNum (NumberOfN (now / 1000)));
        (js "model", Model);
        (js "_session_id", JStr SessionId);
        (js "choices",
         JArr [JObj [(js "index", JNum Zero);
                     (js "message",
                      JObj [(js "role", JStr (js "assistant"));
                            (js "content", JStr Content)]);
                     (js "finish_reason", JStr (js "stop"))]]);
        (js "usage", usage)].

(** [buildTextResponse] (lines 222 to 232) *)
Definition buildTextResponse (now : N) (Text : jsstring) (Model : JSON)
  : JSON :=
  JObj [(js "id", JStr (js "cmpl-" ++ NumberToString (NumberOfN now)));
        (js "object", JStr (js "text_completion"));
        (js "created", JNum (NumberOfN (now / 1000)));
        (js "model", Model);
        (js "choices",
         JArr [JObj [(js "text", JStr Text);
                     (js "index", JNum Zero);
                     (js "logprobs", JNull);
                     (js "finish_reason", JStr (js "stop"))]]);
        (js "usage", usage)].

(** The object [SSEChunk] serializes. *)
Definition ChunkObject (now : N) (Delta : jsstring) (Model : JSON) : JSON :=
  JObj [(js "id", JStr (js "chatcmpl-" ++ NumberToString (NumberOfN now)));
        (js "object", JStr (js "chat.completion.chunk"));
        (js "created", JNum (NumberOfN (now / 1000)));
        (js "model", Model);
        (js "choices",
         JArr [JObj [(js "index", JNum Zero);
                     (js "delta", JObj [(js "content", JStr Delta)]);
                     (js "finish_reason", JNull)]])].

(** [SSEChunk] (lines 234 to 243) *)
Definition SSEChunk (now : N) (Delta : jsstring) (Model : JSON) : jsstring :=
  js "data: " ++ JSON_stringify (ChunkObject now Delta Model) ++ [LF; LF].

(** ** HTTP helpers *)

Inductive HeaderValue :=
| HeaderText (s : jsstring)
| HeaderNumber (n : N).

(** The calls made on the [Response] object. [Response_end None] is
    [Response.end()] without a payload. *)
Inductive ResponseCall :=
| Response_writeHead (Status : N) (Headers : list (jsstring * HeaderValue))
| Response_write (Chunk : jsstring)
| Response_end (Payload : option jsstring).

(** [sendJSON] (lines 248 to 256) *)
Definition sendJSON (Status : N) (Body : JSON) : list ResponseCall :=
  let Payload := JSON_stringify_indented [] Body in
  [Response_writeHead Status
     [(js "Content-Type", HeaderText (js "application/json"));
      (js "Content-Length", HeaderNumber (byteLength Payload));
      (js "Access-Control-Allow-Origin", HeaderText (js "*"))];
   Response_end (Some Payload)].

(** [sendError] (lines 258 to 260) *)
Definition sendError (Status : N) (Msg : jsstring) : list ResponseCall :=
  sendJSON Status
    (JObj [(js "error",
            JObj [(js "message", JStr Msg);
                  (js "type", JStr (js "proxy_error"));
                  (js "code", JNum (NumberOfN Status))])]).

(** The events of the request stream. *)
Inductive RequestEvent :=
| request_data (Chunk : Utf8.Buffer)
| request_end
| request_error (Signal : Error).

(** The variables of one call of [readBody] (lines 262 to 269). *)
Record BodyReader := {
  Chunks : list Utf8.Buffer;
  promise : Promise jsstring
}.

Definition readBody : BodyReader := {| Chunks := []; promise := Pending |}.

Definition onRequest (st : BodyReader) (ev : RequestEvent) : BodyReader :=
  match ev with
  | request_data Chunk =>
      {| Chunks := Chunks st ++ [Chunk]; promise := promise st |}
  | request_end =>
      {| Chunks := Chunks st;
         promise := resolve (Utf8.toString (concat (Chunks st))) (promise st) |}
  | request_error Signal =>
      {| Chunks := Chunks st; promise := reject Signal (promise st) |}
  end.

Definition receive (events : list RequestEvent) (st : BodyReader)
  : BodyReader :=
  fold_left onRequest events st.

End Http.

(* ====================================================================== *)
(** * Route handlers *)
(* ====================================================================== *)

Module Handlers.
Import JS JSONText Session Http.

(** [ToBoolean] of a value of the body, as in [if (Body.stream)]. *)
Definition ToBoolean (v : Value) : bool :=
  match v with
  | None | Some JNull | Some (JBool false) | Some (JNum Zero)
  | Some (JStr []) => false
  | Some _ => true
  end.

(** [`${v}`] for a value that is not [null]. *)
Definition TemplateToString (v : JSON) : Completion jsstring :=
  match v with
  | JNull => Normal (js "null")
  | _ => elementToString v
  end.

(** An object literal as [JSON.stringify] sees it: a property whose
    value is [undefined] is left out. *)
Definition ObjectOf (properties : list (jsstring * Value)) : JSON :=
  JObj (flat_map (fun kv : jsstring * Value =>
                    match snd kv with
                    | Some v => [(fst kv, v)]
                    | None => []
                    end) properties).

(** [a.find(f)] with a callback that may throw. *)
Fixpoint findM {A} (f : A -> Completion bool) (a : list A)
  : Completion (option A) :=
  match a with
  | [] => Normal None
  | x :: a' =>
      found <- f x ;;
      if found then Normal (Some x) else findM f a'
  end.

(** ** The translator on the messages of a request body

    The handlers pass on what [JSON.parse] returned: a message is any JSON
    value. *)

(** [normalizedContent] (lines 47 to 51) *)
Definition normalizedContent (Content : Value) : Value :=
  match Content with
  | Some (JStr text) =>
      Some (JArr [JObj [(js "type", JStr (js "text"));
                        (js "text", JStr text)]])
  | _ => Content
  end.

(** The event built for one message (lines 56 to 59). *)
Definition AgentEvent (Msg : JSON) : Completion JSON :=
  role <- Get (Some Msg) (js "role") ;;
  content <- Get (Some Msg) (js "content") ;;
  Normal
    (ObjectOf
       [(js "type",
         Some (JStr (if isString role (js "user") then js "user"
                     else js "assistant")));
        (js "message",
         Some (ObjectOf [(js "role", role);
                         (js "content", normalizedContent content)]))]).

(** [MessagesAsNDJSON] (lines 53 to 62) *)
Definition MessagesAsNDJSON (Messages : list JSON) : Completion jsstring :=
  kept <- filterM (fun Msg =>
                     role <- Get (Some Msg) (js "role") ;;
                     Normal (negb (isString role (js "system")))) Messages ;;
  events <- mapM AgentEvent kept ;;
  Normal (join [LF] (map JSON_stringify events) ++ [LF]).

(** [extractedSystemPrompt] (lines 64 to 76): a content that is neither a
    string nor an array has no callable [filter]. *)
Definition extractedSystemPrompt (Messages : list JSON)
  : Completion (option jsstring) :=
  found <- findM (fun Msg =>
                    role <- Get (Some Msg) (js "role") ;;
                    Normal (isString role (js "system"))) Messages ;;
  match found with
  | None => Normal None
  | Some SystemMsg =>
      content <- Get (Some SystemMsg) (js "content") ;;
      match content with
      | Some (JStr text) => Normal (Some text)
      | Some (JArr Blocks) =>
          kept <- filterM (fun Block =>
                             type <- Get (Some Block) (js "type") ;;
                             Normal (isString type (js "text"))) Blocks ;;
          texts <- mapM (fun Block => Get (Some Block) (js "text")) kept ;;
          merged <- Array_join [LF] texts ;;
          Normal (Some merged)
      | _ => Throw TypeError
      end
  end.

(** ** The handlers up to the call of the CLI *)

(** What a handler does with a request: it still waits for the body, it
    answers at once, it throws, or it invokes the CLI; [log] is the line
    written to the console before. *)
Inductive Plan :=
| Waiting
| Reply (calls : list ResponseCall)
| Raise (e : Exception)
| Invoke (log : jsstring) (stream : bool) (Model : JSON) (NDJSON : jsstring)
    (SystemPrompt : option jsstring) (SessionId : Value).

Definition planOf (c : Completion Plan) : Plan :=
  match c with
  | Normal plan => plan
  | Throw e => Raise e
  end.

(** [Body.model ?? "claude-code-proxy"] *)
Definition ModelOf (model : Value) : JSON :=
  match model with
  | None | Some JNull => JStr (js "claude-code-proxy")
  | Some m => m
  end.

(** [handleChatCompletions] (lines 274 to 291) *)
Definition handleChatCompletions (request : list RequestEvent) : Plan :=
  match promise (receive request readBody) with
  | Pending => Waiting
  | Rejected _ => Reply (sendError 400 (js "Invalid JSON body"))
  | Fulfilled text =>
      match JSON_parse text with
      | Throw _ => Reply (sendError 400 (js "Invalid JSON body"))
      | Normal Body =>
          planOf
            (messages <- Get (Some Body) (js "messages") ;;
             match messages with
             | Some (JArr ((_ :: _) as Messages)) =>
                 model <- Get (Some Body) (js "model") ;;
                 SystemPrompt <- extractedSystemPrompt Messages ;;
                 NDJSON <- MessagesAsNDJSON Messages ;;
                 SessionId <- Get (Some Body) (js "session_id") ;;
                 stream <- Get (Some Body) (js "stream") ;;
                 session <- (if isNullish SessionId then Normal (js " (new)")
                             else
                               match SessionId with
                               | Some id =>
                                   text <- TemplateToString id ;;
                                   Normal (js " session=" ++ text)
                               | None => Normal (js " (new)")
                               end) ;;
                 Normal
                   (Invoke
                      (js "[chat] messages="
                       ++ NumberToString
                            (NumberOfN (N.of_nat (length Messages)))
                       ++ session
                       ++ (if ToBoolean stream then js " stream=true"
                           else []))
                      (ToBoolean stream) (ModelOf model) NDJSON
                      SystemPrompt SessionId)
             | _ =>
                 Normal
                   (Reply
                      (sendError 400
                         (js "`messages` must be a non-empty array")))
             end)
      end
  end.

(** [handleTextCompletions] (lines 320 to 333) *)
Definition handleTextCompletions (request : list RequestEvent) : Plan :=
  match promise (receive request readBody) with
  | Pending => Waiting
  | Rejected _ => Reply (sendError 400 (js "Invalid JSON body"))
  | Fulfilled text =>
      match JSON_parse text with
      | Throw _ => Reply (sendError 400 (js "Invalid JSON body"))
      | Normal Body =>
          planOf
            (prompt <- Get (Some Body) (js "prompt") ;;
             match prompt with
             | Some (JStr Prompt) =>
                 match trim Prompt with
                 | [] =>
                     Normal
                       (Reply
                          (sendError 400
                             (js "`prompt` must be a non-empty string")))
                 | _ :: _ =>
                     model <- Get (Some Body) (js "model") ;;
                     NDJSON <- MessagesAsNDJSON
                                 [JObj [(js "role", JStr (js "user"));
                                        (js "content", JStr Prompt)]] ;;
                     stream <- Get (Some Body) (js "stream") ;;
                     Normal
                       (Invoke
                          (js "[text] prompt_len="
                           ++ NumberToString
                                (NumberOfN (N.of_nat (length Prompt))))
                          (ToBoolean stream) (ModelOf model) NDJSON
                          None None)
                 end
             | _ =>
                 Normal
                   (Reply
                      (sendError 400
                         (js "`prompt` must be a non-empty string")))
             end)
      end
  end.

(** ** The answers once the CLI was invoked *)








(** The other branch of [handleChatCompletions] (lines 310 to 317): the
    answer once the promise of the call is settled, [now] being the value
    of [Date.now()] then. *)
Definition chatCompleted (now : N) (Model : JSON)
  (outcome : Promise NonStreaming.Response) : list ResponseCall :=
  match outcome with
  | Pending => []
  | Fulfilled r =>
      sendJSON 200
        (buildChatResponse now (NonStreaming.Text r) Model
           (NonStreaming.SessionId r))
  | Rejected Signal =>
      sendError 502 (js "Claude Code error: " ++ message Signal)
  end.

(** The other branch of [handleTextCompletions] (lines 352 to 359). *)
Definition textCompleted (now : N) (Model : JSON)
  (outcome : Promise NonStreaming.Response) : list ResponseCall :=
  match outcome with
  | Pending => []
  | Fulfilled r => sendJSON 200 (buildTextResponse now (NonStreaming.Text r) Model)
  | Rejected Signal =>
      sendError 502 (js "Claude Code error: " ++ message Signal)
  end.

(** ** The server *)

Definition CorsPreflight : list ResponseCall :=
  [Response_writeHead 204
     [(js "Access-Control-Allow-Origin", HeaderText (js "*"));
      (js "Access-Control-Allow-Methods", HeaderText (js "GET, POST, OPTIONS"));
      (js "Access-Control-Allow-Headers",
       HeaderText (js "Content-Type, Authorization"))];
   Response_end None].

Definition Models : JSON :=
  JObj [(js "object", JStr (js "list"));
        (js "data",
         JArr [JObj [(js "id", JStr (js "claude-code-proxy"));
                     (js "object", JStr (js "model"));
                     (js "created", JNum (Finite false 17 10));
                     (js "owned_by", JStr (js "anthropic"))]])].

(** [(Request.url ?? "/").split("?")[0]] *)
Definition PathOf (url : option jsstring) : jsstring :=
  hd [] (split 63 (nullish_or url (js "/"))).

(** The callback of [http.createServer] (lines 415 to 450). [Method] is
    the value of the variable of that name, the method of the request in
    upper case. An exception of a handler is answered with status 500. *)
Definition Server (Method : jsstring) (url : option jsstring)
  (request : list RequestEvent) : Plan :=
  let Path := PathOf url in
  if streq Method (js "OPTIONS") then Reply CorsPreflight
  else
    let plan :=
      if streq Method (js "POST") && streq Path (js "/v1/chat/completions")
      then handleChatCompletions request
      else if streq Method (js "POST") && streq Path (js "/v1/completions")
      then handleTextCompletions request
      else if streq Method (js "GET") && streq Path (js "/v1/models")
      then Reply (sendJSON 200 Models)
      else if streq Method (js "GET")
              && (streq Path (js "/") || streq Path (js "/health"))
      then Reply (sendJSON 200 (JObj [(js "status", JStr (js "ok"))]))
      else Reply (sendError 404
                    (js "Not found: " ++ Method ++ js " " ++ Path)) in
    match plan with
    | Raise _ => Reply (sendError 500 (js "Internal server error"))
    | _ => plan
    end.

End Handlers.

(* ====================================================================== *)
(** * The vocabulary of the specification *)
(* ====================================================================== *)

Module Spec.
Import JS JSONText.

(** A Buffer literal in which the apostrophe stands for the double quote. *)
Definition bytesq (s : string) : Utf8.Buffer :=
  map (fun b => match b with Byte.x27 => Byte.x22 | _ => b end)
      (Utf8.bytes s).

(** The lines of a text that a newline ends, and what follows the last
    newline. *)
Definition CompleteLines (text : jsstring) : list jsstring :=
  removelast (split LF text).

Definition Remainder (text : jsstring) : jsstring :=
  last (split LF text) [].

(** The events of an NDJSON document: its lines that are not blank. *)
Definition NDJSONLines (document : jsstring) : list jsstring :=
  filter Decoder.notBlank (split LF document).

(** A document of lines, each ended by a newline. *)
Definition Document (lines : list jsstring) : jsstring :=
  concat (map (fun l => l ++ [LF]) lines).

(** The text all chunks decode to, chunk by chunk. *)
Definition ChunksText (Chunks : list Utf8.Buffer) : jsstring :=
  concat (map Utf8.toString Chunks).

(** [a] is a prefix of [b] and shorter. *)
Definition StrictPrefix (a b : jsstring) : Prop :=
  exists c, c <> [] /\ b = a ++ c.

(** Cumulative texts: each one is a strict prefix of the next. *)
Fixpoint PrefixChain (texts : list jsstring) : Prop :=
  match texts with
  | a :: (b :: _) as rest => StrictPrefix a b /\ PrefixChain rest
  | _ => True
  end.

(** What each cumulative text adds to the one before it, [prev] being the
    text before the first; a text that adds nothing gives no increment. *)
Fixpoint Increments (prev : jsstring) (texts : list jsstring)
  : list jsstring :=
  match texts with
  | [] => []
  | T :: rest =>
      match skipn (length prev) T with
      | [] => Increments T rest
      | inc => inc :: Increments T rest
      end
  end.

(** What a line of the output is to the bridge: [Normal (Some Text)] is
    an event of type [assistant] with a content, of plain text [Text];
    [Normal None] is JSON of another shape; [Throw] is a line that is not
    JSON, or whose content cannot be read. *)
Definition AssistantText (Line : jsstring) : Completion (option jsstring) :=
  Event <- JSON_parse Line ;;
  type <- Get (Some Event) (js "type") ;;
  if isString type (js "assistant") then
    message <- Get (Some Event) (js "message") ;;
    content <- GetOptional message (js "content") ;;
    match content with
    | None | Some JNull => Normal None
    | Some Content =>
        Text <- Decoder.ContentAsString Content ;; Normal (Some Text)
    end
  else Normal None.

(** The texts of the assistant events among some lines, in order. *)
Definition AssistantTexts (lines : list jsstring) : list jsstring :=
  flat_map (fun l => match AssistantText l with
                     | Normal (Some T) => [T]
                     | _ => []
                     end) lines.

(** Each text is longer than the one before it, [prev] being the text
    before the first. *)
Fixpoint LengthsIncrease (prev : jsstring) (texts : list jsstring) : Prop :=
  match texts with
  | [] => True
  | T :: rest => (length prev < length T)%nat /\ LengthsIncrease T rest
  end.

(** A text that is empty or ends with a newline. *)
Definition NewlineTerminated (text : jsstring) : Prop :=
  text = [] \/ exists body, text = body ++ [LF].

(** Roles of the data model. *)
Definition isSystem (Msg : Translator.Message) : bool :=
  streq (Translator.role Msg) (js "system").
Definition isUser (Msg : Translator.Message) : bool :=
  streq (Translator.role Msg) (js "user").
Definition isAssistant (Msg : Translator.Message) : bool :=
  streq (Translator.role Msg) (js "assistant").

Definition hasKnownRole (Msg : Translator.Message) : bool :=
  isSystem Msg || isUser Msg || isAssistant Msg.

(** [toBlocks]: a string becomes a single Text block. *)
Definition toBlocks (c : Translator.Content) : list JSON :=
  match c with
  | Translator.TextContent text =>
      [JObj [(js "type", JStr (js "text")); (js "text", JStr text)]]
  | Translator.BlockContent Blocks => Blocks
  end.

(** The AgentEvent of a message: [type] is the role, [message] carries the
    role and the content as blocks. *)
Definition EventOf (Msg : Translator.Message) : JSON :=
  JObj [(js "type", JStr (Translator.role Msg));
        (js "message",
         JObj [(js "role", JStr (Translator.role Msg));
               (js "content", JArr (toBlocks (Translator.content Msg)))])].

(** A block of the data model: an object, whose [text] is a string when
    its [type] is [text]. *)
Definition isBlock (Block : JSON) : bool :=
  match Block with
  | JObj properties =>
      if isString (lookup (js "type") properties) (js "text") then
        match lookup (js "text") properties with
        | Some (JStr _) => true
        | _ => false
        end
      else true
  | _ => false
  end.

(** A block whose [type] is [text]. *)
Definition isTextBlock (Block : JSON) : bool :=
  match Block with
  | JObj properties => isString (lookup (js "type") properties) (js "text")
  | _ => false
  end.

(** The [text] fields of the Text blocks among some blocks. *)
Definition TextsOfBlocks (Blocks : list JSON) : list jsstring :=
  flat_map (fun Block =>
              match Block with
              | JObj properties =>
                  if isString (lookup (js "type") properties) (js "text") then
                    match lookup (js "text") properties with
                    | Some (JStr text) => [text]
                    | _ => []
                    end
                  else []
              | _ => []
              end) Blocks.

(** Data events only: what a running process causes before it ends. *)
Definition isData (ev : Session.ProcessEvent) : bool :=
  match ev with
  | Session.stdout_data _ | Session.stderr_data _ => true
  | _ => false
  end.

(** The process has not closed, nor failed to start, within [delay]
    milliseconds: whatever arrives before is data. *)
Definition NotClosedWithin (delay : N) (trace : list (N * Session.ProcessEvent))
  : Prop :=
  forall t ev, In (t, ev) trace -> t < delay -> isData ev = true.

(** The events that arrive before [delay]. *)
Definition Before (delay : N) (trace : list (N * Session.ProcessEvent))
  : list Session.ProcessEvent :=
  map snd (filter (fun te => fst te <? delay) trace).

(** The chunks of one stream among some events. *)
Definition StdoutChunks (events : list Session.ProcessEvent)
  : list Utf8.Buffer :=
  flat_map (fun ev => match ev with
                      | Session.stdout_data Chunk => [Chunk]
                      | _ => []
                      end) events.

Definition StderrChunks (events : list Session.ProcessEvent)
  : list Utf8.Buffer :=
  flat_map (fun ev => match ev with
                      | Session.stderr_data Chunk => [Chunk]
                      | _ => []
                      end) events.

(** The continuation bytes the UTF-8 decoder still awaits at the end of a
    buffer, from a state awaiting [needed] of them: 0 when the buffer ends
    on a character boundary. *)
Fixpoint awaited (b : Utf8.Buffer) (needed lower upper : N) : N :=
  match b with
  | [] => needed
  | x :: rest =>
      let lead (c : N) : N :=
        if c <=? 127 then awaited rest 0 128 191
        else if (194 <=? c) && (c <=? 223) then awaited rest 1 128 191
        else if (224 <=? c) && (c <=? 239) then
          awaited rest 2
            (if c =? 224 then 160 else 128) (if c =? 237 then 159 else 191)
        else if (240 <=? c) && (c <=? 244) then
          awaited rest 3
            (if c =? 240 then 144 else 128) (if c =? 244 then 143 else 191)
        else awaited rest 0 128 191 in
      let c := Byte.to_N x in
      if needed =? 0 then lead c
      else if (lower <=? c) && (c <=? upper) then
        if needed =? 1 then awaited rest 0 128 191
        else awaited rest (needed - 1) 128 191
      else lead c
  end.

Definition endsOnCharacter (Chunk : Utf8.Buffer) : bool :=
  awaited Chunk 0 128 191 =? 0.

(** A text without a newline. *)
Definition NoNewline (s : jsstring) : Prop := Forall (fun c => c <> LF) s.

(** A decoder state with another carry-over buffer. *)
Definition withBuffer (b : jsstring) (st : Decoder.State) : Decoder.State :=
  {| Decoder.LineBuffer := b;
     Decoder.LastText := Decoder.LastText st;
     Decoder.Tokens := Decoder.Tokens st |}.

(** The [data] callback on the texts of several chunks in turn. *)
Definition feedText (texts : list jsstring) (st : Decoder.State)
  : Decoder.State :=
  fold_left (fun st text => Decoder.onText text st) texts st.

(** [a] occurs in [b]. *)
Definition Contains (b a : jsstring) : Prop :=
  exists before after, b = before ++ a ++ after.

End Spec.

(** Vocabulary for the further properties. *)
Module SpecMore.
Import JS JSONText Spec.

(** What the streaming decoder keeps true of its variables: the
    increments add up to the length of the recorded text, none is empty,
    and the recorded text ends with the last one. *)
Definition TokensMatch (st : Decoder.State) : Prop :=
  length (concat (Decoder.Tokens st)) = length (Decoder.LastText st) /\
  Forall (fun token => token <> []) (Decoder.Tokens st) /\
  (forall earlier token,
      Decoder.Tokens st = earlier ++ [token] ->
      exists start, Decoder.LastText st = start ++ token).



(** The messages that are not system messages. *)
Definition Turns (Messages : list Translator.Message)
  : list Translator.Message :=
  filter (fun Msg => negb (isSystem Msg)) Messages.

(** The first event of a run that is not data: the one that settles the
    operation. *)
Definition firstSettling (events : list Session.ProcessEvent)
  : option Session.ProcessEvent :=
  find (fun ev => negb (isData ev)) events.

Definition isClose (ev : Session.ProcessEvent) : bool :=
  match ev with
  | Session.close _ => true
  | _ => false
  end.





(** The value [JSON.parse] returns for a content of the data model. *)
Definition ContentToJSON (c : Translator.Content) : JSON :=
  match c with
  | Translator.TextContent text => JStr text
  | Translator.BlockContent Blocks => JArr Blocks
  end.

(** A value of a request body that carries a message of the data model:
    an object whose [role] and [content] are those of the message,
    whatever else it holds. *)
Definition Represents (v : JSON) (Msg : Translator.Message) : Prop :=
  exists properties,
    v = JObj properties /\
    lookup (js "role") properties = Some (JStr (Translator.role Msg)) /\
    lookup (js "content") properties
    = Some (ContentToJSON (Translator.content Msg)).

(** A session identifier a client may give: none, [null] or a string. *)
Definition isSessionId (v : Value) : bool :=
  match v with
  | None | Some JNull | Some (JStr _) => true
  | Some _ => false
  end.

(** ** JSON text read back *)

(** What may follow a number literal: the end of the text, or a code unit
    that is neither a digit, a point nor an exponent mark. *)
Definition isTerminator (rest : jsstring) : bool :=
  match rest with
  | [] => true
  | c :: _ => negb (isDigit c || (c =? 46) || (c =? 101) || (c =? 69))
  end.

(** The value of some digits read after the value [v]. *)
Definition digitsFrom (v : N) (d : jsstring) : N :=
  fold_left (fun v c => 10 * v + (c - 48)) d v.

(** The parts of a number literal after its integer part. *)
Definition fractionText (frac : jsstring) : jsstring :=
  match frac with [] => [] | _ :: _ => 46 :: frac end.

Definition exponentText (expo : option (bool * jsstring)) : jsstring :=
  match expo with
  | Some (minus, e) => 101 :: (if minus then [45] else [43]) ++ e
  | None => []
  end.

Definition exponentValue (expo : option (bool * jsstring)) : Z :=
  match expo with
  | Some (minus, e) =>
      if minus then (- Z.of_N (digitsValue e))%Z else Z.of_N (digitsValue e)
  | None => 0%Z
  end.

Definition notDigitNext (s : jsstring) : bool :=
  match s with [] => true | c :: _ => negb (isDigit c) end.

(** A number as [JSON.parse] returns it: finite, its digits without a
    trailing zero, its exponent in the range of the literals read. *)
Definition isCanonicalNumber (x : Number) : bool :=
  match x with
  | Zero => true
  | Finite _ s n =>
      negb (Npos s mod 10 =? 0) && (-323 <=? n)%Z && (n <=? 309)%Z
  | Infinite _ => false
  end.

Fixpoint distinct (keys : list jsstring) : bool :=
  match keys with
  | [] => true
  | k :: rest => negb (existsb (streq k) rest) && distinct rest
  end.

(** A value as [JSON.parse] returns it and [JSON.stringify] writes it
    back: its numbers as above, the names of the properties of an object
    distinct. Strings are not restricted. *)
Fixpoint isCanonical (v : JSON) : bool :=
  match v with
  | JNum x => isCanonicalNumber x
  | JArr elements => forallb isCanonical elements
  | JObj properties =>
      distinct (map fst properties)
      && forallb (fun kv : jsstring * JSON => isCanonical (snd kv)) properties
  | _ => true
  end.

(** The fuel that reading a value back takes. *)
Fixpoint weight (v : JSON) : nat :=
  match v with
  | JArr elements => S (list_sum (map (fun e => S (weight e)) elements))
  | JObj properties =>
      S (list_sum (map (fun kv : jsstring * JSON => S (weight (snd kv)))
                     properties))
  | _ => 1
  end.

(** The first code unit of a serialized value: no white space, no closing
    bracket. *)
Definition opens (c : CodeUnit) : Prop :=
  isJSONSpace c = false /\ c <> 93 /\ c <> 125.

(** What the round trip states of one value. *)
Definition ReadsBack (v : JSON) : Prop :=
  isCanonical v = true ->
  forall fuel rest,
    (weight v <= fuel)%nat ->
    isTerminator rest = true ->
    readValue fuel (JSON_stringify v ++ rest) = Some (v, rest).

(** A property as [JSON.stringify] writes it. *)
Definition member (kv : jsstring * JSON) : jsstring :=
  let (k, x) := kv in QuoteJSONString k ++ js ":" ++ JSON_stringify x.

(** A message whose content blocks are values as [JSON.parse] returns
    them. *)
Definition isCanonicalMessage (Msg : Translator.Message) : bool :=
  match Translator.content Msg with
  | Translator.TextContent _ => true
  | Translator.BlockContent Blocks => forallb isCanonical Blocks
  end.

(** [Chunk.choices[0].delta.content] of a parsed chunk, when it is a
    string. *)
Definition DeltaOf (Chunk : JSON) : option jsstring :=
  match Chunk with
  | JObj properties =>
      match lookup (js "choices") properties with
      | Some (JArr (JObj choice :: _)) =>
          match lookup (js "delta") choice with
          | Some (JObj delta) =>
              match lookup (js "content") delta with
              | Some (JStr text) => Some text
              | _ => None
              end
          | _ => None
          end
      | _ => None
      end
  | _ => None
  end.

(** What the round trip states of one value written with indentation. *)
Definition ReadsBackIndented (v : JSON) : Prop :=
  isCanonical v = true ->
  forall indent fuel rest,
    forallb isJSONSpace indent = true ->
    (weight v <= fuel)%nat ->
    isTerminator rest = true ->
    readValue fuel (Http.JSON_stringify_indented indent v ++ rest)
    = Some (v, rest).

(** A property as [JSON.stringify] writes it with indentation. *)
Definition memberIndented (inner : jsstring) (kv : jsstring * JSON)
  : jsstring :=
  let (k, x) := kv in
  QuoteJSONString k ++ js ": " ++ Http.JSON_stringify_indented inner x.

(** The status and the parsed body of an answer sent with [sendJSON]. *)
Definition AnswerOf (calls : list Http.ResponseCall)
  : option (N * Completion JSON) :=
  match calls with
  | [Http.Response_writeHead Status _; Http.Response_end (Some Payload)] =>
      Some (Status, JSON_parse Payload)
  | _ => None
  end.

(** The body of an error answer. *)
Definition ErrorBody (Status : N) (Msg : jsstring) : JSON :=
  JObj [(js "error",
         JObj [(js "message", JStr Msg);
               (js "type", JStr (js "proxy_error"));
               (js "code", JNum (Http.NumberOfN Status))])].

End SpecMore.

(* ====================================================================== *)
(** * Properties *)
(* ====================================================================== *)

Import JS JSONText Spec.

(** ** Strings *)

Lemma streq_spec (a b : jsstring) : streq a b = true <-> a = b.
Proof.
  revert b; induction a as [|x a IH]; intros [|y b]; simpl;
    try (split; [discriminate | congruence]); try tauto.
  rewrite andb_true_iff, N.eqb_eq, IH.
  split; [intros [-> ->]; reflexivity | intros [= -> ->]; auto].
Qed.

Lemma streq_refl (a : jsstring) : streq a a = true.
Proof. apply streq_spec; reflexivity. Qed.

Lemma streq_false (a b : jsstring) : streq a b = false <-> a <> b.
Proof.
  rewrite <- streq_spec. destruct (streq a b); split; congruence.
Qed.

Lemma split_from_not_nil sep cur s : split_from sep cur s <> [].
Proof.
  revert cur; induction s as [|c s IH]; intros cur; simpl;
    [discriminate|].
  destruct (c =? sep); [discriminate | apply IH].
Qed.

(** Splitting a concatenation: the last piece of the first part goes on
    into the second part. *)
Lemma split_from_app sep cur a b :
  split_from sep cur (a ++ b) =
  removelast (split_from sep cur a)
  ++ split_from sep (last (split_from sep cur a) []) b.
Proof.
  revert cur; induction a as [|c a IH]; intros cur; simpl; [reflexivity|].
  destruct (c =? sep).
  - rewrite IH.
    destruct (split_from sep [] a) eqn:E;
      [exfalso; exact (split_from_not_nil _ _ _ E) | reflexivity].
  - apply IH.
Qed.

Lemma removelast_app_last {A} (l : list A) (d : A) :
  l <> [] -> removelast l ++ [last l d] = l.
Proof.
  intros H. symmetry. apply app_removelast_last. exact H.
Qed.

Lemma pop_split text :
  pop (split LF text) = (CompleteLines text, Some (Remainder text)).
Proof.
  unfold pop, CompleteLines, Remainder, split. f_equal.
  generalize (split_from_not_nil LF [] text).
  generalize (split_from LF [] text). intros l.
  induction l as [|x l IH]; [congruence|]. intros _.
  destruct l as [|y l]; [reflexivity|].
  change (last (map Some (x :: y :: l)) None) with (last (map Some (y :: l)) None).
  change (last (x :: y :: l) []) with (last (y :: l) []).
  apply IH. discriminate.
Qed.

Lemma split_from_cur sep c0 cur b :
  ~ In sep cur ->
  split_from sep c0 (cur ++ b) = split_from sep (c0 ++ cur) b.
Proof.
  revert c0; induction cur as [|x cur IH]; intros c0 H; simpl.
  - rewrite app_nil_r; reflexivity.
  - destruct (N.eqb_spec x sep) as [->|_]; [exfalso; apply H; left; reflexivity|].
    rewrite IH by (intros Hin; apply H; right; exact Hin).
    rewrite <- app_assoc; reflexivity.
Qed.

Lemma split_from_pieces sep cur s :
  ~ In sep cur -> Forall (fun p => ~ In sep p) (split_from sep cur s).
Proof.
  revert cur; induction s as [|c s IH]; intros cur H; simpl.
  - constructor; [exact H | constructor].
  - destruct (N.eqb_spec c sep) as [->|Hne].
    + constructor; [exact H | apply IH; intros []].
    + apply IH. intros Hin. apply in_app_or in Hin as [Hin|[->|[]]]; auto.
Qed.

Lemma Remainder_no_LF text : ~ In LF (Remainder text).
Proof.
  unfold Remainder, split.
  pose proof (split_from_pieces LF [] text (fun H => H)) as HF.
  pose proof (split_from_not_nil LF [] text) as Hne.
  destruct (exists_last Hne) as (l & x & E). rewrite E in *.
  rewrite last_last. apply Forall_app in HF as [_ HF].
  inversion HF; assumption.
Qed.

Lemma CompleteLines_app a b :
  CompleteLines (a ++ b) = CompleteLines a ++ CompleteLines (Remainder a ++ b).
Proof.
  unfold CompleteLines, split.
  rewrite split_from_app.
  rewrite removelast_app by apply split_from_not_nil.
  f_equal. f_equal.
  rewrite (split_from_cur LF [] (Remainder a) b (Remainder_no_LF a)).
  reflexivity.
Qed.

Lemma last_app_r {A} (l l' : list A) (d : A) :
  l' <> [] -> last (l ++ l') d = last l' d.
Proof.
  intros H. induction l as [|x l IH]; [reflexivity|].
  simpl. destruct (l ++ l') eqn:E; [|exact IH].
  apply app_eq_nil in E as [_ E]; contradiction.
Qed.

Lemma Remainder_app a b : Remainder (a ++ b) = Remainder (Remainder a ++ b).
Proof.
  pose proof (split_from_cur LF [] (Remainder a) b (Remainder_no_LF a)) as E.
  simpl in E.
  unfold Remainder at 1 2, split.
  rewrite split_from_app, E.
  apply last_app_r, split_from_not_nil.
Qed.

(** ** The streaming decoder *)

Import Decoder.

(** The line callback of each decoder, by what the line is. *)
Lemma LastTextAfter_AssistantText T Line :
  LastTextAfter T Line
  = match AssistantText Line with
    | Normal (Some Text) => Text
    | _ => T
    end.
Proof.
  unfold LastTextAfter, AssistantText.
  destruct (JSON_parse Line) as [Event|]; [|reflexivity]. cbn [bind].
  destruct (Get (Some Event) (js "type")) as [type|]; [|reflexivity].
  cbn [bind]. destruct (isString type (js "assistant")); [|reflexivity].
  destruct (Get (Some Event) (js "message")) as [message|]; [|reflexivity].
  cbn [bind].
  destruct (GetOptional message (js "content")) as [[[]|]|]; try reflexivity;
    cbn [bind];
    match goal with
    | |- context [ContentAsString ?c] => destruct (ContentAsString c)
    end; reflexivity.
Qed.

Lemma onLine_AssistantText st Line :
  onLine st Line
  = match AssistantText Line with
    | Normal (Some Text) =>
        if (length (LastText st) <? length Text)%nat then
          {| LineBuffer := LineBuffer st;
             LastText := Text;
             Tokens := Tokens st ++ [slice Text (length (LastText st))] |}
        else st
    | _ => st
    end.
Proof.
  unfold onLine, AssistantText.
  destruct (JSON_parse Line) as [Event|]; [|reflexivity]. cbn [bind].
  destruct (Get (Some Event) (js "type")) as [type|]; [|reflexivity].
  cbn [bind]. destruct (isString type (js "assistant")); [|reflexivity].
  destruct (Get (Some Event) (js "message")) as [message|]; [|reflexivity].
  cbn [bind].
  destruct (GetOptional message (js "content")) as [[[]|]|]; try reflexivity;
    cbn [bind];
    match goal with
    | |- context [ContentAsString ?c] =>
        destruct (ContentAsString c) as [Text|]
    end; try reflexivity;
    cbn [bind]; destruct (length (LastText st) <? length Text)%nat;
    reflexivity.
Qed.

Lemma onLine_withBuffer b st Line :
  onLine (withBuffer b st) Line = withBuffer b (onLine st Line).
Proof.
  rewrite !onLine_AssistantText.
  destruct (AssistantText Line) as [[Text|]|]; try reflexivity.
  simpl. destruct (length (LastText st) <? length Text)%nat; reflexivity.
Qed.

Lemma fold_onLine_withBuffer b lines st :
  fold_left onLine lines (withBuffer b st)
  = withBuffer b (fold_left onLine lines st).
Proof.
  revert st; induction lines as [|l lines IH]; intros st; simpl;
    [reflexivity|].
  rewrite onLine_withBuffer. apply IH.
Qed.

Lemma withBuffer_withBuffer a b st :
  withBuffer a (withBuffer b st) = withBuffer a st.
Proof. reflexivity. Qed.

Lemma withBuffer_same st : withBuffer (LineBuffer st) st = st.
Proof. destruct st; reflexivity. Qed.

(** One chunk: the complete lines of buffer and chunk are decoded in
    order, the rest is carried over. *)
Lemma onText_spec text st :
  onText text st =
  withBuffer (Remainder (LineBuffer st ++ text))
    (fold_left onLine (filter notBlank (CompleteLines (LineBuffer st ++ text)))
       st).
Proof.
  unfold onText. rewrite pop_split. simpl.
  rewrite <- fold_onLine_withBuffer. reflexivity.
Qed.

Lemma LineBuffer_withBuffer b st : LineBuffer (withBuffer b st) = b.
Proof. reflexivity. Qed.

(** Two chunks in turn decode as their concatenation in one chunk. *)
Lemma onText_onText a b st :
  onText b (onText a st) = onText (a ++ b) st.
Proof.
  rewrite (onText_spec b), (onText_spec a), LineBuffer_withBuffer.
  rewrite fold_onLine_withBuffer, withBuffer_withBuffer.
  rewrite (onText_spec (a ++ b)).
  rewrite app_assoc.
  rewrite (Remainder_app (LineBuffer st ++ a) b).
  rewrite (CompleteLines_app (LineBuffer st ++ a) b).
  rewrite filter_app, fold_left_app. reflexivity.
Qed.

Lemma onText_nil st : ~ In LF (LineBuffer st) -> onText [] st = st.
Proof.
  intros H. rewrite onText_spec, app_nil_r.
  pose proof (split_from_cur LF [] (LineBuffer st) [] H) as E.
  rewrite app_nil_r in E. simpl in E.
  unfold Remainder, CompleteLines, split. rewrite E. simpl.
  apply withBuffer_same.
Qed.

Lemma onText_no_LF text st : ~ In LF (LineBuffer (onText text st)).
Proof. rewrite onText_spec. apply Remainder_no_LF. Qed.

Lemma feedText_cons text texts st :
  feedText (text :: texts) st = onText (text ++ concat texts) st.
Proof.
  revert text st; induction texts as [|t texts IH]; intros text st.
  - simpl. rewrite app_nil_r. reflexivity.
  - change (feedText (text :: t :: texts) st)
      with (feedText (t :: texts) (onText text st)).
    rewrite IH, onText_onText. reflexivity.
Qed.

(** Any number of chunks decode as their concatenation in one chunk. *)
Lemma feedText_concat texts st :
  ~ In LF (LineBuffer st) -> feedText texts st = onText (concat texts) st.
Proof.
  intros H. destruct texts as [|t texts].
  - simpl. symmetry. apply onText_nil, H.
  - apply feedText_cons.
Qed.

Lemma feed_feedText Chunks st :
  feed Chunks st = feedText (map Utf8.toString Chunks) st.
Proof.
  revert st; induction Chunks as [|c Chunks IH]; intros st;
    [reflexivity|].
  simpl. apply IH.
Qed.

Lemma feed_text Chunks st :
  ~ In LF (LineBuffer st) -> feed Chunks st = onText (ChunksText Chunks) st.
Proof. intros H. rewrite feed_feedText. apply feedText_concat, H. Qed.

(** The decoder sees the chunks only through the text they decode to:
    two deliveries that decode to the same text, however it is cut, give
    the same increments and the same final text. *)
Lemma feed_same_text Chunks1 Chunks2 :
  ChunksText Chunks1 = ChunksText Chunks2 ->
  feed Chunks1 initial = feed Chunks2 initial.
Proof.
  intros E. rewrite !feed_text by (intros []). rewrite E. reflexivity.
Qed.

(** ** Blank lines *)

Lemma trimStart_nil s : trimStart s = [] -> forallb isWhiteSpace s = true.
Proof.
  induction s as [|c s IH]; simpl; [reflexivity|].
  destruct (isWhiteSpace c); [exact IH | discriminate].
Qed.

Lemma trimStart_head s c r : trimStart s = c :: r -> isWhiteSpace c = false.
Proof.
  induction s as [|x s IH]; simpl; [discriminate|].
  destruct (isWhiteSpace x) eqn:E; [exact IH|].
  intros [= -> _]. exact E.
Qed.

Lemma trimStart_suffix s : exists p, s = p ++ trimStart s
                                     /\ forallb isWhiteSpace p = true.
Proof.
  induction s as [|c s (p & E & Hp)]; simpl; [exists []; auto|].
  destruct (isWhiteSpace c) eqn:Hc.
  - exists (c :: p). simpl. rewrite Hc, Hp. split; [congruence | reflexivity].
  - exists []. auto.
Qed.

Lemma trim_nil s : trim s = [] -> forallb isWhiteSpace s = true.
Proof.
  unfold trim, trimEnd. intros H.
  assert (E : trimStart (rev (trimStart s)) = []).
  { rewrite <- (rev_involutive (trimStart _)), H. reflexivity. }
  apply trimStart_nil in E.
  destruct (trimStart_suffix s) as (p & Es & Hp).
  destruct (trimStart s) as [|c r] eqn:Et.
  - rewrite Es, app_nil_r. exact Hp.
  - apply trimStart_head in Et.
    rewrite forallb_forall in E.
    rewrite (E c) in Et; [discriminate|].
    apply in_rev. rewrite rev_involutive. left; reflexivity.
Qed.

Lemma skipSpace_of_white s :
  forallb isWhiteSpace s = true ->
  skipSpace s = [] \/
  exists c r, skipSpace s = c :: r
              /\ isWhiteSpace c = true /\ isJSONSpace c = false.
Proof.
  induction s as [|c s IH]; simpl; [left; reflexivity|].
  intros H. apply andb_true_iff in H as [Hc Hs].
  destruct (isJSONSpace c) eqn:E; [exact (IH Hs)|].
  right. exists c, s. auto.
Qed.

Lemma white_not_digit c : isWhiteSpace c = true -> isDigit c = false.
Proof.
  unfold isWhiteSpace, isDigit. intros H.
  destruct ((48 <=? c) && (c <=? 57)) eqn:E; [|reflexivity].
  apply andb_true_iff in E as [E1 E2].
  apply N.leb_le in E1, E2.
  repeat (apply orb_true_iff in H as [H|H]);
    try (apply N.eqb_eq in H; lia).
  apply andb_true_iff in H as [H1 H2]. apply N.leb_le in H1. lia.
Qed.

Ltac not_white k :=
  match goal with
  | Hw : isWhiteSpace ?c = true |- context [?c =? k] =>
      destruct (N.eqb_spec c k) as [->|_];
      [vm_compute in Hw; discriminate Hw|]
  end.

Lemma readNumber_white c r :
  isWhiteSpace c = true -> readNumber (c :: r) = None.
Proof.
  intros Hw. unfold readNumber. not_white 45.
  simpl. rewrite (white_not_digit c Hw). reflexivity.
Qed.

Lemma readValue_white fuel s :
  forallb isWhiteSpace s = true -> readValue fuel s = None.
Proof.
  intros H. destruct fuel as [|fuel]; [reflexivity|].
  simpl. destruct (skipSpace_of_white s H) as [->|(c & r & -> & Hw & _)];
    [reflexivity|].
  not_white 123. not_white 91. not_white 34. not_white 116.
  not_white 102. not_white 110.
  rewrite (readNumber_white c r Hw). reflexivity.
Qed.

(** A blank line is no JSON text: the filter on blank lines only spares
    the parser a [SyntaxError]. *)
Lemma AssistantText_blank Line :
  notBlank Line = false -> AssistantText Line = Throw SyntaxError.
Proof.
  unfold notBlank. intros H. apply negb_false_iff, streq_spec in H.
  apply trim_nil in H.
  unfold AssistantText, JSON_parse. rewrite (readValue_white _ _ H).
  reflexivity.
Qed.

Lemma onLine_blank st Line : notBlank Line = false -> onLine st Line = st.
Proof.
  intros H. rewrite onLine_AssistantText, (AssistantText_blank _ H).
  reflexivity.
Qed.

Lemma fold_onLine_filter lines st :
  fold_left onLine (filter notBlank lines) st = fold_left onLine lines st.
Proof.
  revert st; induction lines as [|l lines IH]; intros st; simpl;
    [reflexivity|].
  destruct (notBlank l) eqn:E; simpl; [apply IH|].
  rewrite (onLine_blank _ _ E). apply IH.
Qed.

Lemma LastTextAfter_blank T Line :
  notBlank Line = false -> LastTextAfter T Line = T.
Proof.
  intros H. rewrite LastTextAfter_AssistantText, (AssistantText_blank _ H).
  reflexivity.
Qed.

Lemma fold_LastTextAfter_filter lines T :
  fold_left LastTextAfter (filter notBlank lines) T
  = fold_left LastTextAfter lines T.
Proof.
  revert T; induction lines as [|l lines IH]; intros T; simpl;
    [reflexivity|].
  destruct (notBlank l) eqn:E; simpl; [apply IH|].
  rewrite (LastTextAfter_blank _ _ E). apply IH.
Qed.

(** ** Documents of lines *)

Lemma split_Document lines :
  Forall (fun l => ~ In LF l) lines ->
  split LF (Document lines) = lines ++ [[]].
Proof.
  unfold split, Document. induction 1 as [|l lines Hl _ IH]; simpl;
    [reflexivity|].
  rewrite <- app_assoc.
  rewrite (split_from_cur LF [] l _ Hl). simpl. rewrite IH. reflexivity.
Qed.

Lemma CompleteLines_Document lines :
  Forall (fun l => ~ In LF l) lines -> CompleteLines (Document lines) = lines.
Proof.
  intros H. unfold CompleteLines. rewrite (split_Document _ H).
  apply removelast_last.
Qed.

Lemma Remainder_Document lines :
  Forall (fun l => ~ In LF l) lines -> Remainder (Document lines) = [].
Proof.
  intros H. unfold Remainder. rewrite (split_Document _ H).
  apply last_last.
Qed.

Lemma onLine_LineBuffer st Line : LineBuffer (onLine st Line) = LineBuffer st.
Proof.
  rewrite !onLine_AssistantText.
  destruct (AssistantText Line) as [[Text|]|]; try reflexivity.
  destruct (length (LastText st) <? length Text)%nat; reflexivity.
Qed.

Lemma fold_onLine_LineBuffer lines st :
  LineBuffer (fold_left onLine lines st) = LineBuffer st.
Proof.
  revert st; induction lines as [|l lines IH]; intros st; simpl;
    [reflexivity|].
  rewrite IH. apply onLine_LineBuffer.
Qed.

(** The decoder on a delivery that decodes to a document of lines. *)
Lemma feed_Document Chunks lines :
  Forall (fun l => ~ In LF l) lines ->
  ChunksText Chunks = Document lines ->
  feed Chunks initial = fold_left onLine lines initial.
Proof.
  intros Hl E. rewrite feed_text by (intros []).
  rewrite onText_spec, E. simpl.
  rewrite (CompleteLines_Document _ Hl), (Remainder_Document _ Hl).
  rewrite fold_onLine_filter.
  rewrite <- (fold_onLine_LineBuffer lines initial) at 1.
  apply withBuffer_same.
Qed.

(** ** Cumulative texts (C1) *)

Lemma no_LF_check (l : jsstring) :
  forallb (fun c => negb (c =? LF)) l = true -> ~ In LF l.
Proof.
  rewrite forallb_forall. intros H Hin. specialize (H _ Hin).
  rewrite N.eqb_refl in H. discriminate.
Qed.

Lemma last_cons {A} (l : list A) (x d : A) : last (x :: l) d = last l x.
Proof.
  revert x d; induction l as [|y l IH]; intros x d; [reflexivity|].
  change (last (x :: y :: l) d) with (last (y :: l) d).
  rewrite (IH y d), (IH y x). reflexivity.
Qed.

Lemma skipn_length_app {A} (a c : list A) : skipn (length a) (a ++ c) = c.
Proof. induction a; simpl; auto. Qed.

(** On an assistant event whose text extends the recorded one, the decoder
    emits what the text adds, if anything, and records the text. *)
Lemma onLine_extends st Line c :
  AssistantText Line = Normal (Some (LastText st ++ c)) ->
  LastText (onLine st Line) = LastText st ++ c /\
  Tokens (onLine st Line) =
  Tokens st ++ match c with [] => [] | _ => [c] end.
Proof.
  intros E. rewrite onLine_AssistantText, E.
  rewrite length_app. destruct c as [|x c].
  - rewrite Nat.add_0_r, Nat.ltb_irrefl, !app_nil_r. auto.
  - destruct (Nat.ltb_spec (length (LastText st))
                (length (LastText st) + length (x :: c))) as [_|H];
      [|simpl in H; lia].
    simpl. unfold slice. rewrite skipn_length_app. auto.
Qed.

Lemma onLine_other st Line :
  (forall T, AssistantText Line <> Normal (Some T)) -> onLine st Line = st.
Proof.
  intros H. rewrite onLine_AssistantText.
  destruct (AssistantText Line) as [[T|]|]; try reflexivity.
  destruct (H T eq_refl).
Qed.

Lemma AssistantTexts_cons l lines :
  AssistantTexts (l :: lines)
  = match AssistantText l with
    | Normal (Some T) => T :: AssistantTexts lines
    | _ => AssistantTexts lines
    end.
Proof.
  unfold AssistantTexts. cbn [flat_map].
  destruct (AssistantText l) as [[T|]|]; reflexivity.
Qed.

(** Over lines whose assistant texts form a chain that starts from the
    recorded text, the decoder emits the increments of the chain; the
    other lines do nothing. *)
Lemma fold_onLine_chain lines :
  forall st,
  match AssistantTexts lines with
  | T :: _ => exists c, T = LastText st ++ c
  | [] => True
  end ->
  PrefixChain (AssistantTexts lines) ->
  LastText (fold_left onLine lines st)
  = last (AssistantTexts lines) (LastText st) /\
  Tokens (fold_left onLine lines st)
  = Tokens st ++ Increments (LastText st) (AssistantTexts lines).
Proof.
  induction lines as [|l lines IH]; intros st Hhd Hch.
  - simpl. rewrite app_nil_r. auto.
  - rewrite AssistantTexts_cons in *. cbn [fold_left].
    destruct (AssistantText l) as [[T|]|] eqn:HT.
    + destruct Hhd as (c & ->).
      destruct (onLine_extends st l c HT) as (EL & ET).
      assert (Hnext : match AssistantTexts lines with
                      | T' :: _ =>
                          exists c', T' = LastText (onLine st l) ++ c'
                      | [] => True
                      end).
      { destruct (AssistantTexts lines) as [|T' texts]; [exact I|].
        destruct Hch as ((c' & _ & ->) & _). rewrite EL. eauto. }
      assert (Hch' : PrefixChain (AssistantTexts lines)).
      { destruct (AssistantTexts lines) as [|T' texts];
          [exact I | apply Hch]. }
      destruct (IH (onLine st l) Hnext Hch') as (IL & IT).
      rewrite IL, IT, ET, EL. split.
      * symmetry. apply last_cons.
      * cbn [Increments]. rewrite skipn_length_app, <- app_assoc.
        destruct c; reflexivity.
    + rewrite onLine_other by (rewrite HT; discriminate). apply IH; assumption.
    + rewrite onLine_other by (rewrite HT; discriminate). apply IH; assumption.
Qed.

(** The increments of a chain of cumulative texts spell the last text. *)
Lemma concat_Increments texts :
  forall prev,
  match texts with
  | T :: _ => exists c, T = prev ++ c
  | [] => True
  end ->
  PrefixChain texts ->
  prev ++ concat (Increments prev texts) = last texts prev.
Proof.
  induction texts as [|T texts IH]; intros prev Hhd Hch.
  - simpl. apply app_nil_r.
  - destruct Hhd as (c & ->).
    assert (E : (prev ++ c) ++ concat (Increments (prev ++ c) texts)
                = last texts (prev ++ c)).
    { apply IH.
      - destruct texts as [|T' texts]; [exact I|].
        destruct Hch as ((c' & _ & ->) & _). eauto.
      - destruct texts as [|T' texts]; [exact I | apply Hch]. }
    cbn [Increments]. rewrite skipn_length_app.
    rewrite last_cons, <- E. destruct c as [|x c].
    + rewrite app_nil_r. reflexivity.
    + simpl. rewrite <- !app_assoc. reflexivity.
Qed.

(** C1. Let the lines of the output carry, in their assistant events, the
    cumulative texts T1 ... Tn, each a strict prefix of the next, with
    lines of other kinds between them or not. In whatever chunks the
    output arrives, the streaming decoder emits the increments of the
    chain, whose concatenation is Tn, and records Tn as its final text. *)
Theorem C1_prefix_chain_increments
  (lines texts : list jsstring) (Chunks : list Utf8.Buffer) :
  Forall (fun l => ~ In LF l) lines ->
  AssistantTexts lines = texts ->
  PrefixChain texts ->
  ChunksText Chunks = Document lines ->
  Tokens (feed Chunks initial) = Increments [] texts /\
  concat (Tokens (feed Chunks initial)) = last texts [] /\
  LastText (feed Chunks initial) = last texts [].
Proof.
  intros Hl <- Hch E.
  rewrite (feed_Document _ _ Hl E).
  assert (Hhd : match AssistantTexts lines with
                | T :: _ => exists c, T = LastText initial ++ c
                | [] => True
                end).
  { destruct (AssistantTexts lines) as [|T texts];
      [exact I | exists T; reflexivity]. }
  destruct (fold_onLine_chain lines initial Hhd Hch) as (EL & ET).
  simpl in EL, ET. rewrite ET, EL. repeat split.
  apply (concat_Increments (AssistantTexts lines) []); [|exact Hch].
  destruct (AssistantTexts lines) as [|T texts];
    [exact I | exists T; reflexivity].
Qed.

(** The scenario of the specification after a line of another kind, the
    last line cut in two chunks: increments [Hel] then [lo], final text
    [Hello]. *)
Lemma C1_prefix_chain_increments_witness :
  let line0 := "{'type':'system','subtype':'init'}" in
  let line1 :=
    "{'type':'assistant','message':{'content':[{'type':'text','text':'Hel'}]}}" in
  let line2 :=
    "{'type':'assistant','message':{'content':[{'type':'text','text':'Hello'}]}}" in
  let Chunks :=
    [bytesq line0 ++ [Byte.x0a] ++ bytesq line1 ++ [Byte.x0a]
     ++ bytesq "{'type':'assis";
     bytesq "tant','message':{'content':[{'type':'text','text':'Hello'}]}}"
       ++ [Byte.x0a]] in
  Tokens (feed Chunks initial) = [js "Hel"; js "lo"] /\
  concat (Tokens (feed Chunks initial)) = js "Hello" /\
  LastText (feed Chunks initial) = js "Hello".
Proof.
  intros line0 line1 line2 Chunks.
  apply (C1_prefix_chain_increments
           [jsq line0; jsq line1; jsq line2] [js "Hel"; js "Hello"] Chunks).
  - repeat constructor; apply no_LF_check; reflexivity.
  - reflexivity.
  - simpl. split; [|exact I]. exists (js "lo"). split; [discriminate|reflexivity].
  - reflexivity.
Defined.

(** ** Texts that are not longer (C3) *)

Lemma onLine_not_longer st Line Text :
  AssistantText Line = Normal (Some Text) ->
  (length Text <= length (LastText st))%nat ->
  onLine st Line = st.
Proof.
  intros E H. rewrite onLine_AssistantText, E.
  destruct (Nat.ltb_spec (length (LastText st)) (length Text));
    [lia | reflexivity].
Qed.

Lemma onLine_grows st Line :
  (length (LastText st) <= length (LastText (onLine st Line)))%nat /\
  exists more, Tokens (onLine st Line) = Tokens st ++ more.
Proof.
  rewrite onLine_AssistantText.
  destruct (AssistantText Line) as [[Text|]|];
    try (split; [lia | exists []; symmetry; apply app_nil_r]).
  destruct (Nat.ltb_spec (length (LastText st)) (length Text)).
  - simpl. split; [lia | eauto].
  - split; [lia | exists []; symmetry; apply app_nil_r].
Qed.

Lemma fold_onLine_grows lines st :
  (length (LastText st) <= length (LastText (fold_left onLine lines st)))%nat
  /\ exists more, Tokens (fold_left onLine lines st) = Tokens st ++ more.
Proof.
  revert st; induction lines as [|l lines IH]; intros st; simpl.
  - split; [lia | exists []; symmetry; apply app_nil_r].
  - destruct (IH (onLine st l)) as (H1 & more & H2).
    destruct (onLine_grows st l) as (H3 & more' & H4).
    split; [lia|]. exists (more' ++ more).
    rewrite H2, H4, app_assoc. reflexivity.
Qed.

Lemma onData_grows Chunk st :
  (length (LastText st) <= length (LastText (onData Chunk st)))%nat /\
  exists more, Tokens (onData Chunk st) = Tokens st ++ more.
Proof.
  unfold onData. rewrite onText_spec. simpl. apply fold_onLine_grows.
Qed.

Lemma feed_grows Chunks st :
  (length (LastText st) <= length (LastText (feed Chunks st)))%nat /\
  exists more, Tokens (feed Chunks st) = Tokens st ++ more.
Proof.
  revert st; induction Chunks as [|c Chunks IH]; intros st.
  - split; [simpl; lia | exists []; symmetry; apply app_nil_r].
  - change (feed (c :: Chunks) st) with (feed Chunks (onData c st)).
    destruct (IH (onData c st)) as (H1 & more & H2).
    destruct (onData_grows c st) as (H3 & more' & H4).
    split; [lia|]. exists (more' ++ more).
    rewrite H2, H4, app_assoc. reflexivity.
Qed.

(** C3. In every state of a decode session, an assistant event whose text
    is not longer than the recorded text changes nothing: no increment is
    emitted and the recorded text stays, whether the event is handed to the
    line callback or arrives as a chunk of its own. Hence over any line
    and over any sequence of chunks the recorded text never gets shorter
    and the emitted increments are only added to. *)
Theorem C3_not_longer_is_ignored :
  (forall st Line Text,
      AssistantText Line = Normal (Some Text) ->
      (length Text <= length (LastText st))%nat ->
      Tokens (onLine st Line) = Tokens st /\
      LastText (onLine st Line) = LastText st) /\
  (forall st Chunk Line Text,
      LineBuffer st = [] ->
      Utf8.toString Chunk = Line ++ [LF] -> ~ In LF Line ->
      AssistantText Line = Normal (Some Text) ->
      (length Text <= length (LastText st))%nat ->
      onData Chunk st = st) /\
  (forall st Line,
      (length (LastText st) <= length (LastText (onLine st Line)))%nat) /\
  (forall st Chunks,
      (length (LastText st) <= length (LastText (feed Chunks st)))%nat /\
      exists more, Tokens (feed Chunks st) = Tokens st ++ more).
Proof.
  split; [|split; [|split]].
  - intros st Line Text HT Hle.
    rewrite (onLine_not_longer _ _ _ HT Hle). split; reflexivity.
  - intros st Chunk Line Text HB EC HL HT Hle.
    unfold onData. rewrite onText_spec, HB, EC. simpl.
    change (Line ++ [LF]) with (Line ++ [LF] ++ []).
    rewrite app_assoc.
    change ((Line ++ [LF]) ++ []) with (Document [Line]).
    assert (HF : Forall (fun l => ~ In LF l) [Line]) by (constructor; auto).
    rewrite (CompleteLines_Document _ HF), (Remainder_Document _ HF).
    rewrite fold_onLine_filter. simpl.
    rewrite (onLine_not_longer _ _ _ HT Hle), <- HB. apply withBuffer_same.
  - intros st Line. apply onLine_grows.
  - intros st Chunks. apply feed_grows.
Qed.

(** After [Hello], an event carrying [Hi] is ignored. *)
Lemma C3_not_longer_is_ignored_witness :
  let st := {| LineBuffer := []; LastText := js "Hello";
               Tokens := [js "Hello"] |} in
  let Line := jsq "{'type':'assistant','message':{'content':'Hi'}}" in
  Tokens (onLine st Line) = [js "Hello"] /\
  LastText (onLine st Line) = js "Hello".
Proof.
  intros st Line.
  apply (proj1 C3_not_longer_is_ignored st Line (js "Hi")).
  - reflexivity.
  - simpl. lia.
Defined.

(** ** The whole-output parse and the streaming decoder (C2) *)

Lemma fold_LastTextAfter lines T :
  fold_left LastTextAfter lines T = last (AssistantTexts lines) T.
Proof.
  revert T; induction lines as [|l lines IH]; intros T; [reflexivity|].
  cbn [fold_left]. rewrite IH, LastTextAfter_AssistantText.
  unfold AssistantTexts.
  cbn [flat_map]. destruct (AssistantText l) as [[Text|]|]; try reflexivity.
  simpl app. symmetry. apply last_cons.
Qed.

(** The whole-output parse returns the text of the last assistant event,
    whatever its length. *)
Lemma TextExtractedFromStreamJSON_last Raw :
  TextExtractedFromStreamJSON Raw = last (AssistantTexts (split LF Raw)) [].
Proof.
  unfold TextExtractedFromStreamJSON.
  rewrite fold_LastTextAfter_filter. apply fold_LastTextAfter.
Qed.

Lemma fold_onLine_increasing lines :
  forall st,
  LengthsIncrease (LastText st) (AssistantTexts lines) ->
  LastText (fold_left onLine lines st)
  = last (AssistantTexts lines) (LastText st).
Proof.
  induction lines as [|l lines IH]; intros st H; [reflexivity|].
  cbn [fold_left]. unfold AssistantTexts in *. cbn [flat_map] in *.
  rewrite onLine_AssistantText. destruct (AssistantText l) as [[Text|]|];
    try (apply IH; exact H).
  simpl app in *. destruct H as (Hlt & H).
  apply Nat.ltb_lt in Hlt. rewrite Hlt, last_cons.
  apply (IH {| LineBuffer := LineBuffer st; LastText := Text;
               Tokens := Tokens st ++ [slice Text (length (LastText st))] |}).
  exact H.
Qed.

Lemma split_complete_remainder text :
  split LF text = CompleteLines text ++ [Remainder text].
Proof.
  unfold CompleteLines, Remainder. symmetry.
  apply removelast_app_last. apply split_from_not_nil.
Qed.

Lemma Remainder_terminated text : NewlineTerminated text -> Remainder text = [].
Proof.
  intros [->|(body & ->)]; [reflexivity|].
  rewrite Remainder_app. unfold Remainder, split.
  pose proof (split_from_cur LF [] (Remainder body) [LF]
                (Remainder_no_LF body)) as E.
  simpl in E. unfold Remainder, split in E. rewrite E. reflexivity.
Qed.

Lemma AssistantTexts_app a b :
  AssistantTexts (a ++ b) = AssistantTexts a ++ AssistantTexts b.
Proof. apply flat_map_app. Qed.

Lemma AssistantTexts_terminated text :
  NewlineTerminated text ->
  AssistantTexts (split LF text) = AssistantTexts (CompleteLines text).
Proof.
  intros H. rewrite split_complete_remainder, (Remainder_terminated _ H).
  rewrite AssistantTexts_app. apply app_nil_r.
Qed.

(** C2, as the code has it. The whole-output parse decodes each line as
    the streaming decoder does, but keeps the text of the latest assistant
    event whatever its length: at every line that is an assistant event
    with a readable content the text kept becomes the text of that line,
    with no comparison of lengths, and every other line leaves it as it
    is. Hence the result for every output, complete or not, is the text
    of its last assistant event. On an output that is empty or ends with
    a newline and in which every assistant text is longer than the one
    before it, the result is the final recorded text of the streaming
    decoder fed the same chunks. *)
Theorem C2_whole_output_parse_keeps_last_text (Chunks : list Utf8.Buffer) :
  (forall T Line,
      LastTextAfter T Line
      = match AssistantText Line with
        | Normal (Some Text) => Text
        | _ => T
        end) /\
  TextExtractedFromStreamJSON (ChunksText Chunks)
  = last (AssistantTexts (split LF (ChunksText Chunks))) [] /\
  (NewlineTerminated (ChunksText Chunks) ->
   LengthsIncrease [] (AssistantTexts (split LF (ChunksText Chunks))) ->
   TextExtractedFromStreamJSON (ChunksText Chunks)
   = LastText (feed Chunks initial)).
Proof.
  split; [exact LastTextAfter_AssistantText|].
  split; [apply TextExtractedFromStreamJSON_last|].
  intros Hnl Hinc.
  rewrite TextExtractedFromStreamJSON_last.
  rewrite feed_text by (intros []). rewrite onText_spec. simpl.
  rewrite fold_onLine_filter.
  rewrite (AssistantTexts_terminated _ Hnl) in *.
  symmetry. apply (fold_onLine_increasing _ initial). exact Hinc.
Qed.

Lemma C2_whole_output_parse_keeps_last_text_witness :
  let Chunks :=
    [bytesq "{'type':'system'}" ++ [Byte.x0a]
     ++ bytesq "{'type':'assistant','message':{'content':'Hi'}}" ++ [Byte.x0a]
     ++ bytesq "{'type':'assist";
     bytesq "ant','message':{'content':[{'type':'text','text':'Hi there'}]}}"
     ++ [Byte.x0a]] in
  TextExtractedFromStreamJSON (ChunksText Chunks) = js "Hi there" /\
  TextExtractedFromStreamJSON (ChunksText Chunks)
  = LastText (feed Chunks initial).
Proof.
  intros Chunks.
  destruct (C2_whole_output_parse_keeps_last_text Chunks) as (_ & Hlast & Hsame).
  split.
  - rewrite Hlast. reflexivity.
  - apply Hsame.
    + right. exists (removelast (ChunksText Chunks)). reflexivity.
    + vm_compute. repeat split; lia.
Defined.

(** C2 as stated fails: after an event carrying [Hello], one carrying [Hi]
    is not ignored by the whole-output parse, which returns [Hi], while
    the streaming decoder keeps [Hello]. *)
Lemma C2_counterexample :
  let Chunk :=
    bytesq "{'type':'assistant','message':{'content':'Hello'}}" ++ [Byte.x0a]
    ++ bytesq "{'type':'assistant','message':{'content':'Hi'}}" ++ [Byte.x0a] in
  TextExtractedFromStreamJSON (Utf8.toString Chunk) = js "Hi" /\
  LastText (feed [Chunk] initial) = js "Hello" /\
  TextExtractedFromStreamJSON (Utf8.toString Chunk)
  <> LastText (feed [Chunk] initial).
Proof.
  intros Chunk. repeat split; try reflexivity.
  vm_compute. discriminate.
Qed.

(** ** A chunk cut inside a character (C4) *)

Lemma decode_lead b cp lower upper :
  Utf8.decode b cp 0 lower upper = Utf8.decode b 0 0 128 191.
Proof. destruct b; reflexivity. Qed.

(** A buffer that ends on a character boundary decodes apart from what
    follows it. *)
Lemma decode_app a b :
  forall cp needed lower upper,
  awaited a needed lower upper = 0 ->
  Utf8.decode (a ++ b) cp needed lower upper
  = Utf8.decode a cp needed lower upper ++ Utf8.decode b 0 0 128 191.
Proof.
  induction a as [|x a IH]; intros cp needed lower upper H.
  - simpl in H. subst needed. apply decode_lead.
  - revert H. cbn [app Utf8.decode awaited]. cbv zeta.
    repeat match goal with
           | |- context [if ?c then _ else _] => destruct c
           end;
      intros H; cbn [app]; rewrite ?(IH _ _ _ _ H), <- ?app_assoc;
      reflexivity.
Qed.

Lemma toString_app_boundary a b :
  endsOnCharacter a = true ->
  Utf8.toString (a ++ b) = Utf8.toString a ++ Utf8.toString b.
Proof.
  unfold endsOnCharacter, Utf8.toString. intros H.
  apply decode_app. apply N.eqb_eq, H.
Qed.

Lemma ChunksText_boundary Chunks :
  forallb endsOnCharacter Chunks = true ->
  ChunksText Chunks = Utf8.toString (concat Chunks).
Proof.
  unfold ChunksText. induction Chunks as [|c Chunks IH]; intros H;
    [reflexivity|].
  simpl in H. apply andb_true_iff in H as [Hc Hs].
  cbn [map concat]. rewrite (toString_app_boundary _ _ Hc), (IH Hs).
  reflexivity.
Qed.

(** An output cut into chunks at character boundaries, inside lines or
    not, decodes as the output in one chunk. *)
Lemma feed_chunks_on_boundaries Chunks :
  forallb endsOnCharacter Chunks = true ->
  feed Chunks initial = feed [concat Chunks] initial.
Proof.
  intros H. apply feed_same_text.
  rewrite (ChunksText_boundary _ H). unfold ChunksText. simpl.
  symmetry. apply app_nil_r.
Qed.

(** C4 at a chunk boundary inside a character. The line carries the text
    [é], two bytes in UTF-8. Delivered whole it gives the increment [é];
    cut between the two bytes, each chunk is decoded on its own, both halves
    become U+FFFD, and the increment and the recorded text are two
    replacement characters. *)
Theorem C4_chunk_cut_inside_character :
  let head := bytesq "{'type':'assistant','message':{'content':'" in
  let tail := bytesq "'}}" ++ [Byte.x0a] in
  let whole := head ++ [Byte.xc3; Byte.xa9] ++ tail in
  let first := head ++ [Byte.xc3] in
  let second := [Byte.xa9] ++ tail in
  first ++ second = whole /\
  Tokens (feed [whole] initial) = [[233]] /\
  LastText (feed [whole] initial) = [233] /\
  Tokens (feed [first; second] initial) = [[65533; 65533]] /\
  LastText (feed [first; second] initial) = [65533; 65533] /\
  feed [first; second] initial <> feed [whole] initial.
Proof.
  intros head tail whole first second.
  repeat split; try reflexivity.
  vm_compute. discriminate.
Qed.

(** ** [JSON.stringify] writes no newline *)

Lemma JSON_induction (P : JSON -> Prop) :
  P JNull ->
  (forall b, P (JBool b)) ->
  (forall x, P (JNum x)) ->
  (forall s, P (JStr s)) ->
  (forall elements, Forall P elements -> P (JArr elements)) ->
  (forall properties,
      Forall (fun kv => P (snd kv)) properties -> P (JObj properties)) ->
  forall v, P v.
Proof.
  intros Hnull Hbool Hnum Hstr Harr Hobj.
  fix IH 1. intros [|b|x|s|elements|properties].
  - exact Hnull.
  - apply Hbool.
  - apply Hnum.
  - apply Hstr.
  - apply Harr. induction elements as [|e elements IHl]; constructor;
      [apply IH | exact IHl].
  - apply Hobj. induction properties as [|[k e] properties IHl]; constructor;
      [apply IH | exact IHl].
Qed.

Lemma NoNewline_app a b : NoNewline a -> NoNewline b -> NoNewline (a ++ b).
Proof. intros Ha Hb. apply Forall_app; auto. Qed.

Lemma NoNewline_check s :
  forallb (fun c => negb (c =? LF)) s = true -> NoNewline s.
Proof.
  intros H. apply Forall_forall. intros c Hc ->.
  exact (no_LF_check _ H Hc).
Qed.

Lemma NoNewline_not_In s : NoNewline s -> ~ In LF s.
Proof.
  intros H Hin. unfold NoNewline in H. rewrite Forall_forall in H.
  exact (H _ Hin eq_refl).
Qed.

Lemma NoNewline_join sep pieces :
  NoNewline sep -> Forall NoNewline pieces -> NoNewline (join sep pieces).
Proof.
  intros Hsep. induction 1 as [|p pieces Hp Hps IH]; [constructor|].
  simpl. destruct pieces as [|q pieces]; [exact Hp|].
  apply NoNewline_app; [exact Hp|]. apply NoNewline_app; assumption.
Qed.

Ltac literal := apply NoNewline_check; reflexivity.

Lemma NoNewline_uint_digits u : NoNewline (uint_digits u).
Proof.
  induction u; simpl; constructor; try exact IHu; unfold LF; lia.
Qed.

Lemma NoNewline_digitsOf p : NoNewline (digitsOf p).
Proof. apply NoNewline_uint_digits. Qed.

Lemma NoNewline_zeros n : NoNewline (zeros n).
Proof.
  apply Forall_forall. intros c Hc. apply repeat_spec in Hc. subst c.
  unfold LF; lia.
Qed.

Lemma NoNewline_firstn_skipn n s :
  NoNewline s -> NoNewline (firstn n s) /\ NoNewline (skipn n s).
Proof.
  intros H. apply Forall_app. rewrite firstn_skipn. exact H.
Qed.

Lemma NoNewline_sign (negative : bool) :
  NoNewline (if negative then js "-" else []).
Proof. destruct negative; literal. Qed.

Ltac no_newline :=
  repeat first
    [ assumption
    | literal
    | apply Forall_nil
    | apply Forall_cons; [unfold LF; lia|]
    | apply NoNewline_zeros
    | apply NoNewline_digitsOf
    | apply NoNewline_sign
    | apply NoNewline_app ].

Lemma NoNewline_NumberToString x : NoNewline (NumberToString x).
Proof.
  destruct x as [|negative s n|negative]; unfold NumberToString.
  - literal.
  - pose proof (NoNewline_digitsOf s) as Hd.
    destruct (NoNewline_firstn_skipn (Z.to_nat n) _ Hd) as (H1 & H2).
    cbv zeta. apply NoNewline_app; [apply NoNewline_sign|].
    repeat match goal with
           | |- NoNewline (if ?b then _ else _) => destruct b
           end; try solve [no_newline].
    destruct (digitsOf s) as [|c [|c' more]]; [constructor | |];
      inversion Hd; subst; constructor; try assumption;
      destruct (n - 1 <? 0)%Z; no_newline.
  - no_newline.
Qed.

Lemma hexDigit_not_LF n : hexDigit n <> LF.
Proof. unfold hexDigit, LF. destruct (n <? 10); lia. Qed.

Lemma NoNewline_UnicodeEscape c : NoNewline (UnicodeEscape c).
Proof.
  unfold UnicodeEscape.
  repeat (constructor; [first [apply hexDigit_not_LF | unfold LF; lia]|]).
  constructor.
Qed.

Lemma NoNewline_QuoteCodeUnit c : NoNewline (QuoteCodeUnit c).
Proof.
  unfold QuoteCodeUnit.
  repeat match goal with
         | |- NoNewline (if ?x =? ?k then _ else _) =>
             destruct (N.eqb_spec x k); [literal|]
         end.
  destruct (c <? 32); [apply NoNewline_UnicodeEscape|].
  constructor; [assumption | constructor].
Qed.

Lemma surrogate_not_LF c :
  isLeadSurrogate c = true \/ isTrailSurrogate c = true -> c <> LF.
Proof.
  unfold isLeadSurrogate, isTrailSurrogate, LF.
  intros [H|H]; apply andb_true_iff in H as [H _]; apply N.leb_le in H; lia.
Qed.

Lemma NoNewline_QuoteBody_bounded n :
  forall s, (length s <= n)%nat -> NoNewline (QuoteBody s).
Proof.
  induction n as [|n IH]; intros [|c s] H; simpl in H; try lia;
    try constructor.
  cbn [QuoteBody].
  destruct (isLeadSurrogate c) eqn:Hlead.
  - destruct s as [|d s]; [apply NoNewline_UnicodeEscape|].
    destruct (isTrailSurrogate d) eqn:Htrail.
    + constructor; [apply surrogate_not_LF; auto|].
      constructor; [apply surrogate_not_LF; auto|].
      apply IH. simpl in H. lia.
    + apply NoNewline_app; [apply NoNewline_UnicodeEscape|].
      apply IH. lia.
  - destruct (isTrailSurrogate c).
    + apply NoNewline_app; [apply NoNewline_UnicodeEscape | apply IH; lia].
    + apply NoNewline_app; [apply NoNewline_QuoteCodeUnit | apply IH; lia].
Qed.

Lemma NoNewline_QuoteJSONString s : NoNewline (QuoteJSONString s).
Proof.
  unfold QuoteJSONString. constructor; [unfold LF; lia|].
  apply NoNewline_app; [|literal].
  apply (NoNewline_QuoteBody_bounded (length s)). lia.
Qed.

(** Whatever the value, its serialization stays on one line. *)
Lemma NoNewline_JSON_stringify v : NoNewline (JSON_stringify v).
Proof.
  induction v as [|b|x|s|elements IH|properties IH] using JSON_induction;
    cbn [JSON_stringify].
  - literal.
  - destruct b; literal.
  - destruct x; try apply NoNewline_NumberToString; literal.
  - apply NoNewline_QuoteJSONString.
  - apply NoNewline_app; [literal|]. apply NoNewline_app; [|literal].
    apply NoNewline_join; [literal|].
    induction IH; constructor; assumption.
  - apply NoNewline_app; [literal|]. apply NoNewline_app; [|literal].
    apply NoNewline_join; [literal|].
    induction IH as [|[k e] properties He _ IHl]; constructor; [|exact IHl].
    apply NoNewline_app; [apply NoNewline_QuoteJSONString|].
    apply NoNewline_app; [literal | exact He].
Qed.

(** ** The NDJSON document (C5, C6, C10) *)

Import Translator.

Lemma join_Document (lines : list jsstring) :
  lines <> [] -> join [LF] lines ++ [LF] = Document lines.
Proof.
  unfold Document. induction lines as [|l lines IH]; [congruence|].
  intros _. destruct lines as [|l' lines];
    [simpl; rewrite app_nil_r; reflexivity|].
  change (join [LF] (l :: l' :: lines))
    with (l ++ [LF] ++ join [LF] (l' :: lines)).
  change (concat (map (fun l => l ++ [LF]) (l :: l' :: lines)))
    with ((l ++ [LF]) ++ concat (map (fun l => l ++ [LF]) (l' :: lines))).
  rewrite <- IH by discriminate.
  rewrite <- !app_assoc. reflexivity.
Qed.

Lemma trim_between a middle b :
  isWhiteSpace a = false -> isWhiteSpace b = false ->
  trim (a :: middle ++ [b]) = a :: middle ++ [b].
Proof.
  intros Ha Hb. unfold trim, trimEnd. cbn [trimStart]. rewrite Ha.
  change (a :: middle ++ [b]) with ((a :: middle) ++ [b]).
  rewrite rev_app_distr. cbn [rev app trimStart]. rewrite Hb.
  change (b :: rev middle ++ [a]) with (rev [b] ++ rev (a :: middle)).
  rewrite <- rev_app_distr. apply rev_involutive.
Qed.

Lemma notBlank_object properties :
  notBlank (JSON_stringify (JObj properties)) = true.
Proof.
  unfold notBlank. cbn [JSON_stringify].
  change (js "{" ++ ?x ++ js "}") with (123 :: x ++ [125]).
  rewrite trim_between by reflexivity. reflexivity.
Qed.

(** The lines of a document built by [join] and a final newline are the
    pieces joined, when each of them is a line that is not blank. *)
Lemma NDJSONLines_join (lines : list jsstring) :
  Forall NoNewline lines ->
  Forall (fun l => notBlank l = true) lines ->
  NDJSONLines (join [LF] lines ++ [LF]) = lines.
Proof.
  intros Hnl Hnb. unfold NDJSONLines.
  destruct lines as [|l lines]; [reflexivity|].
  rewrite join_Document by discriminate.
  rewrite split_Document.
  - rewrite filter_app. change (filter notBlank [[]]) with (@nil jsstring).
    rewrite app_nil_r. apply forallb_filter_id.
    apply forallb_forall. rewrite Forall_forall in Hnb. exact Hnb.
  - revert Hnl. apply Forall_impl. intros a. apply NoNewline_not_In.
Qed.

(** The document holds the events of the messages that are not system
    messages, one per line, in order. *)
Lemma MessagesAsNDJSON_lines Messages :
  NDJSONLines (MessagesAsNDJSON Messages)
  = map (fun Msg => JSON_stringify (AgentEvent Msg))
        (filter (fun Msg => negb (isSystem Msg)) Messages).
Proof.
  unfold MessagesAsNDJSON. rewrite map_map.
  apply NDJSONLines_join.
  - apply Forall_forall. intros l Hl. apply in_map_iff in Hl as (Msg & <- & _).
    apply NoNewline_JSON_stringify.
  - apply Forall_forall. intros l Hl. apply in_map_iff in Hl as (Msg & <- & _).
    apply notBlank_object.
Qed.

Lemma AgentEvent_known Msg :
  (isUser Msg || isAssistant Msg) = true -> AgentEvent Msg = EventOf Msg.
Proof.
  unfold isUser, isAssistant, AgentEvent, EventOf. intros H.
  destruct (streq (role Msg) (js "user")) eqn:Eu.
  - apply streq_spec in Eu. rewrite Eu. destruct (content Msg); reflexivity.
  - simpl in H. apply streq_spec in H. rewrite H.
    destruct (content Msg); reflexivity.
Qed.

Lemma known_not_system Msg :
  hasKnownRole Msg = true ->
  negb (isSystem Msg) = (isUser Msg || isAssistant Msg).
Proof.
  unfold hasKnownRole, isSystem, isUser, isAssistant.
  destruct (streq (role Msg) (js "system")) eqn:Es.
  - apply streq_spec in Es. rewrite Es. reflexivity.
  - simpl. intros ->. reflexivity.
Qed.

(** C5. For every history, the lines of the NDJSON document are the
    events of the messages that are not [system] messages, one line each
    and in the order of the history, and no line stands for a [system]
    message. The event of a [user] or [assistant] message has the role as
    its [type], and [message] carries the role and the content as blocks, a
    string being wrapped as one Text block. So for a history with the
    roles of the data model the lines are exactly these events of its
    [user] and [assistant] messages. For the single user message [Hi] the
    document is the one line of the specification and a newline. *)
Theorem C5_one_line_per_turn (Messages : list Message) :
  NDJSONLines (MessagesAsNDJSON Messages)
  = map (fun Msg => JSON_stringify (AgentEvent Msg))
        (filter (fun Msg => negb (isSystem Msg)) Messages)
  /\ (forall Msg,
         (isUser Msg || isAssistant Msg) = true ->
         AgentEvent Msg = EventOf Msg)
  /\ (Forall (fun Msg => hasKnownRole Msg = true) Messages ->
      NDJSONLines (MessagesAsNDJSON Messages)
      = map (fun Msg => JSON_stringify (EventOf Msg))
            (filter (fun Msg => isUser Msg || isAssistant Msg) Messages))
  /\ MessagesAsNDJSON [{| role := js "user"; content := TextContent (js "Hi") |}]
     = jsq "{'type':'user','message':{'role':'user','content':[{'type':'text','text':'Hi'}]}}"
       ++ [LF].
Proof.
  split; [apply MessagesAsNDJSON_lines|].
  split; [exact AgentEvent_known|].
  split; [|reflexivity].
  intros Hroles. rewrite MessagesAsNDJSON_lines.
  induction Hroles as [|Msg Messages HM _ IH]; [reflexivity|].
  cbn [filter]. rewrite (known_not_system _ HM).
  destruct (isUser Msg || isAssistant Msg) eqn:E; [|exact IH].
  cbn [map]. rewrite IH, (AgentEvent_known _ E). reflexivity.
Qed.

Lemma C5_one_line_per_turn_witness :
  let Messages :=
    [{| role := js "system"; content := TextContent (js "Be brief.") |};
     {| role := js "user"; content := TextContent (js "Hi") |};
     {| role := js "assistant";
        content := BlockContent [JObj [(js "type", JStr (js "text"));
                                       (js "text", JStr (js "Hello"))]] |};
     {| role := js "user"; content := TextContent (js "Bye") |}] in
  NDJSONLines (MessagesAsNDJSON Messages)
  = [jsq "{'type':'user','message':{'role':'user','content':[{'type':'text','text':'Hi'}]}}";
     jsq "{'type':'assistant','message':{'role':'assistant','content':[{'type':'text','text':'Hello'}]}}";
     jsq "{'type':'user','message':{'role':'user','content':[{'type':'text','text':'Bye'}]}}"].
Proof.
  intros Messages.
  apply (proj1 (proj2 (proj2 (C5_one_line_per_turn Messages)))).
  repeat constructor.
Defined.

(** C6. A history of system messages only gives the document of zero
    events: no line but the final newline. *)
Theorem C6_only_system_messages (Messages : list Message) :
  Forall (fun Msg => isSystem Msg = true) Messages ->
  MessagesAsNDJSON Messages = [LF] /\
  NDJSONLines (MessagesAsNDJSON Messages) = [].
Proof.
  intros H.
  assert (E : filter (fun Msg => negb (streq (role Msg) (js "system")))
                Messages = []).
  { induction H as [|Msg Messages HM _ IH]; [reflexivity|].
    cbn [filter]. unfold isSystem in HM. rewrite HM. exact IH. }
  unfold MessagesAsNDJSON. rewrite E. split; reflexivity.
Qed.

Lemma C6_only_system_messages_witness :
  MessagesAsNDJSON
    [{| role := js "system"; content := TextContent (js "Be brief.") |}]
  = [LF].
Proof.
  apply (proj1 (C6_only_system_messages
                  [{| role := js "system";
                      content := TextContent (js "Be brief.") |}]
                  ltac:(repeat constructor))).
Defined.

(** C10. A message whose role is neither [system] nor [user], whatever it
    is, is kept: its event has [type] [assistant], [message.role] is the
    role as given, and its line stands in the document. *)
Theorem C10_other_roles_sent_as_assistant
  (Messages : list Message) (Msg : Message) :
  In Msg Messages ->
  role Msg <> js "system" -> role Msg <> js "user" ->
  AgentEvent Msg
  = JObj [(js "type", JStr (js "assistant"));
          (js "message",
           JObj [(js "role", JStr (role Msg));
                 (js "content", JArr (toBlocks (content Msg)))])]
  /\ In (JSON_stringify (AgentEvent Msg))
        (NDJSONLines (MessagesAsNDJSON Messages)).
Proof.
  intros Hin Hs Hu. apply streq_false in Hs, Hu. split.
  - unfold AgentEvent. rewrite Hu. destruct (content Msg); reflexivity.
  - rewrite MessagesAsNDJSON_lines.
    apply (in_map (fun Msg => JSON_stringify (AgentEvent Msg))).
    apply filter_In. split; [exact Hin|].
    unfold isSystem. rewrite Hs. reflexivity.
Qed.

Lemma C10_other_roles_sent_as_assistant_witness :
  let Msg := {| role := js "tool"; content := TextContent (js "42") |} in
  In (jsq "{'type':'assistant','message':{'role':'tool','content':[{'type':'text','text':'42'}]}}")
     (NDJSONLines (MessagesAsNDJSON
        [{| role := js "user"; content := TextContent (js "Hi") |}; Msg])).
Proof.
  intros Msg.
  apply (proj2 (C10_other_roles_sent_as_assistant
                  [{| role := js "user"; content := TextContent (js "Hi") |};
                   Msg] Msg
                  ltac:(right; left; reflexivity)
                  ltac:(discriminate) ltac:(discriminate))).
Defined.

(** ** The system prompt (C7) *)

Lemma find_first {A} (f : A -> bool) before x after :
  Forall (fun y => f y = false) before -> f x = true ->
  find f (before ++ x :: after) = Some x.
Proof.
  induction 1 as [|y before Hy _ IH]; intros Hx; simpl.
  - rewrite Hx. reflexivity.
  - rewrite Hy. apply IH, Hx.
Qed.

Lemma find_none_iff {A} (f : A -> bool) l :
  find f l = None <-> Forall (fun y => f y = false) l.
Proof.
  induction l as [|y l IH]; simpl.
  - split; [constructor | reflexivity].
  - destruct (f y) eqn:E.
    + split; [discriminate|]. intros H. inversion H; congruence.
    + rewrite IH. split; [constructor; assumption|].
      intros H; inversion H; assumption.
Qed.

Lemma filterM_blocks Blocks :
  forallb isBlock Blocks = true ->
  filterM (fun Block =>
             type <- Get (Some Block) (js "type") ;;
             Normal (isString type (js "text"))) Blocks
  = Normal (filter isTextBlock Blocks).
Proof.
  induction Blocks as [|b Blocks IH]; intros H; [reflexivity|].
  simpl in H. apply andb_true_iff in H as [Hb Hs].
  cbn [filterM filter]. rewrite (IH Hs).
  destruct b; try discriminate Hb. reflexivity.
Qed.

Lemma TextsOfBlocks_filter Blocks :
  TextsOfBlocks (filter isTextBlock Blocks) = TextsOfBlocks Blocks.
Proof.
  unfold TextsOfBlocks.
  induction Blocks as [|b Blocks IH]; [reflexivity|].
  cbn [filter flat_map]. destruct b; try exact IH. cbn [isTextBlock].
  destruct (isString (lookup (js "type") properties) (js "text")) eqn:E;
    [|exact IH].
  cbn [flat_map]. rewrite E, IH. reflexivity.
Qed.

Lemma mapM_text_blocks kept :
  forallb isBlock kept = true -> forallb isTextBlock kept = true ->
  exists texts,
    mapM (fun Block => Get (Some Block) (js "text")) kept = Normal texts /\
    mapM valueToString texts = Normal (TextsOfBlocks kept).
Proof.
  induction kept as [|b kept IH]; intros Hb Ht; [exists []; auto|].
  simpl in Hb, Ht.
  apply andb_true_iff in Hb as [Hb Hbs], Ht as [Ht Hts].
  destruct (IH Hbs Hts) as (texts & E1 & E2).
  destruct b as [| | | | |properties]; try discriminate Hb.
  cbn [isBlock isTextBlock] in Hb, Ht. rewrite Ht in Hb.
  destruct (lookup (js "text") properties) as [[| | |text| |]|] eqn:El;
    try discriminate Hb.
  exists (Some (JStr text) :: texts). split.
  - cbn [mapM]. rewrite E1. cbn [Get bind]. rewrite El. reflexivity.
  - cbn [mapM]. rewrite E2. unfold TextsOfBlocks. cbn [flat_map].
    rewrite Ht, El. reflexivity.
Qed.

Lemma forallb_filter_keeps {A} (f g : A -> bool) l :
  forallb f l = true -> forallb f (filter g l) = true.
Proof.
  rewrite !forallb_forall. intros H x Hx.
  apply filter_In in Hx as [Hx _]. auto.
Qed.

(** C7. The extracted system prompt is absent exactly when no message has
    the role [system]. Otherwise it is read off the first system message:
    a string content verbatim; of a content of blocks, the [text] fields
    of the Text blocks joined by newlines, the other blocks dropped. *)
Theorem C7_system_prompt (Messages : list Message) :
  (extractedSystemPrompt Messages = Normal None
   <-> Forall (fun Msg => isSystem Msg = false) Messages) /\
  (forall before SystemMsg after,
      Messages = before ++ SystemMsg :: after ->
      Forall (fun Msg => isSystem Msg = false) before ->
      isSystem SystemMsg = true ->
      match content SystemMsg with
      | TextContent text =>
          extractedSystemPrompt Messages = Normal (Some text)
      | BlockContent Blocks =>
          forallb isBlock Blocks = true ->
          extractedSystemPrompt Messages
          = Normal (Some (join [LF] (TextsOfBlocks Blocks)))
      end).
Proof.
  split.
  - rewrite <- (find_none_iff isSystem). unfold extractedSystemPrompt.
    change (fun Msg => streq (role Msg) (js "system")) with isSystem.
    destruct (find isSystem Messages) as [SystemMsg|];
      [|split; reflexivity].
    split; [|discriminate].
    destruct (content SystemMsg) as [text|Blocks]; [discriminate|].
    destruct (filterM _ Blocks) as [kept|]; [|discriminate]. cbn [bind].
    destruct (mapM _ kept) as [texts|]; [|discriminate]. cbn [bind].
    destruct (Array_join [LF] texts); discriminate.
  - intros before SystemMsg after -> Hbefore Hsys.
    unfold extractedSystemPrompt.
    change (fun Msg => streq (role Msg) (js "system")) with isSystem.
    rewrite (find_first isSystem _ _ _ Hbefore Hsys).
    destruct (content SystemMsg) as [text|Blocks]; [reflexivity|].
    intros Hblocks. rewrite (filterM_blocks _ Hblocks). cbn [bind].
    destruct (mapM_text_blocks (filter isTextBlock Blocks))
      as (texts & E1 & E2).
    + apply forallb_filter_keeps, Hblocks.
    + apply forallb_filter.
    + rewrite E1. cbn [bind]. unfold Array_join. rewrite E2. cbn [bind].
      rewrite TextsOfBlocks_filter. reflexivity.
Qed.

(** A history whose first system message has a content of blocks: two
    Text blocks around an image. *)
Lemma C7_system_prompt_witness :
  let SystemMsg :=
    {| role := js "system";
       content :=
         BlockContent
           [JObj [(js "type", JStr (js "text")); (js "text", JStr (js "Be"))];
            JObj [(js "type", JStr (js "image"));
                  (js "source", JObj [(js "data", JStr (js "AAAA"))])];
            JObj [(js "type", JStr (js "text"));
                  (js "text", JStr (js "brief"))]] |} in
  let Messages :=
    [{| role := js "user"; content := TextContent (js "Hi") |};
     SystemMsg;
     {| role := js "system"; content := TextContent (js "ignored") |}] in
  extractedSystemPrompt Messages
  = Normal (Some (js "Be" ++ [LF] ++ js "brief")).
Proof.
  intros SystemMsg Messages.
  apply (proj2 (C7_system_prompt Messages)
           [{| role := js "user"; content := TextContent (js "Hi") |}]
           SystemMsg
           [{| role := js "system"; content := TextContent (js "ignored") |}]).
  - reflexivity.
  - repeat constructor.
  - reflexivity.
  - reflexivity.
Defined.

(** ** The process session (C8, C9) *)

Import Session.

Lemma ChunksText_app a b : ChunksText (a ++ b) = ChunksText a ++ ChunksText b.
Proof. unfold ChunksText. rewrite map_app. apply concat_app. Qed.

(** Whatever the events, the non-streaming state has collected the text of
    the chunks of each stream, and keeps the session identifier. *)
Lemma NonStreaming_streams events :
  forall st,
  NonStreaming.StdOut (NonStreaming.run events st)
  = NonStreaming.StdOut st ++ ChunksText (StdoutChunks events) /\
  NonStreaming.StdErr (NonStreaming.run events st)
  = NonStreaming.StdErr st ++ ChunksText (StderrChunks events) /\
  NonStreaming.UsedSessionId (NonStreaming.run events st)
  = NonStreaming.UsedSessionId st.
Proof.
  induction events as [|ev events IH]; intros st.
  - unfold ChunksText. simpl. rewrite !app_nil_r. auto.
  - change (NonStreaming.run (ev :: events) st)
      with (NonStreaming.run events (NonStreaming.handle st ev)).
    destruct (IH (NonStreaming.handle st ev)) as (E1 & E2 & E3).
    rewrite E1, E2, E3.
    destruct ev as [Chunk|Chunk| |Code|Signal]; simpl;
      try (unfold NonStreaming.onTimeout;
           destruct (NonStreaming.Timer st); simpl);
      rewrite ?ChunksText_app; unfold ChunksText; simpl;
      rewrite ?app_nil_r, <- ?app_assoc; auto.
Qed.

Lemma Streaming_streams events :
  forall st,
  Streaming.decoder (Streaming.run events st)
  = feed (StdoutChunks events) (Streaming.decoder st) /\
  Streaming.StdErr (Streaming.run events st)
  = Streaming.StdErr st ++ ChunksText (StderrChunks events) /\
  Streaming.UsedSessionId (Streaming.run events st)
  = Streaming.UsedSessionId st.
Proof.
  induction events as [|ev events IH]; intros st.
  - unfold ChunksText. simpl. rewrite !app_nil_r. auto.
  - change (Streaming.run (ev :: events) st)
      with (Streaming.run events (Streaming.handle st ev)).
    destruct (IH (Streaming.handle st ev)) as (E1 & E2 & E3).
    rewrite E1, E2, E3.
    destruct ev as [Chunk|Chunk| |Code|Signal]; simpl;
      try (unfold Streaming.onTimeout;
           destruct (Streaming.Timer st); simpl);
      rewrite ?ChunksText_app; unfold ChunksText; simpl;
      rewrite ?app_nil_r, <- ?app_assoc; auto.
Qed.

(** Data events settle nothing, send no signal and leave the timer. *)
Lemma NonStreaming_data events :
  forallb isData events = true ->
  forall st,
  NonStreaming.promise (NonStreaming.run events st) = NonStreaming.promise st
  /\ NonStreaming.Timer (NonStreaming.run events st) = NonStreaming.Timer st
  /\ NonStreaming.Process (NonStreaming.run events st)
     = NonStreaming.Process st.
Proof.
  induction events as [|ev events IH]; intros H st; [auto|].
  simpl in H. apply andb_true_iff in H as [Hev H].
  change (NonStreaming.run (ev :: events) st)
    with (NonStreaming.run events (NonStreaming.handle st ev)).
  destruct (IH H (NonStreaming.handle st ev)) as (E1 & E2 & E3).
  rewrite E1, E2, E3. destruct ev; try discriminate Hev; auto.
Qed.

Lemma Streaming_data events :
  forallb isData events = true ->
  forall st,
  Streaming.promise (Streaming.run events st) = Streaming.promise st
  /\ Streaming.Timer (Streaming.run events st) = Streaming.Timer st
  /\ Streaming.Process (Streaming.run events st) = Streaming.Process st.
Proof.
  induction events as [|ev events IH]; intros H st; [auto|].
  simpl in H. apply andb_true_iff in H as [Hev H].
  change (Streaming.run (ev :: events) st)
    with (Streaming.run events (Streaming.handle st ev)).
  destruct (IH H (Streaming.handle st ev)) as (E1 & E2 & E3).
  rewrite E1, E2, E3. destruct ev; try discriminate Hev; auto.
Qed.

Lemma NonStreaming_run_app a b st :
  NonStreaming.run (a ++ b) st = NonStreaming.run b (NonStreaming.run a st).
Proof. apply fold_left_app. Qed.

Lemma Streaming_run_app a b st :
  Streaming.run (a ++ b) st = Streaming.run b (Streaming.run a st).
Proof. apply fold_left_app. Qed.

(** A settled promise stays as it is. *)
Lemma settled_resolve {A} (value : A) (p : Promise A) :
  p <> Pending -> resolve value p = p.
Proof. destruct p; [congruence | reflexivity | reflexivity]. Qed.

Lemma settled_reject {A} (reason : Error) (p : Promise A) :
  p <> Pending -> reject reason p = p.
Proof. destruct p; [congruence | reflexivity | reflexivity]. Qed.

Lemma NonStreaming_settled events :
  forall st,
  NonStreaming.promise st <> Pending ->
  NonStreaming.promise (NonStreaming.run events st) = NonStreaming.promise st.
Proof.
  induction events as [|ev events IH]; intros st H; [reflexivity|].
  change (NonStreaming.run (ev :: events) st)
    with (NonStreaming.run events (NonStreaming.handle st ev)).
  assert (E : NonStreaming.promise (NonStreaming.handle st ev)
              = NonStreaming.promise st).
  { destruct ev as [Chunk|Chunk| |Code|Signal]; simpl; try reflexivity.
    - unfold NonStreaming.onTimeout.
      destruct (NonStreaming.Timer st); [|reflexivity].
      apply settled_reject, H.
    - destruct (isNonZero Code);
        [apply settled_reject, H | apply settled_resolve, H].
    - apply settled_reject, H. }
  rewrite IH by (rewrite E; exact H). exact E.
Qed.

Lemma Streaming_settled events :
  forall st,
  Streaming.promise st <> Pending ->
  Streaming.promise (Streaming.run events st) = Streaming.promise st.
Proof.
  induction events as [|ev events IH]; intros st H; [reflexivity|].
  change (Streaming.run (ev :: events) st)
    with (Streaming.run events (Streaming.handle st ev)).
  assert (E : Streaming.promise (Streaming.handle st ev)
              = Streaming.promise st).
  { destruct ev as [Chunk|Chunk| |Code|Signal]; simpl; try reflexivity.
    - unfold Streaming.onTimeout.
      destruct (Streaming.Timer st); [|reflexivity].
      apply settled_reject, H.
    - destruct (isNonZero Code);
        [apply settled_reject, H | apply settled_resolve, H].
    - apply settled_reject, H. }
  rewrite IH by (rewrite E; exact H). exact E.
Qed.

Lemma Contains_intro before a after : Contains (before ++ a ++ after) a.
Proof. exists before, after. reflexivity. Qed.

(** C8, as the code has it. In every run in which the process closes while
    the operation is still pending, that is after output and diagnostic
    data only, neither the timer nor a spawn error having settled it: when
    the exit code is not zero the operation fails, in both variants, with
    the error whose message carries the exit code and the trimmed
    diagnostic text; when it is zero the non-streaming variant succeeds
    with the text parsed from the whole output and the resolved session
    identifier, and the streaming variant, whose decoder has been fed every
    output chunk, succeeds with the resolved session identifier. Nothing
    that follows changes the outcome. *)
Theorem C8_close_settles_pending_session
  (randomUUID NDJSON : jsstring) (SystemPrompt SessionId : option jsstring)
  (events later : list ProcessEvent) (Code : option Z) :
  forallb isData events = true ->
  let stdout := ChunksText (StdoutChunks events) in
  let stderr := ChunksText (StderrChunks events) in
  let id := match SessionId with Some given => given | None => randomUUID end in
  let failure := ExitError Code stderr in
  let n0 := NonStreaming.ResponseFromClaudeCode
              randomUUID NDJSON SystemPrompt SessionId in
  let s0 := Streaming.ResponseFromClaudeCodeStreaming
              randomUUID NDJSON SystemPrompt SessionId in
  NonStreaming.promise (NonStreaming.run (events ++ close Code :: later) n0)
  = (if isNonZero Code then Rejected failure
     else Fulfilled {| NonStreaming.Text := TextExtractedFromStreamJSON stdout;
                       NonStreaming.SessionId := id |}) /\
  Streaming.promise (Streaming.run (events ++ close Code :: later) s0)
  = (if isNonZero Code then Rejected failure else Fulfilled id) /\
  Streaming.decoder (Streaming.run events s0)
  = feed (StdoutChunks events) initial /\
  message failure
  = js "claude exited with code " ++ CodeToString Code ++ js ": " ++ trim stderr
  /\ Contains (message failure) (CodeToString Code)
  /\ Contains (message failure) (trim stderr).
Proof.
  intros Hdata stdout stderr id failure n0 s0.
  destruct (NonStreaming_data _ Hdata n0) as (Np & _ & _).
  destruct (NonStreaming_streams events n0) as (No & Ne & Ni).
  destruct (Streaming_data _ Hdata s0) as (Sp & _ & _).
  destruct (Streaming_streams events s0) as (Sd & Se & Si).
  assert (En : NonStreaming.promise
                 (NonStreaming.handle (NonStreaming.run events n0)
                    (close Code))
               = if isNonZero Code then Rejected failure
                 else Fulfilled
                        {| NonStreaming.Text :=
                             TextExtractedFromStreamJSON stdout;
                           NonStreaming.SessionId := id |}).
  { simpl. rewrite Np, No, Ne, Ni. destruct (isNonZero Code); reflexivity. }
  assert (Es : Streaming.promise
                 (Streaming.handle (Streaming.run events s0) (close Code))
               = if isNonZero Code then Rejected failure else Fulfilled id).
  { simpl. rewrite Sp, Se, Si. destruct (isNonZero Code); reflexivity. }
  rewrite NonStreaming_run_app, Streaming_run_app.
  change (NonStreaming.run (close Code :: later) (NonStreaming.run events n0))
    with (NonStreaming.run later
            (NonStreaming.handle (NonStreaming.run events n0) (close Code))).
  change (Streaming.run (close Code :: later) (Streaming.run events s0))
    with (Streaming.run later
            (Streaming.handle (Streaming.run events s0) (close Code))).
  rewrite NonStreaming_settled
    by (rewrite En; destruct (isNonZero Code); discriminate).
  rewrite Streaming_settled
    by (rewrite Es; destruct (isNonZero Code); discriminate).
  split; [exact En|]. split; [exact Es|]. split; [exact Sd|].
  split; [reflexivity|]. split.
  - apply (Contains_intro (js "claude exited with code ")
             (CodeToString Code) (js ": " ++ trim stderr)).
  - unfold failure, ExitError. cbn [message].
    exists (js "claude exited with code " ++ CodeToString Code ++ js ": "), [].
    rewrite app_nil_r, <- !app_assoc. reflexivity.
Qed.

(** The scenario of the specification: exit code 1 and the diagnostic text
    [boom]. *)
Lemma C8_close_settles_pending_session_witness :
  NonStreaming.promise
    (NonStreaming.run
       [stdout_data (bytesq "{'type':'system'}" ++ [Byte.x0a]);
        stderr_data (Utf8.bytes "boom"); close (Some 1%Z)]
       (NonStreaming.ResponseFromClaudeCode (js "generated-uuid")
          (js "{}") None None))
  = Rejected {| message := js "claude exited with code 1: boom" |}.
Proof.
  apply (proj1 (C8_close_settles_pending_session
                  (js "generated-uuid") (js "{}") None None
                  [stdout_data (bytesq "{'type':'system'}" ++ [Byte.x0a]);
                   stderr_data (Utf8.bytes "boom")]
                  [] (Some 1%Z) eq_refl)).
Defined.

(** C8 as stated fails on a run in which the timer fires first, as for a
    process that closes after 130 s: the process then closes with status
    zero, or with status 7 and the diagnostic text [boom], and the
    operation has failed with the timeout error, which carries neither.
    It fails likewise when the process could not be started: the close
    that follows the spawn error, with its status, leaves the operation
    failed with that error. *)
Lemma C8_counterexample :
  let start :=
    NonStreaming.ResponseFromClaudeCode (js "generated-uuid") (js "{}")
      None None in
  NonStreaming.promise
    (NonStreaming.run
       (schedule [(1000, stderr_data (Utf8.bytes "boom"));
                  (130000, close (Some 0%Z))])
       start)
  = Rejected TimeoutError /\
  NonStreaming.promise
    (NonStreaming.run
       [stderr_data (Utf8.bytes "boom"); timer_expired; close (Some 0%Z)]
       start)
  = Rejected TimeoutError /\
  NonStreaming.promise
    (NonStreaming.run
       [stderr_data (Utf8.bytes "boom"); timer_expired; close (Some 7%Z)]
       start)
  = Rejected TimeoutError /\
  NonStreaming.promise
    (NonStreaming.run
       [error {| message := js "spawn claude ENOENT" |}; close (Some (-2)%Z)]
       start)
  = Rejected {| message := js "spawn claude ENOENT" |} /\
  message TimeoutError = js "claude CLI timed out after 120 s" /\
  ~ Contains (message TimeoutError) (js "boom") /\
  ~ Contains (message TimeoutError) (js "7").
Proof.
  intros start.
  split; [reflexivity|]. split; [reflexivity|]. split; [reflexivity|].
  split; [reflexivity|]. split; [reflexivity|]. split.
  - intros (before & after & E).
    assert (H : In 98 (message TimeoutError)).
    { rewrite E. apply in_or_app. right. left. reflexivity. }
    vm_compute in H. intuition discriminate.
  - intros (before & after & E).
    assert (H : In 55 (message TimeoutError)).
    { rewrite E. apply in_or_app. right. left. reflexivity. }
    vm_compute in H. intuition discriminate.
Qed.

(** Once no timer is pending, no signal is sent any more. *)
Lemma NonStreaming_no_timer events :
  forall st,
  NonStreaming.Timer st = None ->
  NonStreaming.Process (NonStreaming.run events st) = NonStreaming.Process st.
Proof.
  induction events as [|ev events IH]; intros st H; [reflexivity|].
  change (NonStreaming.run (ev :: events) st)
    with (NonStreaming.run events (NonStreaming.handle st ev)).
  destruct ev; simpl; try (rewrite IH by exact H; reflexivity).
  - unfold NonStreaming.onTimeout. rewrite H. apply IH, H.
  - rewrite IH by reflexivity. reflexivity.
  - rewrite IH by reflexivity. reflexivity.
Qed.

Lemma Streaming_no_timer events :
  forall st,
  Streaming.Timer st = None ->
  Streaming.Process (Streaming.run events st) = Streaming.Process st.
Proof.
  induction events as [|ev events IH]; intros st H; [reflexivity|].
  change (Streaming.run (ev :: events) st)
    with (Streaming.run events (Streaming.handle st ev)).
  destruct ev; simpl; try (rewrite IH by exact H; reflexivity).
  - unfold Streaming.onTimeout. rewrite H. apply IH, H.
  - rewrite IH by reflexivity. reflexivity.
  - rewrite IH by reflexivity. reflexivity.
Qed.

(** The callback of the timer, run while only data has arrived: SIGTERM is
    sent, the promise is rejected with the timeout error and stays so, no
    other signal follows, and the increments emitted so far are kept and
    only added to. *)
Lemma timer_expiry_effect
  (randomUUID NDJSON : jsstring) (SystemPrompt SessionId : option jsstring)
  (events later : list ProcessEvent) :
  forallb isData events = true ->
  let n0 := NonStreaming.ResponseFromClaudeCode
              randomUUID NDJSON SystemPrompt SessionId in
  let s0 := Streaming.ResponseFromClaudeCodeStreaming
              randomUUID NDJSON SystemPrompt SessionId in
  let n2 := NonStreaming.run (events ++ timer_expired :: later) n0 in
  let s2 := Streaming.run (events ++ timer_expired :: later) s0 in
  signals (NonStreaming.Process n2) = [js "SIGTERM"] /\
  NonStreaming.promise n2 = Rejected TimeoutError /\
  signals (Streaming.Process s2) = [js "SIGTERM"] /\
  Streaming.promise s2 = Rejected TimeoutError /\
  exists more,
    Tokens (Streaming.decoder s2)
    = Tokens (Streaming.decoder (Streaming.run events s0)) ++ more.
Proof.
  intros Hdata n0 s0 n2 s2.
  destruct (NonStreaming_data _ Hdata n0) as (Np & Nt & Nq).
  destruct (Streaming_data _ Hdata s0) as (Sp & St & Sq).
  set (n1 := NonStreaming.handle (NonStreaming.run events n0) timer_expired).
  set (s1 := Streaming.handle (Streaming.run events s0) timer_expired).
  assert (En : NonStreaming.promise n1 = Rejected TimeoutError
               /\ signals (NonStreaming.Process n1) = [js "SIGTERM"]
               /\ NonStreaming.Timer n1 = None).
  { unfold n1. simpl. unfold NonStreaming.onTimeout. rewrite Nt. simpl.
    rewrite Np, Nq. auto. }
  assert (Es : Streaming.promise s1 = Rejected TimeoutError
               /\ signals (Streaming.Process s1) = [js "SIGTERM"]
               /\ Streaming.Timer s1 = None
               /\ Streaming.decoder s1
                  = Streaming.decoder (Streaming.run events s0)).
  { unfold s1. simpl. unfold Streaming.onTimeout. rewrite St. simpl.
    rewrite Sp, Sq. auto. }
  destruct En as (En1 & En2 & En3). destruct Es as (Es1 & Es2 & Es3 & Es4).
  assert (E2n : n2 = NonStreaming.run later n1).
  { unfold n2. rewrite NonStreaming_run_app. reflexivity. }
  assert (E2s : s2 = Streaming.run later s1).
  { unfold s2. rewrite Streaming_run_app. reflexivity. }
  rewrite E2n, E2s.
  split; [rewrite (NonStreaming_no_timer _ _ En3); exact En2|].
  split; [rewrite NonStreaming_settled by (rewrite En1; discriminate);
          exact En1|].
  split; [rewrite (Streaming_no_timer _ _ Es3); exact Es2|].
  split; [rewrite Streaming_settled by (rewrite Es1; discriminate);
          exact Es1|].
  destruct (Streaming_streams later s1) as (E & _ & _).
  rewrite E, Es4. apply feed_grows.
Qed.

Lemma Before_data delay trace :
  NotClosedWithin delay trace -> forallb isData (Before delay trace) = true.
Proof.
  unfold NotClosedWithin, Before. intros H.
  apply forallb_forall. intros ev Hev.
  apply in_map_iff in Hev as ((t & ev') & <- & Hin).
  apply filter_In in Hin as (Hin & Ht). simpl in *.
  apply (H t ev' Hin). apply N.ltb_lt, Ht.
Qed.

(** C9. The timer is set at the start with a delay of 120 000 ms. When the
    process has not closed within that time, data being all that arrived,
    then by the end of the run, whatever arrives later, the session has
    sent SIGTERM to the process, once, and the operation has failed with
    the timeout error, in both variants. In the streaming variant the
    increments emitted before the expiry are still there, before any
    later one. *)
Theorem C9_timeout_after_120_seconds
  (randomUUID NDJSON : jsstring) (SystemPrompt SessionId : option jsstring)
  (trace : list (N * ProcessEvent)) :
  NotClosedWithin 120000 trace ->
  let n0 := NonStreaming.ResponseFromClaudeCode
              randomUUID NDJSON SystemPrompt SessionId in
  let s0 := Streaming.ResponseFromClaudeCodeStreaming
              randomUUID NDJSON SystemPrompt SessionId in
  let n := NonStreaming.run (schedule trace) n0 in
  let s := Streaming.run (schedule trace) s0 in
  NonStreaming.Timer n0 = Some 120000 /\
  Streaming.Timer s0 = Some 120000 /\
  signals (NonStreaming.Process n) = [js "SIGTERM"] /\
  NonStreaming.promise n = Rejected TimeoutError /\
  signals (Streaming.Process s) = [js "SIGTERM"] /\
  Streaming.promise s = Rejected TimeoutError /\
  exists more,
    Tokens (Streaming.decoder s)
    = Tokens (Streaming.decoder (Streaming.run (Before 120000 trace) s0))
      ++ more.
Proof.
  intros Hrun n0 s0 n s.
  split; [reflexivity|]. split; [reflexivity|].
  apply (timer_expiry_effect randomUUID NDJSON SystemPrompt SessionId
           (Before 120000 trace)
           (map snd (filter (fun te => negb (fst te <? TimerDelay)) trace))).
  apply Before_data, Hrun.
Qed.

(** The process has emitted [Hel] after 3 s, emits [Hello] after 125 s and
    is ended by the signal: the client has received [Hel] and the
    operation has failed with the timeout error. *)
Lemma C9_timeout_after_120_seconds_witness :
  let line T :=
    bytesq "{'type':'assistant','message':{'content':'" ++ Utf8.bytes T
    ++ bytesq "'}}" ++ [Byte.x0a] in
  let trace :=
    [(3000, stdout_data (line "Hel"));
     (125000, stdout_data (line "Hello"));
     (125010, close None)] in
  let s :=
    Streaming.run (schedule trace)
      (Streaming.ResponseFromClaudeCodeStreaming (js "generated-uuid")
         (js "{}") None None) in
  signals (Streaming.Process s) = [js "SIGTERM"] /\
  Streaming.promise s = Rejected TimeoutError /\
  exists more, Tokens (Streaming.decoder s) = [js "Hel"] ++ more.
Proof.
  intros line trace s.
  assert (Hrun : NotClosedWithin 120000 trace).
  { intros t ev [H|[H|[H|[]]]] Ht; inversion H; subst; try reflexivity;
      vm_compute in Ht; discriminate Ht. }
  destruct (C9_timeout_after_120_seconds (js "generated-uuid") (js "{}")
              None None trace Hrun)
    as (_ & _ & _ & _ & H1 & H2 & H3).
  split; [exact H1|]. split; [exact H2 | exact H3].
Defined.

(* ====================================================================== *)
(** * Further properties of the decoders *)
(* ====================================================================== *)

Import SpecMore.

Lemma AssistantTexts_other Line :
  (forall T, AssistantText Line <> Normal (Some T)) ->
  AssistantTexts [Line] = [].
Proof.
  intros H. rewrite AssistantTexts_cons.
  destruct (AssistantText Line) as [[T|]|]; try reflexivity.
  destruct (H T eq_refl).
Qed.

Lemma AssistantTexts_Document lines :
  Forall (fun l => ~ In LF l) lines ->
  AssistantTexts (split LF (Document lines)) = AssistantTexts lines.
Proof.
  intros H. rewrite (split_Document _ H), AssistantTexts_app.
  apply app_nil_r.
Qed.

(** X1. A line of the output that is no assistant event with a content (a
    line that is not JSON, JSON of another type, an event whose content
    cannot be read) is skipped by both decoders and does not disturb the
    lines around it: the output decodes as it does without that line. *)
Theorem X1_other_lines_are_skipped
  (before after : list jsstring) (Line : jsstring)
  (Chunks Chunks' : list Utf8.Buffer) :
  (forall T, AssistantText Line <> Normal (Some T)) ->
  Forall (fun l => ~ In LF l) (before ++ Line :: after) ->
  ChunksText Chunks = Document (before ++ Line :: after) ->
  ChunksText Chunks' = Document (before ++ after) ->
  feed Chunks initial = feed Chunks' initial /\
  TextExtractedFromStreamJSON (ChunksText Chunks)
  = TextExtractedFromStreamJSON (ChunksText Chunks').
Proof.
  intros Hother Hl E E'.
  assert (Hl' : Forall (fun l => ~ In LF l) (before ++ after)).
  { apply Forall_app in Hl as (Hb & Ha). apply Forall_app. split; [exact Hb|].
    inversion Ha; assumption. }
  split.
  - rewrite (feed_Document _ _ Hl E), (feed_Document _ _ Hl' E').
    rewrite !fold_left_app. cbn [fold_left].
    rewrite (onLine_other _ _ Hother). reflexivity.
  - rewrite !TextExtractedFromStreamJSON_last, E, E'.
    rewrite (AssistantTexts_Document _ Hl), (AssistantTexts_Document _ Hl').
    rewrite !AssistantTexts_app.
    change (Line :: after) with ([Line] ++ after).
    rewrite AssistantTexts_app, (AssistantTexts_other _ Hother).
    reflexivity.
Qed.

Lemma X1_other_lines_are_skipped_witness :
  let first := "{'type':'assistant','message':{'content':'Hel'}}" in
  let second := "{'type':'assistant','message':{'content':'Hello'}}" in
  let Chunks :=
    [bytesq first ++ [Byte.x0a] ++ Utf8.bytes "Warning: not JSON {"
     ++ [Byte.x0a] ++ bytesq second ++ [Byte.x0a]] in
  let Chunks' := [bytesq first ++ [Byte.x0a] ++ bytesq second ++ [Byte.x0a]] in
  feed Chunks initial = feed Chunks' initial /\
  TextExtractedFromStreamJSON (ChunksText Chunks)
  = TextExtractedFromStreamJSON (ChunksText Chunks').
Proof.
  intros first second Chunks Chunks'.
  apply (X1_other_lines_are_skipped
           [jsq first] [jsq second] (js "Warning: not JSON {")).
  - intros T H. vm_compute in H. discriminate H.
  - repeat constructor; apply no_LF_check; reflexivity.
  - reflexivity.
  - reflexivity.
Defined.

Lemma TokensMatch_onLine st Line :
  TokensMatch st -> TokensMatch (onLine st Line).
Proof.
  intros (Hlen & Hne & Hlast). rewrite onLine_AssistantText.
  destruct (AssistantText Line) as [[Text|]|];
    try (repeat split; assumption).
  destruct (Nat.ltb_spec (length (LastText st)) (length Text)) as [Hlt|_];
    [|repeat split; assumption].
  unfold TokensMatch. cbn [Tokens LastText]. unfold slice. split; [|split].
  - rewrite concat_app, length_app, Hlen. cbn [concat].
    rewrite app_nil_r, length_skipn. lia.
  - apply Forall_app. split; [exact Hne|].
    constructor; [|constructor]. intros E.
    apply (f_equal (@List.length _)) in E. rewrite length_skipn in E.
    simpl in E. lia.
  - intros earlier token E. apply app_inj_tail in E as (_ & <-).
    exists (firstn (length (LastText st)) Text).
    symmetry. apply firstn_skipn.
Qed.

Lemma TokensMatch_fold lines :
  forall st, TokensMatch st -> TokensMatch (fold_left onLine lines st).
Proof.
  induction lines as [|l lines IH]; intros st H; [exact H|].
  apply IH, TokensMatch_onLine, H.
Qed.

Lemma TokensMatch_feed Chunks :
  forall st, TokensMatch st -> TokensMatch (feed Chunks st).
Proof.
  induction Chunks as [|c Chunks IH]; intros st H; [exact H|].
  apply IH. unfold onData. rewrite onText_spec.
  assert (H' : TokensMatch
                 (fold_left onLine
                    (filter notBlank
                       (CompleteLines (LineBuffer st ++ Utf8.toString c))) st))
    by (apply TokensMatch_fold, H).
  exact H'.
Qed.

(** X2. Whatever the chunks, the increments the streaming decoder has
    emitted add up to the length of the text it has recorded, none of them
    is empty, the recorded text ends with the last of them, and the
    carry-over buffer holds no newline. *)
Theorem X2_increments_match_recorded_text (Chunks : list Utf8.Buffer) :
  TokensMatch (feed Chunks initial) /\
  ~ In LF (LineBuffer (feed Chunks initial)).
Proof.
  split.
  - apply TokensMatch_feed. repeat split; try constructor.
    intros [|x earlier] token E; discriminate E.
  - destruct Chunks as [|c Chunks] using rev_ind; [intros []|].
    unfold feed. rewrite fold_left_app. cbn [fold_left].
    apply onText_no_LF.
Qed.

Lemma split_no_LF text : ~ In LF text -> split LF text = [text].
Proof.
  intros H. pose proof (split_from_cur LF [] text [] H) as E.
  rewrite app_nil_r in E. exact E.
Qed.

Lemma CompleteLines_Document_tail lines tail :
  Forall (fun l => ~ In LF l) lines -> ~ In LF tail ->
  CompleteLines (Document lines ++ tail) = lines /\
  Remainder (Document lines ++ tail) = tail.
Proof.
  intros Hl Ht.
  rewrite CompleteLines_app, Remainder_app.
  rewrite (CompleteLines_Document _ Hl), (Remainder_Document _ Hl).
  cbn [app]. unfold CompleteLines, Remainder.
  rewrite (split_no_LF _ Ht). cbn. rewrite app_nil_r. auto.
Qed.

(** X3. What follows the last newline of the output is never decoded by
    the streaming decoder: it stays in the carry-over buffer, even when the
    process has ended, and the increments and the recorded text are those
    of the lines before it. The whole-output parse reads it as a line: when
    it is an assistant event, its text is the result. *)
Theorem X3_unterminated_last_line
  (lines : list jsstring) (tail : jsstring)
  (Chunks Chunks' : list Utf8.Buffer) :
  Forall (fun l => ~ In LF l) lines -> ~ In LF tail ->
  ChunksText Chunks = Document lines ++ tail ->
  ChunksText Chunks' = Document lines ->
  LineBuffer (feed Chunks initial) = tail /\
  Tokens (feed Chunks initial) = Tokens (feed Chunks' initial) /\
  LastText (feed Chunks initial) = LastText (feed Chunks' initial) /\
  (forall T,
      AssistantText tail = Normal (Some T) ->
      TextExtractedFromStreamJSON (ChunksText Chunks) = T).
Proof.
  intros Hl Ht E E'.
  destruct (CompleteLines_Document_tail _ _ Hl Ht) as (Ec & Er).
  rewrite (feed_Document _ _ Hl E').
  rewrite feed_text by (intros []). rewrite onText_spec, E.
  cbn [LineBuffer initial app]. rewrite Ec, Er, fold_onLine_filter.
  split; [reflexivity|]. split; [reflexivity|]. split; [reflexivity|].
  intros T HT. rewrite TextExtractedFromStreamJSON_last.
  rewrite split_complete_remainder, Ec, Er, AssistantTexts_app.
  rewrite (AssistantTexts_cons tail []), HT.
  apply last_last.
Qed.

(** The final event arrives without a newline: the streaming decoder has
    emitted [Hel] only, the whole-output parse returns [Hello]. *)
Lemma X3_unterminated_last_line_witness :
  let line := "{'type':'assistant','message':{'content':'Hel'}}" in
  let tail := "{'type':'assistant','message':{'content':'Hello'}}" in
  let Chunks := [bytesq line ++ [Byte.x0a] ++ bytesq tail] in
  Tokens (feed Chunks initial) = [js "Hel"] /\
  LastText (feed Chunks initial) = js "Hel" /\
  TextExtractedFromStreamJSON (ChunksText Chunks) = js "Hello".
Proof.
  intros line tail Chunks.
  destruct (X3_unterminated_last_line [jsq line] (jsq tail) Chunks
              [bytesq line ++ [Byte.x0a]])
    as (_ & H1 & H2 & H3).
  - repeat constructor; apply no_LF_check; reflexivity.
  - apply no_LF_check; reflexivity.
  - reflexivity.
  - reflexivity.
  - split; [exact H1|]. split; [exact H2|]. apply H3. reflexivity.
Defined.

(** X4. An output cut into chunks at character boundaries, inside lines or
    between them, decodes like the same bytes in one chunk: same
    increments, same recorded text, same carry-over. *)
Theorem X4_chunks_cut_between_characters (Chunks : list Utf8.Buffer) :
  forallb endsOnCharacter Chunks = true ->
  feed Chunks initial = feed [concat Chunks] initial.
Proof. apply feed_chunks_on_boundaries. Qed.

Lemma X4_chunks_cut_between_characters_witness :
  let Chunks :=
    [bytesq "{'type':'assis";
     bytesq "tant','message':{'content':'" ++ [Byte.xc3; Byte.xa9];
     [Byte.xc3; Byte.xa9] ++ bytesq "'}}" ++ [Byte.x0a]] in
  Tokens (feed Chunks initial) = [[233; 233]].
Proof.
  intros Chunks.
  rewrite (X4_chunks_cut_between_characters Chunks eq_refl).
  reflexivity.
Defined.

(** X6. Output after a complete first part overrides it exactly when it
    carries an assistant event: the whole-output parse of the two parts
    together is that of the second part if the second part has an
    assistant event, and that of the first part otherwise. *)
Theorem X6_later_output_overrides (first second : jsstring) :
  NewlineTerminated first ->
  TextExtractedFromStreamJSON (first ++ second)
  = match AssistantTexts (split LF second) with
    | [] => TextExtractedFromStreamJSON first
    | _ :: _ => TextExtractedFromStreamJSON second
    end.
Proof.
  intros H. rewrite !TextExtractedFromStreamJSON_last.
  assert (E : AssistantTexts (split LF (first ++ second))
              = AssistantTexts (split LF first)
                ++ AssistantTexts (split LF second)).
  { rewrite (AssistantTexts_terminated _ H).
    rewrite (split_complete_remainder (first ++ second)).
    rewrite CompleteLines_app, Remainder_app, (Remainder_terminated _ H).
    cbn [app]. rewrite !AssistantTexts_app, <- app_assoc.
    rewrite <- AssistantTexts_app, <- split_complete_remainder.
    reflexivity. }
  rewrite E.
  destruct (AssistantTexts (split LF second)) as [|T later] eqn:E2.
  - rewrite app_nil_r. reflexivity.
  - apply last_app_r. discriminate.
Qed.

Lemma X6_later_output_overrides_witness :
  let first :=
    jsq "{'type':'assistant','message':{'content':'Hello'}}" ++ [LF] in
  let second := jsq "{'type':'result','result':'Hello'}" ++ [LF] in
  TextExtractedFromStreamJSON (first ++ second) = js "Hello".
Proof.
  intros first second.
  rewrite (X6_later_output_overrides first second).
  - reflexivity.
  - right. exists (removelast first). reflexivity.
Defined.

(** ** Reading a content *)










(* ====================================================================== *)
(** * Further properties of the translator *)
(* ====================================================================== *)

Lemma Turns_app A B : Turns (A ++ B) = Turns A ++ Turns B.
Proof. apply filter_app. Qed.

Lemma MessagesAsNDJSON_Turns Messages :
  MessagesAsNDJSON Messages
  = join [LF] (map JSON_stringify (map AgentEvent (Turns Messages))) ++ [LF].
Proof. reflexivity. Qed.

(** X8. The document is built turn by turn: the lines for a history made
    of two parts are the lines for the first part followed by those for the
    second; there are as many lines as messages that are not system
    messages; and when there is such a message the document is these lines,
    each one ended by a newline, with no blank line among them. *)
Theorem X8_document_line_by_line (A B : list Message) :
  NDJSONLines (MessagesAsNDJSON (A ++ B))
  = NDJSONLines (MessagesAsNDJSON A) ++ NDJSONLines (MessagesAsNDJSON B) /\
  length (NDJSONLines (MessagesAsNDJSON A)) = length (Turns A) /\
  (Turns A <> [] ->
   MessagesAsNDJSON A = Document (NDJSONLines (MessagesAsNDJSON A))).
Proof.
  rewrite !MessagesAsNDJSON_lines.
  change (filter (fun Msg => negb (isSystem Msg))) with Turns.
  split; [rewrite Turns_app, map_app; reflexivity|].
  split; [apply length_map|].
  intros H. rewrite MessagesAsNDJSON_Turns, map_map.
  apply join_Document. destruct (Turns A); [congruence | discriminate].
Qed.

Lemma X8_document_line_by_line_witness :
  let A :=
    [{| role := js "user"; content := TextContent (js "Hi") |};
     {| role := js "assistant"; content := TextContent (js "Hello") |}] in
  MessagesAsNDJSON A
  = jsq "{'type':'user','message':{'role':'user','content':[{'type':'text','text':'Hi'}]}}"
    ++ [LF]
    ++ jsq "{'type':'assistant','message':{'role':'assistant','content':[{'type':'text','text':'Hello'}]}}"
    ++ [LF].
Proof.
  intros A.
  rewrite (proj2 (proj2 (X8_document_line_by_line A []))).
  - reflexivity.
  - discriminate.
Defined.

Lemma Turns_idempotent Messages : Turns (Turns Messages) = Turns Messages.
Proof.
  unfold Turns. induction Messages as [|Msg Messages IH]; [reflexivity|].
  cbn [filter]. destruct (negb (isSystem Msg)) eqn:E; [|exact IH].
  cbn [filter]. rewrite E, IH. reflexivity.
Qed.

(** X9. System messages after the first have no effect on either output:
    the extracted prompt is that of the first system message alone, and
    the document is the one of the history without them, so that their
    content reaches the CLI neither as prompt nor as event. *)
Theorem X9_later_system_messages_are_lost
  (before after : list Message) (SystemMsg : Message) :
  Forall (fun Msg => isSystem Msg = false) before ->
  isSystem SystemMsg = true ->
  extractedSystemPrompt (before ++ SystemMsg :: after)
  = extractedSystemPrompt [SystemMsg] /\
  MessagesAsNDJSON (before ++ SystemMsg :: after)
  = MessagesAsNDJSON (before ++ Turns after).
Proof.
  intros Hbefore Hsys. split.
  - unfold extractedSystemPrompt.
    change (fun Msg => streq (role Msg) (js "system")) with isSystem.
    rewrite (find_first isSystem _ _ _ Hbefore Hsys).
    cbn [find]. rewrite Hsys. reflexivity.
  - rewrite !MessagesAsNDJSON_Turns, !Turns_app, Turns_idempotent.
    unfold Turns at 2. cbn [filter]. rewrite Hsys. reflexivity.
Qed.

Lemma X9_later_system_messages_are_lost_witness :
  let Messages :=
    [{| role := js "user"; content := TextContent (js "Hi") |};
     {| role := js "system"; content := TextContent (js "Be brief.") |};
     {| role := js "system"; content := TextContent (js "Answer in French.") |}]
  in
  extractedSystemPrompt Messages = Normal (Some (js "Be brief.")) /\
  MessagesAsNDJSON Messages
  = MessagesAsNDJSON [{| role := js "user"; content := TextContent (js "Hi") |}].
Proof.
  intros Messages.
  apply (X9_later_system_messages_are_lost
           [{| role := js "user"; content := TextContent (js "Hi") |}]
           [{| role := js "system";
               content := TextContent (js "Answer in French.") |}]
           {| role := js "system"; content := TextContent (js "Be brief.") |}).
  - repeat constructor.
  - reflexivity.
Defined.

(* ====================================================================== *)
(** * Further properties of the process session *)
(* ====================================================================== *)

Lemma firstSettling_none events :
  firstSettling events = None <-> forallb isData events = true.
Proof.
  unfold firstSettling. rewrite find_none_iff, forallb_forall, Forall_forall.
  split; intros H ev Hev; specialize (H ev Hev).
  - apply negb_false_iff, H.
  - rewrite H. reflexivity.
Qed.

Lemma firstSettling_some events ev :
  firstSettling events = Some ev ->
  exists data later,
    events = data ++ ev :: later /\
    forallb isData data = true /\ isData ev = false.
Proof.
  unfold firstSettling. induction events as [|e events IH]; [discriminate|].
  cbn [find]. destruct (isData e) eqn:E; cbn [negb].
  - intros H. destruct (IH H) as (data & later & -> & Hd & Hev).
    exists (e :: data), later. cbn [forallb]. rewrite E, Hd. auto.
  - intros [= <-]. exists [], events. auto.
Qed.

Lemma NonStreaming_timer_cleared ev st :
  isData ev = false ->
  NonStreaming.Timer (NonStreaming.handle st ev) = None.
Proof.
  destruct ev; try discriminate; intros _; try reflexivity.
  simpl. unfold NonStreaming.onTimeout.
  destruct (NonStreaming.Timer st) eqn:E; [reflexivity | exact E].
Qed.

Lemma Streaming_timer_cleared ev st :
  isData ev = false ->
  Streaming.Timer (Streaming.handle st ev) = None.
Proof.
  destruct ev; try discriminate; intros _; try reflexivity.
  simpl. unfold Streaming.onTimeout.
  destruct (Streaming.Timer st) eqn:E; [reflexivity | exact E].
Qed.

Lemma signals_by_first_settling
  (randomUUID NDJSON : jsstring) (SystemPrompt SessionId : option jsstring)
  (events : list ProcessEvent) :
  let sent :=
    match firstSettling events with
    | Some timer_expired => [js "SIGTERM"]
    | _ => []
    end in
  signals (NonStreaming.Process
             (NonStreaming.run events
                (NonStreaming.ResponseFromClaudeCode
                   randomUUID NDJSON SystemPrompt SessionId))) = sent /\
  signals (Streaming.Process
             (Streaming.run events
                (Streaming.ResponseFromClaudeCodeStreaming
                   randomUUID NDJSON SystemPrompt SessionId))) = sent.
Proof.
  intros sent. unfold sent.
  set (n0 := NonStreaming.ResponseFromClaudeCode _ _ _ _).
  set (s0 := Streaming.ResponseFromClaudeCodeStreaming _ _ _ _).
  destruct (firstSettling events) as [ev|] eqn:E.
  - destruct (firstSettling_some _ _ E) as (data & later & -> & Hd & Hev).
    destruct (NonStreaming_data _ Hd n0) as (_ & _ & Np).
    destruct (Streaming_data _ Hd s0) as (_ & _ & Sp).
    destruct ev as [Chunk|Chunk| |Code|Signal]; try discriminate Hev.
    + destruct (timer_expiry_effect randomUUID NDJSON SystemPrompt SessionId
                  data later Hd) as (H1 & _ & H2 & _).
      split; [exact H1 | exact H2].
    + rewrite NonStreaming_run_app, Streaming_run_app.
      change (NonStreaming.run (close Code :: later) ?st)
        with (NonStreaming.run later (NonStreaming.handle st (close Code))).
      change (Streaming.run (close Code :: later) ?st)
        with (Streaming.run later (Streaming.handle st (close Code))).
      rewrite NonStreaming_no_timer, Streaming_no_timer by reflexivity.
      cbn. rewrite Np, Sp. auto.
    + rewrite NonStreaming_run_app, Streaming_run_app.
      change (NonStreaming.run (error Signal :: later) ?st)
        with (NonStreaming.run later (NonStreaming.handle st (error Signal))).
      change (Streaming.run (error Signal :: later) ?st)
        with (Streaming.run later (Streaming.handle st (error Signal))).
      rewrite NonStreaming_no_timer, Streaming_no_timer by reflexivity.
      cbn. rewrite Np, Sp. auto.
  - apply firstSettling_none in E.
    destruct (NonStreaming_data _ E n0) as (_ & _ & Np).
    destruct (Streaming_data _ E s0) as (_ & _ & Sp).
    rewrite Np, Sp. auto.
Qed.



(** X11. In every run of either variant, whatever the events and their
    order, the only signal ever sent to the process is SIGTERM, at most
    once, and exactly when the timer expires before any close or spawn
    error: never after the process has closed. *)
Theorem X11_signal_only_from_pending_timer
  (randomUUID NDJSON : jsstring) (SystemPrompt SessionId : option jsstring)
  (events : list ProcessEvent) :
  let sent :=
    match firstSettling events with
    | Some timer_expired => [js "SIGTERM"]
    | _ => []
    end in
  signals (NonStreaming.Process
             (NonStreaming.run events
                (NonStreaming.ResponseFromClaudeCode
                   randomUUID NDJSON SystemPrompt SessionId))) = sent /\
  signals (Streaming.Process
             (Streaming.run events
                (Streaming.ResponseFromClaudeCodeStreaming
                   randomUUID NDJSON SystemPrompt SessionId))) = sent.
Proof. apply signals_by_first_settling. Qed.



Lemma NonStreaming_console_kept events :
  existsb isClose events = false ->
  forall st,
  NonStreaming.console (NonStreaming.run events st) = NonStreaming.console st.
Proof.
  induction events as [|ev events IH]; intros H st; [reflexivity|].
  cbn [existsb] in H. apply orb_false_iff in H as [Hev H].
  change (NonStreaming.run (ev :: events) st)
    with (NonStreaming.run events (NonStreaming.handle st ev)).
  rewrite (IH H). destruct ev; try discriminate Hev; try reflexivity.
  simpl. unfold NonStreaming.onTimeout.
  destruct (NonStreaming.Timer st); reflexivity.
Qed.

Lemma Streaming_console_kept events :
  existsb isClose events = false ->
  forall st,
  Streaming.console (Streaming.run events st) = Streaming.console st.
Proof.
  induction events as [|ev events IH]; intros H st; [reflexivity|].
  cbn [existsb] in H. apply orb_false_iff in H as [Hev H].
  change (Streaming.run (ev :: events) st)
    with (Streaming.run events (Streaming.handle st ev)).
  rewrite (IH H). destruct ev; try discriminate Hev; try reflexivity.
  simpl. unfold Streaming.onTimeout.
  destruct (Streaming.Timer st); reflexivity.
Qed.

(** X13. When the process closes, the diagnostic text received so far is
    written to the console, trimmed, under the tag [claude stderr], unless
    it is blank: whatever the exit code, also when the operation had
    already timed out, and nothing else is ever written there. *)
Theorem X13_diagnostics_are_logged_at_close
  (randomUUID NDJSON : jsstring) (SystemPrompt SessionId : option jsstring)
  (before after : list ProcessEvent) (Code : option Z) :
  existsb isClose before = false ->
  existsb isClose after = false ->
  let events := before ++ close Code :: after in
  let logged :=
    match trim (ChunksText (StderrChunks before)) with
    | [] => []
    | _ :: _ =>
        [(js "[claude stderr]", trim (ChunksText (StderrChunks before)))]
    end in
  NonStreaming.console
    (NonStreaming.run events
       (NonStreaming.ResponseFromClaudeCode
          randomUUID NDJSON SystemPrompt SessionId)) = logged /\
  Streaming.console
    (Streaming.run events
       (Streaming.ResponseFromClaudeCodeStreaming
          randomUUID NDJSON SystemPrompt SessionId)) = logged.
Proof.
  intros Hb Ha events logged. unfold events, logged.
  set (n0 := NonStreaming.ResponseFromClaudeCode _ _ _ _).
  set (s0 := Streaming.ResponseFromClaudeCodeStreaming _ _ _ _).
  rewrite NonStreaming_run_app, Streaming_run_app.
  change (NonStreaming.run (close Code :: after) ?st)
    with (NonStreaming.run after (NonStreaming.handle st (close Code))).
  change (Streaming.run (close Code :: after) ?st)
    with (Streaming.run after (Streaming.handle st (close Code))).
  rewrite (NonStreaming_console_kept _ Ha), (Streaming_console_kept _ Ha).
  cbn [NonStreaming.handle Streaming.handle].
  unfold NonStreaming.onClose, Streaming.onClose.
  cbn [NonStreaming.console Streaming.console].
  rewrite (NonStreaming_console_kept _ Hb), (Streaming_console_kept _ Hb).
  destruct (NonStreaming_streams before n0) as (_ & -> & _).
  destruct (Streaming_streams before s0) as (_ & -> & _).
  split; reflexivity.
Qed.

(** Exit code 0 with a warning on the diagnostic stream. *)
Lemma X13_diagnostics_are_logged_at_close_witness :
  NonStreaming.console
    (NonStreaming.run
       [stderr_data (Utf8.bytes " warning: slow "); close (Some 0%Z)]
       (NonStreaming.ResponseFromClaudeCode (js "generated-uuid") (js "{}")
          None None))
  = [(js "[claude stderr]", js "warning: slow")].
Proof.
  apply (proj1 (X13_diagnostics_are_logged_at_close
                  (js "generated-uuid") (js "{}") None None
                  [stderr_data (Utf8.bytes " warning: slow ")] []
                  (Some 0%Z) eq_refl eq_refl)).
Defined.




(* ====================================================================== *)
(** * Further properties: requests and responses *)
(* ====================================================================== *)

Import Http.

Lemma receive_app a b st :
  receive (a ++ b) st = receive b (receive a st).
Proof. apply fold_left_app. Qed.

Lemma receive_data Chunks st :
  receive (map request_data Chunks) st
  = {| Http.Chunks := Http.Chunks st ++ Chunks;
       Http.promise := Http.promise st |}.
Proof.
  revert st. induction Chunks as [|Chunk Chunks IH]; intros st.
  - simpl. rewrite app_nil_r. destruct st; reflexivity.
  - change (receive (map request_data (Chunk :: Chunks)) st)
      with (receive (map request_data Chunks)
              (onRequest st (request_data Chunk))).
    rewrite IH. simpl. rewrite <- app_assoc. reflexivity.
Qed.

Lemma receive_settled events :
  forall st,
  Http.promise st <> Pending ->
  Http.promise (receive events st) = Http.promise st.
Proof.
  induction events as [|ev events IH]; intros st H; [reflexivity|].
  change (receive (ev :: events) st) with (receive events (onRequest st ev)).
  assert (E : Http.promise (onRequest st ev) = Http.promise st).
  { destruct ev; simpl; [reflexivity| |];
      destruct (Http.promise st); try reflexivity; contradiction. }
  rewrite IH; rewrite E; [reflexivity | exact H].
Qed.

(** X15. The body of a request is the UTF-8 text of all its bytes,
    decoded once when the stream ends: it does not depend on how the
    bytes arrive in chunks, so a character cut by a chunk boundary is read
    whole. While only data has arrived the body is awaited, an error of
    the stream before its end fails the read, and what follows the end or
    the error changes nothing. *)
Theorem X15_body_is_decoded_as_a_whole
  (Chunks : list Utf8.Buffer) (later : list RequestEvent) :
  Http.promise (receive (map request_data Chunks) readBody) = Pending /\
  Http.promise
    (receive (map request_data Chunks ++ request_end :: later) readBody)
  = Fulfilled (Utf8.toString (concat Chunks)) /\
  (forall Chunks',
      concat Chunks' = concat Chunks ->
      Http.promise
        (receive (map request_data Chunks' ++ request_end :: later) readBody)
      = Fulfilled (Utf8.toString (concat Chunks))) /\
  (forall Signal,
      Http.promise
        (receive (map request_data Chunks ++ request_error Signal :: later)
           readBody)
      = Rejected Signal).
Proof.
  assert (Hend : forall Chunks0,
             Http.promise
               (receive (map request_data Chunks0 ++ request_end :: later)
                  readBody)
             = Fulfilled (Utf8.toString (concat Chunks0))).
  { intros Chunks0. rewrite receive_app, receive_data.
    change (receive (request_end :: later) ?st)
      with (receive later (onRequest st request_end)).
    rewrite receive_settled; simpl; [reflexivity | discriminate]. }
  split; [rewrite receive_data; reflexivity|].
  split; [apply Hend|].
  split.
  - intros Chunks' E. rewrite Hend, E. reflexivity.
  - intros Signal. rewrite receive_app, receive_data.
    change (receive (request_error Signal :: later) ?st)
      with (receive later (onRequest st (request_error Signal))).
    rewrite receive_settled; simpl; [reflexivity | discriminate].
Qed.

(** The two bytes of one character in two chunks. *)
Lemma X15_body_is_decoded_as_a_whole_witness :
  Http.promise
    (receive
       (map request_data [[Byte.xc3]; [Byte.xa9]] ++ request_end :: [])
       readBody)
  = Fulfilled (Utf8.toString (concat [[Byte.xc3; Byte.xa9]])).
Proof.
  apply (proj1 (proj2 (proj2 (X15_body_is_decoded_as_a_whole
                                [[Byte.xc3; Byte.xa9]] [])))
           [[Byte.xc3]; [Byte.xa9]] eq_refl).
Defined.

(** ** Server-sent events *)

Lemma NoNewline_data_line now Delta Model :
  NoNewline (js "data: " ++ JSON_stringify (ChunkObject now Delta Model)).
Proof.
  apply NoNewline_app; [literal | apply NoNewline_JSON_stringify].
Qed.

Lemma SSEChunks_Document (Model : JSON) (deltas : list (N * jsstring)) :
  concat (map (fun d => SSEChunk (fst d) (snd d) Model) deltas)
  = Document
      (flat_map (fun d =>
                   [js "data: "
                    ++ JSON_stringify (ChunkObject (fst d) (snd d) Model);
                    []]) deltas).
Proof.
  induction deltas as [|d deltas IH]; [reflexivity|].
  cbn [map concat flat_map]. rewrite IH. unfold SSEChunk, Document.
  cbn [app map concat]. rewrite <- !app_assoc. reflexivity.
Qed.

(** X16. A token is framed as one server-sent event: the text written for
    a sequence of tokens, read line by line, has exactly one [data] line
    per token, each followed by one empty line, whatever the tokens
    contain (newlines included), and each line carries the serialized
    chunk of its token. *)
Theorem X16_one_event_per_token (Model : JSON) (deltas : list (N * jsstring)) :
  split LF (concat (map (fun d => SSEChunk (fst d) (snd d) Model) deltas))
  = flat_map (fun d =>
                [js "data: "
                 ++ JSON_stringify (ChunkObject (fst d) (snd d) Model);
                 []]) deltas
    ++ [[]].
Proof.
  rewrite SSEChunks_Document. apply split_Document.
  apply Forall_forall. intros l Hl. apply in_flat_map in Hl as (d & _ & Hd).
  destruct Hd as [<-|[<-|[]]].
  - apply NoNewline_not_In, NoNewline_data_line.
  - intros [].
Qed.

(** ** The streamed answer *)












(** ** The answer of the call that does not stream *)




(** ** The translator on the messages of a request body *)

Lemma Represents_role v Msg :
  Represents v Msg ->
  Get (Some v) (js "role") = Normal (Some (JStr (role Msg))).
Proof. intros (properties & -> & Hr & _). simpl. rewrite Hr. reflexivity. Qed.

Lemma Represents_content v Msg :
  Represents v Msg ->
  Get (Some v) (js "content") = Normal (Some (ContentToJSON (content Msg))).
Proof. intros (properties & -> & _ & Hc). simpl. rewrite Hc. reflexivity. Qed.

Lemma Represents_event v Msg :
  Represents v Msg -> Handlers.AgentEvent v = Normal (AgentEvent Msg).
Proof.
  intros H. unfold Handlers.AgentEvent.
  rewrite (Represents_role _ _ H), (Represents_content _ _ H).
  cbn [bind]. unfold AgentEvent. destruct (content Msg); reflexivity.
Qed.

Lemma Represents_turns values Messages :
  Forall2 Represents values Messages ->
  exists kept,
    filterM (fun Msg =>
               role <- Get (Some Msg) (js "role") ;;
               Normal (negb (isString role (js "system")))) values
    = Normal kept /\
    Forall2 Represents kept (Turns Messages).
Proof.
  induction 1 as [|v Msg values Messages Hv _ (kept & E & IH)].
  - exists []. split; [reflexivity | constructor].
  - cbn [filterM]. rewrite (Represents_role _ _ Hv), E. cbn [bind isString].
    unfold Turns. cbn [filter]. unfold isSystem.
    destruct (streq (role Msg) (js "system")); cbn [negb].
    + exists kept. auto.
    + exists (v :: kept). split; [reflexivity|]. constructor; assumption.
Qed.

Lemma Represents_events values Messages :
  Forall2 Represents values Messages ->
  mapM Handlers.AgentEvent values = Normal (map AgentEvent Messages).
Proof.
  induction 1 as [|v Msg values Messages Hv _ IH]; [reflexivity|].
  cbn [mapM map]. rewrite (Represents_event _ _ Hv), IH. reflexivity.
Qed.

Lemma Represents_document values Messages :
  Forall2 Represents values Messages ->
  Handlers.MessagesAsNDJSON values = Normal (MessagesAsNDJSON Messages).
Proof.
  intros H. unfold Handlers.MessagesAsNDJSON.
  destruct (Represents_turns _ _ H) as (kept & -> & Hk). cbn [bind].
  rewrite (Represents_events _ _ Hk). reflexivity.
Qed.

Lemma Represents_find values Messages :
  Forall2 Represents values Messages ->
  match find (fun Msg => streq (role Msg) (js "system")) Messages with
  | None =>
      Handlers.findM (fun Msg =>
                        role <- Get (Some Msg) (js "role") ;;
                        Normal (isString role (js "system"))) values
      = Normal None
  | Some SystemMsg =>
      exists v,
        Handlers.findM (fun Msg =>
                          role <- Get (Some Msg) (js "role") ;;
                          Normal (isString role (js "system"))) values
        = Normal (Some v) /\
        Represents v SystemMsg
  end.
Proof.
  induction 1 as [|v Msg values Messages Hv _ IH]; [reflexivity|].
  cbn [find Handlers.findM]. rewrite (Represents_role _ _ Hv).
  cbn [bind isString].
  destruct (streq (role Msg) (js "system")); [|exact IH].
  exists v. auto.
Qed.

Lemma Represents_prompt values Messages :
  Forall2 Represents values Messages ->
  Handlers.extractedSystemPrompt values = extractedSystemPrompt Messages.
Proof.
  intros H. unfold Handlers.extractedSystemPrompt, extractedSystemPrompt.
  pose proof (Represents_find _ _ H) as F.
  destruct (find _ Messages) as [SystemMsg|].
  - destruct F as (v & -> & Hv). cbn [bind].
    rewrite (Represents_content _ _ Hv). cbn [bind].
    destruct (content SystemMsg); reflexivity.
  - rewrite F. reflexivity.
Qed.

(** X19. The translator reads only the role and the content of each
    message of a request body: on values that carry messages of the data
    model, whatever else they hold, it gives the NDJSON document and the
    system prompt of those messages, and the document never fails. *)
Theorem X19_only_role_and_content_are_read
  (values : list JSON) (Messages : list Message) :
  Forall2 Represents values Messages ->
  Handlers.MessagesAsNDJSON values = Normal (MessagesAsNDJSON Messages) /\
  Handlers.extractedSystemPrompt values = extractedSystemPrompt Messages.
Proof.
  intros H. split;
    [apply Represents_document | apply Represents_prompt]; exact H.
Qed.

(** A user message with a [name], which is not passed on. *)
Lemma X19_only_role_and_content_are_read_witness :
  Handlers.MessagesAsNDJSON
    [JObj [(js "name", JStr (js "Ada"));
           (js "role", JStr (js "user"));
           (js "content", JStr (js "Hi"))]]
  = Normal (MessagesAsNDJSON
              [{| role := js "user"; content := TextContent (js "Hi") |}]).
Proof.
  apply (X19_only_role_and_content_are_read
           [JObj [(js "name", JStr (js "Ada"));
                  (js "role", JStr (js "user"));
                  (js "content", JStr (js "Hi"))]]
           [{| role := js "user"; content := TextContent (js "Hi") |}]).
  constructor; [|constructor].
  eexists. split; [reflexivity|]. split; reflexivity.
Defined.

(** ** Requests *)

Lemma body_of_request Chunks later :
  Http.promise
    (receive (map request_data Chunks ++ request_end :: later) readBody)
  = Fulfilled (Utf8.toString (concat Chunks)).
Proof.
  rewrite receive_app, receive_data.
  change (receive (request_end :: later) ?st)
    with (receive later (onRequest st request_end)).
  rewrite receive_settled; simpl; [reflexivity | discriminate].
Qed.

Lemma roles_null values :
  In JNull values ->
  filterM (fun Msg =>
             role <- Get (Some Msg) (js "role") ;;
             Normal (negb (isString role (js "system")))) values
  = Throw TypeError.
Proof.
  induction values as [|v values IH]; intros H; [destruct H|].
  cbn [filterM]. destruct H as [->|H]; [reflexivity|].
  rewrite (IH H). destruct v; reflexivity.
Qed.

(** X20. A chat request whose body is a JSON object with a non-empty
    array of messages of the data model, and with a session identifier
    that is absent, [null] or a string, invokes the CLI with the NDJSON
    document and the system prompt of these messages, the session
    identifier as given, and the model of the body or, without one,
    [claude-code-proxy]; nothing is answered before. The body is the text
    of all chunks of the request. *)
Theorem X20_chat_request_reaches_the_CLI
  (Chunks : list Utf8.Buffer) (later : list RequestEvent)
  (properties : list (jsstring * JSON)) (values : list JSON)
  (Messages : list Message) (SystemPrompt : option jsstring) :
  JSON_parse (Utf8.toString (concat Chunks)) = Normal (JObj properties) ->
  lookup (js "messages") properties = Some (JArr values) ->
  Forall2 Represents values Messages ->
  Messages <> [] ->
  extractedSystemPrompt Messages = Normal SystemPrompt ->
  isSessionId (lookup (js "session_id") properties) = true ->
  exists log,
    Handlers.handleChatCompletions
      (map request_data Chunks ++ request_end :: later)
    = Handlers.Invoke log
        (Handlers.ToBoolean (lookup (js "stream") properties))
        (Handlers.ModelOf (lookup (js "model") properties))
        (MessagesAsNDJSON Messages) SystemPrompt
        (lookup (js "session_id") properties).
Proof.
  intros Hparse Hm Hv Hne Hp Hs.
  unfold Handlers.handleChatCompletions.
  rewrite body_of_request, Hparse. cbn [Get bind]. rewrite Hm.
  destruct values as [|v values].
  { inversion Hv; subst. contradiction. }
  rewrite (Represents_prompt _ _ Hv), Hp. cbn [bind].
  rewrite (Represents_document _ _ Hv). cbn [bind].
  destruct (lookup (js "session_id") properties) as [[| | |id| |]|];
    try discriminate Hs; cbn [isNullish Handlers.TemplateToString
                                elementToString bind Handlers.planOf];
    eexists; reflexivity.
Qed.

(** A system message, a user message, and a session to resume. *)
Lemma X20_chat_request_reaches_the_CLI_witness :
  exists log,
    Handlers.handleChatCompletions
      (map request_data
         [bytesq "{'messages':[{'role':'system','content':'Be brief.'},";
          bytesq "{'role':'user','content':'Hi'}],'session_id':'s-1'}"]
       ++ request_end :: [])
    = Handlers.Invoke log false (JStr (js "claude-code-proxy"))
        (MessagesAsNDJSON
           [{| role := js "system"; content := TextContent (js "Be brief.") |};
            {| role := js "user"; content := TextContent (js "Hi") |}])
        (Some (js "Be brief.")) (Some (JStr (js "s-1"))).
Proof.
  apply (X20_chat_request_reaches_the_CLI
           [bytesq "{'messages':[{'role':'system','content':'Be brief.'},";
            bytesq "{'role':'user','content':'Hi'}],'session_id':'s-1'}"]
           []
           [(js "messages",
             JArr [JObj [(js "role", JStr (js "system"));
                         (js "content", JStr (js "Be brief."))];
                   JObj [(js "role", JStr (js "user"));
                         (js "content", JStr (js "Hi"))]]);
            (js "session_id", JStr (js "s-1"))]
           [JObj [(js "role", JStr (js "system"));
                  (js "content", JStr (js "Be brief."))];
            JObj [(js "role", JStr (js "user"));
                  (js "content", JStr (js "Hi"))]]
           [{| role := js "system"; content := TextContent (js "Be brief.") |};
            {| role := js "user"; content := TextContent (js "Hi") |}]
           (Some (js "Be brief."))).
  - vm_compute. reflexivity.
  - reflexivity.
  - constructor; [|constructor; [|constructor]];
      (eexists; split; [reflexivity|]; split; reflexivity).
  - discriminate.
  - reflexivity.
  - reflexivity.
Defined.

(** X21. A chat request is answered with status 500, [Internal server
    error], and no CLI is invoked, when its body is the JSON value [null]
    or when one of its messages is [null]: reading a property of [null]
    throws, and only the server catches it. *)
Theorem X21_null_in_a_chat_request
  (Chunks : list Utf8.Buffer) (later : list RequestEvent) (Body : JSON) :
  JSON_parse (Utf8.toString (concat Chunks)) = Normal Body ->
  Body = JNull \/
  (exists properties values,
      Body = JObj properties /\
      lookup (js "messages") properties = Some (JArr values) /\
      In JNull values) ->
  Handlers.Server (js "POST") (Some (js "/v1/chat/completions"))
    (map request_data Chunks ++ request_end :: later)
  = Handlers.Reply (sendError 500 (js "Internal server error")).
Proof.
  intros Hparse H.
  assert (E : exists e,
             Handlers.handleChatCompletions
               (map request_data Chunks ++ request_end :: later)
             = Handlers.Raise e).
  { unfold Handlers.handleChatCompletions.
    rewrite body_of_request, Hparse.
    destruct H as [->|(properties & values & -> & Hm & Hnull)].
    - exists TypeError. reflexivity.
    - cbn [Get bind]. rewrite Hm.
      destruct values as [|v values]; [destruct Hnull|].
      destruct (Handlers.extractedSystemPrompt (v :: values)) as [prompt|e];
        [|exists e; reflexivity].
      cbn [bind]. unfold Handlers.MessagesAsNDJSON.
      rewrite (roles_null _ Hnull). exists TypeError. reflexivity. }
  destruct E as (e & E).
  unfold Handlers.Server.
  change (streq (js "POST") (js "OPTIONS")) with false.
  change (streq (js "POST") (js "POST")) with true.
  change (streq (Handlers.PathOf (Some (js "/v1/chat/completions")))
            (js "/v1/chat/completions")) with true.
  cbn [andb]. rewrite E. reflexivity.
Qed.

(** The body [null]. *)
Lemma X21_null_in_a_chat_request_witness :
  Handlers.Server (js "POST") (Some (js "/v1/chat/completions"))
    (map request_data [Utf8.bytes "null"] ++ request_end :: [])
  = Handlers.Reply (sendError 500 (js "Internal server error")).
Proof.
  apply (X21_null_in_a_chat_request [Utf8.bytes "null"] [] JNull).
  - vm_compute. reflexivity.
  - left. reflexivity.
Defined.

(** X22. A text completion passes the prompt on as it is, untrimmed, as
    the single user event of the NDJSON document; it never passes a system
    prompt or a session identifier, whatever else the body holds. A prompt
    of white space only is refused with status 400. *)
Theorem X22_text_completion_request
  (Chunks : list Utf8.Buffer) (later : list RequestEvent)
  (properties : list (jsstring * JSON)) (Prompt : jsstring) :
  JSON_parse (Utf8.toString (concat Chunks)) = Normal (JObj properties) ->
  lookup (js "prompt") properties = Some (JStr Prompt) ->
  let request := map request_data Chunks ++ request_end :: later in
  let User := {| role := js "user"; content := TextContent Prompt |} in
  match trim Prompt with
  | [] =>
      Handlers.handleTextCompletions request
      = Handlers.Reply
          (sendError 400 (js "`prompt` must be a non-empty string"))
  | _ :: _ =>
      exists log,
        Handlers.handleTextCompletions request
        = Handlers.Invoke log
            (Handlers.ToBoolean (lookup (js "stream") properties))
            (Handlers.ModelOf (lookup (js "model") properties))
            (MessagesAsNDJSON [User]) None None /\
        NDJSONLines (MessagesAsNDJSON [User]) = [JSON_stringify (EventOf User)]
  end.
Proof.
  intros Hparse Hp request User. unfold request.
  unfold Handlers.handleTextCompletions.
  rewrite body_of_request, Hparse. cbn [Get bind]. rewrite Hp.
  destruct (trim Prompt) as [|c rest]; [reflexivity|].
  eexists. split.
  - assert (E : Handlers.MessagesAsNDJSON
                  [JObj [(js "role", JStr (js "user"));
                         (js "content", JStr Prompt)]]
                = Normal (MessagesAsNDJSON [User])).
    { apply Represents_document. constructor; [|constructor].
      eexists. split; [reflexivity|]. split; reflexivity. }
    rewrite E. reflexivity.
  - rewrite MessagesAsNDJSON_lines. reflexivity.
Qed.

(** A prompt with a trailing newline, in a body that names a session. *)
Lemma X22_text_completion_request_witness :
  exists log,
    Handlers.handleTextCompletions
      (map request_data [bytesq "{'prompt':' Hi ','session_id':'s-1'}"]
       ++ request_end :: [])
    = Handlers.Invoke log false (JStr (js "claude-code-proxy"))
        (MessagesAsNDJSON
           [{| role := js "user"; content := TextContent (js " Hi ") |}])
        None None.
Proof.
  destruct (X22_text_completion_request
              [bytesq "{'prompt':' Hi ','session_id':'s-1'}"] []
              [(js "prompt", JStr (js " Hi "));
               (js "session_id", JStr (js "s-1"))]
              (js " Hi ")) as (log & E & _).
  - vm_compute. reflexivity.
  - reflexivity.
  - exists log. exact E.
Defined.

(** ** The server *)

Lemma PathOf_query (path query : jsstring) :
  ~ In 63 path ->
  Handlers.PathOf (Some (path ++ 63 :: query)) = path.
Proof.
  intros H. unfold Handlers.PathOf, split. cbn [nullish_or].
  rewrite split_from_cur by exact H. cbn [app split_from].
  rewrite N.eqb_refl. reflexivity.
Qed.

Lemma PathOf_plain (path : jsstring) :
  ~ In 63 path -> Handlers.PathOf (Some path) = path.
Proof.
  intros H. unfold Handlers.PathOf, split. cbn [nullish_or].
  rewrite <- (app_nil_r path) at 1.
  rewrite split_from_cur by exact H. reflexivity.
Qed.

(** X23. The server routes by the method and by the path before the
    first question mark: a query string never changes the answer. It
    answers every OPTIONS request with the preflight response, whatever
    the path, and an exception of a handler never escapes it. *)
Theorem X23_routing
  (Method path query : jsstring) (url : option jsstring)
  (request : list RequestEvent) :
  ~ In 63 path ->
  Handlers.Server Method (Some (path ++ 63 :: query)) request
  = Handlers.Server Method (Some path) request /\
  Handlers.Server (js "OPTIONS") url request
  = Handlers.Reply Handlers.CorsPreflight /\
  (forall e, Handlers.Server Method url request <> Handlers.Raise e).
Proof.
  intros H. split; [|split].
  - unfold Handlers.Server. cbv zeta.
    rewrite (PathOf_query _ query H), (PathOf_plain _ H). reflexivity.
  - reflexivity.
  - intros e. unfold Handlers.Server. cbv zeta.
    destruct (streq Method (js "OPTIONS")); [discriminate|].
    match goal with
    | |- match ?plan with _ => _ end <> _ => destruct plan; discriminate
    end.
Qed.

(** The health check with a query string. *)
Lemma X23_routing_witness :
  Handlers.Server (js "GET") (Some (js "/health" ++ 63 :: js "probe=1")) []
  = Handlers.Server (js "GET") (Some (js "/health")) [].
Proof.
  apply (X23_routing (js "GET") (js "/health") (js "probe=1") None []).
  intros H. repeat (destruct H as [H|H]; [discriminate H|]). exact H.
Defined.

(* ====================================================================== *)
(** * Further properties: JSON text read back *)
(* ====================================================================== *)

(** ** String literals *)

Lemma hexValue_hexDigit n : n < 16 -> hexValue (hexDigit n) = Some n.
Proof.
  intros H. unfold hexDigit, hexValue, isDigit.
  destruct (N.ltb_spec n 10);
    repeat match goal with
           | |- context [?a <=? ?b] => destruct (N.leb_spec a b)
           end;
    cbn [andb]; try lia; f_equal; lia.
Qed.

Lemma hex_digits c :
  c < 65536 ->
  4096 * ((c / 4096) mod 16) + 256 * ((c / 256) mod 16)
  + 16 * ((c / 16) mod 16) + c mod 16 = c.
Proof.
  intros H. zify. Z.to_euclidean_division_equations. lia.
Qed.

Lemma readChars_escape c rest acc :
  c < 65536 ->
  readChars (UnicodeEscape c ++ rest) acc = readChars rest (acc ++ [c]).
Proof.
  intros H. unfold UnicodeEscape. cbn [app readChars].
  change (92 =? 34) with false. change (92 =? 92) with true.
  change (117 =? 117) with true. cbv iota.
  rewrite !hexValue_hexDigit by (apply N.mod_lt; lia).
  rewrite hex_digits by exact H. reflexivity.
Qed.

Lemma readChars_plain c rest acc :
  c <> 34 -> c <> 92 -> 32 <= c ->
  readChars (c :: rest) acc = readChars rest (acc ++ [c]).
Proof.
  intros H1 H2 H3. cbn [readChars].
  destruct (N.eqb_spec c 34); [contradiction|].
  destruct (N.eqb_spec c 92); [contradiction|].
  destruct (N.ltb_spec c 32); [lia|]. reflexivity.
Qed.

Lemma readChars_QuoteCodeUnit c rest acc :
  readChars (QuoteCodeUnit c ++ rest) acc = readChars rest (acc ++ [c]).
Proof.
  unfold QuoteCodeUnit.
  destruct (N.eqb_spec c 8) as [->|]; [reflexivity|].
  destruct (N.eqb_spec c 9) as [->|]; [reflexivity|].
  destruct (N.eqb_spec c 10) as [->|]; [reflexivity|].
  destruct (N.eqb_spec c 12) as [->|]; [reflexivity|].
  destruct (N.eqb_spec c 13) as [->|]; [reflexivity|].
  destruct (N.eqb_spec c 34) as [->|]; [reflexivity|].
  destruct (N.eqb_spec c 92) as [->|]; [reflexivity|].
  destruct (N.ltb_spec c 32).
  - apply readChars_escape. lia.
  - apply readChars_plain; assumption.
Qed.

Lemma readChars_QuoteBody s :
  forall acc rest,
  readChars (QuoteBody s ++ 34 :: rest) acc = Some (acc ++ s, rest).
Proof.
  assert (H : forall n s, (length s <= n)%nat ->
              forall acc rest,
              readChars (QuoteBody s ++ 34 :: rest) acc
              = Some (acc ++ s, rest)).
  { induction n as [|n IH]; intros [|c s'] Hn acc rest;
      try (simpl in Hn; lia).
    - simpl. rewrite app_nil_r. reflexivity.
    - simpl. rewrite app_nil_r. reflexivity.
    - cbn [QuoteBody]. cbn [length] in Hn.
      assert (Hs' : forall acc rest,
                 readChars (QuoteBody s' ++ 34 :: rest) acc
                 = Some (acc ++ s', rest)).
      { apply IH. lia. }
      unfold isLeadSurrogate, isTrailSurrogate.
      destruct (N.leb_spec 55296 c); destruct (N.leb_spec c 56319);
        cbn [andb].
      + destruct s' as [|d s''].
        * rewrite readChars_escape by lia. simpl. reflexivity.
        * destruct (N.leb_spec 56320 d); destruct (N.leb_spec d 57343);
            cbn [andb];
            try (rewrite <- app_assoc, readChars_escape by lia;
                 rewrite Hs', <- app_assoc; reflexivity).
          cbn [app]. rewrite readChars_plain by lia.
          rewrite readChars_plain by lia.
          rewrite IH by (cbn [length] in Hn; lia).
          rewrite <- !app_assoc. reflexivity.
      + destruct (N.leb_spec 56320 c); destruct (N.leb_spec c 57343);
          cbn [andb];
          try (rewrite <- app_assoc, readChars_escape by lia;
               rewrite Hs', <- app_assoc; reflexivity);
          rewrite <- app_assoc, readChars_QuoteCodeUnit, Hs', <- app_assoc;
          reflexivity.
      + destruct (N.leb_spec 56320 c); destruct (N.leb_spec c 57343);
          cbn [andb];
          try (rewrite <- app_assoc, readChars_escape by lia;
               rewrite Hs', <- app_assoc; reflexivity);
          rewrite <- app_assoc, readChars_QuoteCodeUnit, Hs', <- app_assoc;
          reflexivity.
      + lia. }
  intros acc rest. apply (H (length s)). lia.
Qed.

(** ** Number literals *)

Lemma uint_digits_are_digits u : forallb isDigit (uint_digits u) = true.
Proof. induction u; simpl; auto. Qed.

Lemma digitsOf_are_digits p : forallb isDigit (digitsOf p) = true.
Proof. apply uint_digits_are_digits. Qed.

Lemma zeros_are_digits n : forallb isDigit (zeros n) = true.
Proof.
  unfold zeros. induction (Z.to_nat n); simpl; auto.
Qed.

Lemma digitsFrom_cons v c d :
  digitsFrom v (c :: d) = digitsFrom (10 * v + (c - 48)) d.
Proof. reflexivity. Qed.

Lemma digitsValue_acc u acc :
  digitsFrom (Npos acc) (uint_digits u) = Npos (Pos.of_uint_acc u acc).
Proof.
  revert acc. induction u; intros acc;
    cbn [uint_digits Pos.of_uint_acc]; [reflexivity|..];
    rewrite digitsFrom_cons, <- IHu; f_equal; lia.
Qed.

Lemma digitsValue_uint u : digitsValue (uint_digits u) = Pos.of_uint u.
Proof.
  change (digitsValue (uint_digits u)) with (digitsFrom 0 (uint_digits u)).
  induction u; cbn [uint_digits Pos.of_uint]; [reflexivity|..];
    rewrite digitsFrom_cons; try (rewrite <- digitsValue_acc; reflexivity).
  exact IHu.
Qed.

Lemma digitsValue_digitsOf p : digitsValue (digitsOf p) = Npos p.
Proof.
  unfold digitsOf. rewrite digitsValue_uint. apply DecimalPos.Unsigned.of_to.
Qed.

Lemma digitsFrom_app v a b :
  digitsFrom v (a ++ b) = digitsFrom (digitsFrom v a) b.
Proof. apply fold_left_app. Qed.

Lemma digitsFrom_zeros v j :
  digitsFrom v (repeat 48 j) = v * 10 ^ N.of_nat j.
Proof.
  revert v. induction j as [|j IH]; intros v.
  - simpl. lia.
  - cbn [repeat]. rewrite digitsFrom_cons, IH, Nnat.Nat2N.inj_succ, N.pow_succ_r'.
    lia.
Qed.

Lemma stripZeros_power s j :
  s mod 10 <> 0 ->
  forall fuel t, (j <= fuel)%nat ->
  stripZeros fuel (s * 10 ^ N.of_nat j) t = (s, (t + Z.of_nat j)%Z).
Proof.
  intros Hs. induction j as [|j IH]; intros fuel t Hf.
  - rewrite N.mul_1_r, Z.add_0_r.
    destruct fuel as [|fuel]; [reflexivity|]. cbn [stripZeros].
    destruct (N.eqb_spec (s mod 10) 0); [contradiction|]. reflexivity.
  - destruct fuel as [|fuel]; [lia|]. cbn [stripZeros].
    rewrite Nnat.Nat2N.inj_succ, N.pow_succ_r'.
    replace (s * (10 * 10 ^ N.of_nat j)) with (s * 10 ^ N.of_nat j * 10) by lia.
    rewrite N.Div0.mod_mul, N.div_mul by lia.
    assert (s <> 0) by (intros ->; apply Hs; reflexivity).
    assert (10 ^ N.of_nat j <> 0) by (apply N.pow_nonzero; lia).
    destruct (N.eqb_spec (s * 10 ^ N.of_nat j * 10) 0); [lia|].
    cbn [N.eqb andb negb]. rewrite IH by lia. f_equal. lia.
Qed.

Lemma readDigits_app d :
  forallb isDigit d = true ->
  forall rest acc,
  match rest with [] => true | c :: _ => negb (isDigit c) end = true ->
  readDigits (d ++ rest) acc = (acc ++ d, rest).
Proof.
  induction d as [|c d IH]; intros Hd rest acc Hr.
  - rewrite app_nil_r. destruct rest as [|c rest]; [reflexivity|].
    cbn [app readDigits]. apply negb_true_iff in Hr. rewrite Hr. reflexivity.
  - cbn [forallb] in Hd. apply andb_true_iff in Hd as [Hc Hd].
    cbn [app readDigits]. rewrite Hc, IH, <- app_assoc by assumption.
    reflexivity.
Qed.

Lemma nzhead_not_D0 d :
  match Decimal.nzhead d with Decimal.D0 _ => False | _ => True end.
Proof. induction d; simpl; auto. Qed.

Lemma digitsOf_head p :
  exists c more,
    digitsOf p = c :: more /\ c <> 48 /\ isDigit c = true.
Proof.
  unfold digitsOf.
  assert (E : Pos.to_uint p = Decimal.unorm (Pos.to_uint p)).
  { rewrite <- DecimalPos.Unsigned.to_of, DecimalPos.Unsigned.of_to.
    reflexivity. }
  pose proof (DecimalPos.Unsigned.to_uint_nonzero p) as Hz.
  pose proof (nzhead_not_D0 (Pos.to_uint p)) as Hh.
  unfold Decimal.unorm in E.
  destruct (Decimal.nzhead (Pos.to_uint p)) eqn:En;
    try contradiction; rewrite E; cbn [uint_digits];
    try (eexists; eexists; split; [reflexivity|]; split;
         [discriminate | reflexivity]).
Qed.

Lemma succ_pos_pred p : N.succ_pos (N.pred (Npos p)) = p.
Proof.
  destruct (N.pred (N.pos p)) eqn:E.
  - assert (p = 1%positive) by lia. subst. reflexivity.
  - simpl. lia.
Qed.

Lemma isTerminator_notDigit rest :
  isTerminator rest = true -> notDigitNext rest = true.
Proof.
  destruct rest as [|c rest]; [reflexivity|]. simpl.
  destruct (isDigit c); [discriminate | reflexivity].
Qed.

Lemma readNumber_literal (negative : bool) (c : CodeUnit)
  (more frac : jsstring) (expo : option (bool * jsstring)) (rest : jsstring) :
  forallb isDigit (c :: more) = true ->
  c <> 48 \/ more = [] ->
  forallb isDigit frac = true ->
  match expo with
  | Some (_, e) => forallb isDigit e = true /\ e <> []
  | None => True
  end ->
  isTerminator rest = true ->
  readNumber ((if negative then [45] else []) ++ (c :: more)
              ++ fractionText frac ++ exponentText expo ++ rest)
  = Some (NumberOfLiteral negative (c :: more) frac (exponentValue expo),
          rest).
Proof.
  intros Hint Hlead Hfrac Hexp Hrest.
  pose proof (isTerminator_notDigit _ Hrest) as Hrest'.
  assert (Hc : isDigit c = true).
  { cbn [forallb] in Hint. apply andb_true_iff in Hint. tauto. }
  assert (Hc45 : (c =? 45) = false).
  { unfold isDigit in Hc. apply andb_true_iff in Hc as [H1 H2].
    apply N.leb_le in H1. apply N.eqb_neq. lia. }
  assert (Htail2 : notDigitNext (exponentText expo ++ rest) = true).
  { destruct expo as [[minus e]|]; [reflexivity | exact Hrest']. }
  assert (Htail : notDigitNext (fractionText frac ++ exponentText expo ++ rest)
                  = true).
  { destruct frac; [exact Htail2 | reflexivity]. }
  assert (Hlead' : (c =? 48) && negb (length more =? 0)%nat = false).
  { destruct Hlead as [H| ->].
    - apply N.eqb_neq in H. rewrite H. reflexivity.
    - apply andb_false_r. }
  unfold readNumber.
  assert (Hdigits : readDigits ((c :: more) ++ fractionText frac
                                ++ exponentText expo ++ rest) []
                    = (c :: more, fractionText frac
                                  ++ exponentText expo ++ rest)).
  { apply (readDigits_app (c :: more) Hint _ [] Htail). }
  destruct negative; cbn [app] in *;
    [change (45 =? 45) with true | rewrite Hc45]; cbv iota;
    rewrite Hdigits; cbv iota; rewrite Hlead'.
  all: match goal with
       | |- match ?X with _ => _ end = _ =>
           assert (E : X = Some (frac, exponentText expo ++ rest));
             [| rewrite E; clear E]
       end.
  all: try (destruct frac as [|f frac];
            [ cbn [fractionText app];
              destruct expo as [[minus e]|]; [reflexivity|];
              cbn [exponentText app]; destruct rest as [|r0 rest];
              [reflexivity|];
              simpl in Hrest; apply negb_true_iff in Hrest;
              apply orb_false_iff in Hrest as [Hrest H69];
              apply orb_false_iff in Hrest as [Hrest H101];
              apply orb_false_iff in Hrest as [Hrest H46];
              rewrite H46; reflexivity
            | cbn [fractionText app]; change (46 =? 46) with true; cbv iota;
              change (f :: frac ++ exponentText expo ++ rest)
                with ((f :: frac) ++ exponentText expo ++ rest);
              rewrite (readDigits_app (f :: frac) Hfrac _ [] Htail2);
              reflexivity ]).
  all: destruct expo as [[minus e]|];
    [ destruct Hexp as [He Hne]; cbn [exponentText app exponentValue];
      change (101 =? 101) with true; cbn [orb];
      destruct minus; cbn [app];
      [change (45 =? 45) with true
      | change (43 =? 45) with false; change (43 =? 43) with true];
      cbv iota; rewrite (readDigits_app e He rest [] Hrest');
      cbn [app]; destruct e; [contradiction| |contradiction|]; reflexivity
    | cbn [exponentText app exponentValue];
      destruct rest as [|r0 rest]; [reflexivity|];
      simpl in Hrest; apply negb_true_iff in Hrest;
      apply orb_false_iff in Hrest as [Hrest H69];
      apply orb_false_iff in Hrest as [Hrest H101];
      rewrite H101, H69; reflexivity ].
Qed.

Lemma NumberOfLiteral_value negative int frac exp s j n :
  digitsValue (int ++ frac) = Npos s * 10 ^ N.of_nat j ->
  Npos s mod 10 <> 0 ->
  (j <= length (int ++ frac))%nat ->
  n = (Z.of_nat (length (digitsOf s)) + Z.of_nat j + exp
       - Z.of_nat (length frac))%Z ->
  (-323 <= n <= 309)%Z ->
  NumberOfLiteral negative int frac exp = Finite negative s n.
Proof.
  intros Hm Hs Hj En Hn. unfold NumberOfLiteral. rewrite Hm.
  assert (Hpos : exists q, Npos s * 10 ^ N.of_nat j = Npos q).
  { assert (10 ^ N.of_nat j <> 0) by (apply N.pow_nonzero; lia).
    destruct (Npos s * 10 ^ N.of_nat j) eqn:E; [lia | eauto]. }
  destruct Hpos as (q & Hq). rewrite Hq, <- Hq.
  rewrite (stripZeros_power (Npos s) j Hs _ 0%Z Hj).
  rewrite succ_pos_pred. cbn [Z.add].
  rewrite <- En.
  destruct (Z.ltb_spec 309 n); [lia|].
  destruct (Z.ltb_spec n (-323)); [lia|]. reflexivity.
Qed.

Lemma forallb_app_true {A} (f : A -> bool) a b :
  forallb f a = true -> forallb f b = true -> forallb f (a ++ b) = true.
Proof. intros Ha Hb. rewrite forallb_app, Ha, Hb. reflexivity. Qed.

Lemma forallb_firstn {A} (f : A -> bool) n l :
  forallb f l = true -> forallb f (firstn n l) = true.
Proof.
  revert n. induction l as [|x l IH]; intros [|n] H; try reflexivity.
  cbn [forallb firstn] in *. apply andb_true_iff in H as [Hx H].
  rewrite Hx, IH by exact H. reflexivity.
Qed.

Lemma forallb_skipn {A} (f : A -> bool) n l :
  forallb f l = true -> forallb f (skipn n l) = true.
Proof.
  revert n. induction l as [|x l IH]; intros [|n] H; try reflexivity.
  - exact H.
  - cbn [forallb skipn] in *. apply andb_true_iff in H as [Hx H].
    apply IH, H.
Qed.

Lemma length_zeros n : length (zeros n) = Z.to_nat n.
Proof. apply repeat_length. Qed.

Lemma digitsValue_eq d : digitsValue d = digitsFrom 0 d.
Proof. reflexivity. Qed.

Ltac same_text :=
  repeat (progress (repeat rewrite <- app_comm_cons;
                    repeat rewrite <- app_assoc; cbn [app]));
  reflexivity.

Lemma readNumber_shape (text : jsstring) (negative : bool) (c : CodeUnit)
  (more frac : jsstring) (expo : option (bool * jsstring))
  (rest : jsstring) (x : Number) :
  text = (if negative then [45] else []) ++ (c :: more)
         ++ fractionText frac ++ exponentText expo ++ rest ->
  forallb isDigit (c :: more) = true ->
  c <> 48 \/ more = [] ->
  forallb isDigit frac = true ->
  match expo with
  | Some (_, e) => forallb isDigit e = true /\ e <> []
  | None => True
  end ->
  isTerminator rest = true ->
  NumberOfLiteral negative (c :: more) frac (exponentValue expo) = x ->
  readNumber text = Some (x, rest).
Proof.
  intros -> H1 H2 H3 H4 H5 <-. apply readNumber_literal; assumption.
Qed.

Lemma readNumber_NumberToString x rest :
  isCanonicalNumber x = true ->
  isTerminator rest = true ->
  readNumber (NumberToString x ++ rest) = Some (x, rest).
Proof.
  intros Hx Hrest. destruct x as [|negative s n|negative];
    [| |discriminate Hx].
  - exact (readNumber_literal false 48 [] [] None rest eq_refl
             (or_intror eq_refl) eq_refl I Hrest).
  - cbn [isCanonicalNumber] in Hx.
    apply andb_true_iff in Hx as [Hx Hhi].
    apply andb_true_iff in Hx as [Hs Hlo].
    apply negb_true_iff, N.eqb_neq in Hs.
    apply Z.leb_le in Hlo, Hhi.
    destruct (digitsOf_head s) as (c & more & Hd & Hc48 & Hc).
    pose proof (digitsOf_are_digits s) as Hdigits.
    pose proof (digitsValue_digitsOf s) as Hvalue.
    unfold digitsValue in Hvalue. fold (digitsFrom 0 (digitsOf s)) in Hvalue.
    assert (Hmore : forallb isDigit more = true).
    { rewrite Hd in Hdigits. cbn [forallb] in Hdigits.
      apply andb_true_iff in Hdigits. tauto. }
    cbn [NumberToString]. cbv zeta.
    change (js "-") with [45]. change (js "+") with [43].
    change (js ".") with [46]. change (js "e") with [101].
    change (js "0.") with [48; 46].
    remember (length (digitsOf s)) as k eqn:Ek.
    assert (Ek' : k = S (length more)) by (rewrite Ek, Hd; reflexivity).
    destruct ((Z.of_nat k <=? n)%Z && (n <=? 21)%Z) eqn:C1.
    { apply andb_true_iff in C1 as [Hk H21].
      apply Z.leb_le in Hk, H21.
      apply readNumber_shape
        with (negative := negative) (c := c)
             (more := more ++ zeros (n - Z.of_nat k))
             (frac := []) (expo := None); auto.
      - rewrite Hd. cbn [fractionText exponentText]. same_text.
      - change (c :: more ++ ?z) with ((c :: more) ++ z). rewrite <- Hd.
        apply forallb_app_true; [exact Hdigits | apply zeros_are_digits].
      - apply NumberOfLiteral_value
          with (j := Z.to_nat (n - Z.of_nat k)).
        + rewrite app_nil_r. unfold digitsValue.
          change (c :: more ++ ?z) with ((c :: more) ++ z).
          rewrite <- Hd.
          fold (digitsFrom 0 (digitsOf s ++ zeros (n - Z.of_nat k))).
          rewrite digitsFrom_app, Hvalue. apply digitsFrom_zeros.
        + exact Hs.
        + rewrite app_nil_r. cbn [length]. rewrite length_app, length_zeros.
          lia.
        + cbn [exponentValue length]. rewrite <- Ek. lia.
        + lia. }
    destruct ((0 <? n)%Z && (n <=? 21)%Z) eqn:C2.
    { apply andb_true_iff in C2 as [H0 H21].
      apply Z.ltb_lt in H0. apply Z.leb_le in H21.
      assert (Hk : (n < Z.of_nat k)%Z).
      { apply andb_false_iff in C1 as [C1|C1];
          [apply Z.leb_gt in C1; exact C1 | apply Z.leb_gt in C1; lia]. }
      destruct (Z.to_nat n) as [|nn] eqn:En; [lia|].
      assert (Hfrac : skipn nn more <> []).
      { intros Ef.
        assert (H : length (skipn nn more) = 0%nat) by (rewrite Ef; reflexivity).
        rewrite length_skipn in H. lia. }
      apply readNumber_shape
        with (negative := negative) (c := c) (more := firstn nn more)
             (frac := skipn nn more) (expo := None); auto.
      - rewrite Hd. cbn [firstn skipn exponentText app].
        destruct (skipn nn more); [contradiction|].
        cbn [fractionText]. same_text.
      - cbn [forallb]. rewrite Hc. apply forallb_firstn, Hmore.
      - apply forallb_skipn, Hmore.
      - apply NumberOfLiteral_value with (j := 0%nat).
        + change ((c :: firstn nn more) ++ skipn nn more)
            with (c :: (firstn nn more ++ skipn nn more)).
          rewrite firstn_skipn, <- Hd. unfold digitsValue.
          fold (digitsFrom 0 (digitsOf s)). rewrite Hvalue. simpl. lia.
        + exact Hs.
        + lia.
        + rewrite length_skipn, <- Ek. cbn [exponentValue]. lia.
        + lia. }
    destruct ((-6 <? n)%Z && (n <=? 0)%Z) eqn:C3.
    { apply andb_true_iff in C3 as [H6 H0].
      apply Z.ltb_lt in H6. apply Z.leb_le in H0.
      assert (Hfrac : zeros (- n) ++ digitsOf s <> []).
      { rewrite Hd. destruct (zeros (- n)); discriminate. }
      apply readNumber_shape
        with (negative := negative) (c := 48) (more := [])
             (frac := zeros (- n) ++ digitsOf s) (expo := None); auto.
      - cbn [exponentText app].
        destruct (zeros (- n) ++ digitsOf s) eqn:Ef; [contradiction|].
        cbn [fractionText]. rewrite <- Ef. same_text.
      - apply forallb_app_true; [apply zeros_are_digits | exact Hdigits].
      - apply NumberOfLiteral_value with (j := 0%nat).
        + rewrite digitsValue_eq, !digitsFrom_app. unfold zeros at 1.
          rewrite digitsFrom_zeros.
          change (digitsFrom 0 [48]) with 0. rewrite N.mul_0_l, Hvalue. lia.
        + exact Hs.
        + lia.
        + rewrite length_app, length_zeros, <- Ek.
          cbn [exponentValue]. lia.
        + lia. }
    assert (Hn : (21 < n \/ n <= -6)%Z).
    { apply andb_false_iff in C2. apply andb_false_iff in C3.
      rewrite !Z.ltb_ge, !Z.leb_gt in *. lia. }
    apply readNumber_shape
      with (negative := negative) (c := c) (more := [])
           (frac := more)
           (expo := Some ((n - 1 <? 0)%Z,
                          digitsOf (Z.to_pos (Z.abs (n - 1))))); auto.
    + rewrite Hd.
      destruct more; cbn [fractionText exponentText];
        destruct (n - 1 <? 0)%Z; same_text.
    + cbn [forallb]. rewrite Hc. reflexivity.
    + split; [apply digitsOf_are_digits|].
      destruct (digitsOf_head (Z.to_pos (Z.abs (n - 1)))) as (? & ? & -> & _).
      discriminate.
    + apply NumberOfLiteral_value with (j := 0%nat).
      * change ([c] ++ more) with (c :: more). rewrite <- Hd.
        unfold digitsValue. fold (digitsFrom 0 (digitsOf s)).
        rewrite Hvalue. simpl. lia.
      * exact Hs.
      * lia.
      * cbn [exponentValue]. rewrite digitsValue_digitsOf, <- Ek.
        destruct (Z.ltb_spec (n - 1) 0); lia.
      * lia.
Qed.

(** ** Values *)

Lemma readNumber_head s r :
  readNumber s = Some r ->
  exists c tail, s = c :: tail /\ (c = 45 \/ isDigit c = true).
Proof.
  destruct s as [|c tail]; [discriminate|]. intros H.
  exists c, tail. split; [reflexivity|].
  destruct (N.eqb_spec c 45) as [->|Hc]; [left; reflexivity|].
  right. destruct (isDigit c) eqn:E; [reflexivity|].
  exfalso. unfold readNumber in H.
  apply N.eqb_neq in Hc. rewrite Hc in H.
  cbn [readDigits] in H. rewrite E in H. discriminate H.
Qed.

Lemma NumberToString_head x :
  isCanonicalNumber x = true ->
  exists c tail, NumberToString x = c :: tail /\ (c = 45 \/ isDigit c = true).
Proof.
  intros H.
  pose proof (readNumber_NumberToString x [] H eq_refl) as E.
  rewrite app_nil_r in E. exact (readNumber_head _ _ E).
Qed.

Lemma stringify_head v :
  isCanonical v = true ->
  exists c tail, JSON_stringify v = c :: tail /\ opens c.
Proof.
  unfold opens.
  destruct v as [|b|x|s|elements|properties]; intros H; cbn [JSON_stringify].
  - eexists; eexists; split; [reflexivity|]. repeat split; discriminate.
  - destruct b; eexists; eexists; (split; [reflexivity|]);
      repeat split; discriminate.
  - cbn [isCanonical] in H.
    destruct (NumberToString_head x H) as (c & tail & E & Hc).
    destruct x; [| |discriminate H]; rewrite E;
      exists c, tail; (split; [reflexivity|]);
      (destruct Hc as [->|Hc];
       [repeat split; discriminate|]);
      unfold isDigit in Hc; apply andb_true_iff in Hc as [H1 H2];
      apply N.leb_le in H1, H2; unfold isJSONSpace;
      (repeat split; [|lia|lia]);
      repeat (apply orb_false_iff; split); apply N.eqb_neq; lia.
  - eexists; eexists; split; [reflexivity|]. repeat split; discriminate.
  - eexists; eexists; split; [reflexivity|]. repeat split; discriminate.
  - eexists; eexists; split; [reflexivity|]. repeat split; discriminate.
Qed.

Lemma skipSpace_opens (c : N) (tail : list N) :
  isJSONSpace c = false -> skipSpace (c :: tail) = c :: tail.
Proof. intros H. cbn [skipSpace]. rewrite H. reflexivity. Qed.

Lemma readValue_number fuel (c : N) (tail : list N) :
  c = 45 \/ isDigit c = true ->
  readValue (S fuel) (c :: tail)
  = match readNumber (c :: tail) with
    | Some (x, r) => Some (JNum x, r)
    | None => None
    end.
Proof.
  intros Hc.
  assert (H : isJSONSpace c = false /\ (c =? 123) = false /\ (c =? 91) = false
              /\ (c =? 34) = false /\ (c =? 116) = false
              /\ (c =? 102) = false /\ (c =? 110) = false).
  { destruct Hc as [->|Hc]; [repeat split; reflexivity|].
    unfold isDigit in Hc. apply andb_true_iff in Hc as [H1 H2].
    apply N.leb_le in H1, H2. unfold isJSONSpace.
    repeat split; try (apply N.eqb_neq; lia).
    repeat (apply orb_false_iff; split); apply N.eqb_neq; lia. }
  destruct H as (H0 & H1 & H2 & H3 & H4 & H5 & H6).
  cbn [readValue skipSpace]. rewrite H0, H1, H2, H3, H4, H5, H6.
  reflexivity.
Qed.

Lemma isTerminator_comma rest : isTerminator (44 :: rest) = true.
Proof. reflexivity. Qed.

Lemma isTerminator_bracket rest : isTerminator (93 :: rest) = true.
Proof. reflexivity. Qed.

Lemma isTerminator_brace rest : isTerminator (125 :: rest) = true.
Proof. reflexivity. Qed.

Lemma readElements_join elements :
  Forall ReadsBack elements ->
  forallb isCanonical elements = true ->
  elements <> [] ->
  forall fuel acc rest,
    (list_sum (map (fun e => S (weight e)) elements) <= fuel)%nat ->
    readElements fuel
      (join (js ",") (map JSON_stringify elements) ++ 93 :: rest) acc
    = Some (JArr (acc ++ elements), rest).
Proof.
  induction 1 as [|e elements He _ IH]; intros Hc Hne fuel acc rest Hf;
    [contradiction|].
  cbn [forallb] in Hc. apply andb_true_iff in Hc as [Hce Hc].
  change (S (weight e) + list_sum (map (fun e => S (weight e)) elements)
          <= fuel)%nat in Hf.
  destruct fuel as [|fuel]; [lia|].
  destruct elements as [|e' elements].
  - cbn [map join]. cbn [readElements].
    rewrite (He Hce fuel (93 :: rest)) by (try reflexivity; lia).
    reflexivity.
  - change (join (js ",") (map JSON_stringify (e :: e' :: elements)))
      with (JSON_stringify e ++ [44]
            ++ join (js ",") (map JSON_stringify (e' :: elements))).
    rewrite <- !app_assoc. cbn [readElements].
    change ([44] ++ ?x) with (44 :: x).
    rewrite (He Hce fuel) by (try reflexivity; lia).
    cbn [skipSpace isJSONSpace N.eqb orb].
    change (isJSONSpace 44) with false. cbv iota.
    rewrite IH by (try discriminate; try assumption; lia).
    rewrite <- app_assoc. reflexivity.
Qed.

Lemma streq_sym a b : streq a b = streq b a.
Proof.
  destruct (streq a b) eqn:E.
  - apply streq_spec in E. subst. symmetry. apply streq_spec. reflexivity.
  - apply streq_false in E. symmetry. apply streq_false. congruence.
Qed.

Lemma setProperty_fresh k v acc :
  existsb (streq k) (map fst acc) = false ->
  setProperty k v acc = acc ++ [(k, v)].
Proof.
  induction acc as [|[k' v'] acc IH]; intros H; [reflexivity|].
  cbn [map fst existsb] in H. apply orb_false_iff in H as [Hk H].
  cbn [setProperty app]. rewrite Hk, IH by exact H. reflexivity.
Qed.

Lemma distinct_fresh (a : list jsstring) k b :
  distinct (a ++ k :: b) = true -> existsb (streq k) a = false.
Proof.
  induction a as [|x a IH]; intros H; [reflexivity|].
  cbn [app distinct] in H. apply andb_true_iff in H as [Hx H].
  apply negb_true_iff in Hx. rewrite existsb_app in Hx.
  apply orb_false_iff in Hx as [_ Hx]. cbn [existsb] in Hx.
  apply orb_false_iff in Hx as [Hx _].
  cbn [existsb]. rewrite streq_sym, Hx, IH by exact H. reflexivity.
Qed.

Lemma readMembers_join properties :
  Forall (fun kv => ReadsBack (snd kv)) properties ->
  forallb (fun kv : jsstring * JSON => isCanonical (snd kv)) properties
  = true ->
  properties <> [] ->
  forall fuel acc rest,
    distinct (map fst (acc ++ properties)) = true ->
    (list_sum (map (fun kv : jsstring * JSON => S (weight (snd kv)))
                 properties) <= fuel)%nat ->
    readMembers fuel (join (js ",") (map member properties) ++ 125 :: rest)
      acc
    = Some (JObj (acc ++ properties), rest).
Proof.
  induction 1 as [|[k x] properties Hx _ IH]; intros Hc Hne fuel acc rest Hd Hf;
    [contradiction|].
  cbn [forallb snd] in Hc. apply andb_true_iff in Hc as [Hcx Hc].
  cbn [snd] in Hx.
  change (S (weight x)
          + list_sum (map (fun kv : jsstring * JSON => S (weight (snd kv)))
                        properties) <= fuel)%nat in Hf.
  destruct fuel as [|fuel]; [lia|].
  assert (Hfresh : setProperty k x acc = acc ++ [(k, x)]).
  { apply setProperty_fresh. rewrite map_app in Hd. cbn [map fst] in Hd.
    exact (distinct_fresh _ _ _ Hd). }
  assert (Hread : forall tail,
             isTerminator tail = true ->
             readMembers (S fuel) (member (k, x) ++ tail) acc
             = match skipSpace tail with
               | 44 :: r' => readMembers fuel r' (acc ++ [(k, x)])
               | 125 :: r' => Some (JObj (acc ++ [(k, x)]), r')
               | _ => None
               end).
  { intros tail Ht. unfold member, QuoteJSONString.
    change (js ":") with [58]. rewrite <- !app_assoc.
    cbn [app readMembers skipSpace].
    change (isJSONSpace 34) with false. cbv iota.
    rewrite <- (app_assoc (QuoteBody k)). cbn [app].
    rewrite readChars_QuoteBody. cbn [app skipSpace].
    change (isJSONSpace 58) with false. cbv iota.
    rewrite (Hx Hcx fuel tail) by (try assumption; lia).
    rewrite Hfresh. reflexivity. }
  destruct properties as [|kv' properties].
  - cbn [map join]. rewrite Hread by reflexivity. reflexivity.
  - change (join (js ",") (map member ((k, x) :: kv' :: properties)))
      with (member (k, x) ++ [44]
            ++ join (js ",") (map member (kv' :: properties))).
    rewrite <- !app_assoc. change ([44] ++ ?y) with (44 :: y).
    rewrite Hread by reflexivity.
    cbn [skipSpace]. change (isJSONSpace 44) with false. cbv iota.
    rewrite IH; try discriminate; try assumption; try lia.
    + rewrite <- app_assoc. reflexivity.
    + rewrite <- app_assoc. exact Hd.
Qed.

Lemma readValue_stringify v : ReadsBack v.
Proof.
  induction v as [|b|x|s|elements IH|properties IH] using JSON_induction;
    intros Hc fuel rest Hf Hrest; (destruct fuel as [|fuel]; [simpl in Hf; lia|]).
  - reflexivity.
  - destruct b; reflexivity.
  - cbn [isCanonical] in Hc.
    assert (E : JSON_stringify (JNum x) = NumberToString x).
    { destruct x; [reflexivity | reflexivity | discriminate Hc]. }
    rewrite E.
    destruct (NumberToString_head x Hc) as (c & tail & Et & Hhead).
    pose proof (readNumber_NumberToString x rest Hc Hrest) as Hread.
    rewrite Et in *. cbn [app] in *.
    etransitivity; [apply readValue_number, Hhead|].
    unfold CodeUnit, jsstring in *. rewrite Hread. reflexivity.
  - cbn [JSON_stringify]. unfold QuoteJSONString.
    cbn [app]. rewrite <- app_assoc. cbn [app readValue skipSpace].
    change (isJSONSpace 34) with false. cbv iota.
    change (34 =? 123) with false. change (34 =? 91) with false.
    change (34 =? 34) with true. cbv iota.
    rewrite readChars_QuoteBody. reflexivity.
  - cbn [isCanonical] in Hc.
    destruct elements as [|e elements]; [reflexivity|].
    cbn [JSON_stringify]. change (js "[") with [91]. change (js "]") with [93].
    rewrite <- !app_assoc. cbn [app readValue skipSpace].
    change (isJSONSpace 91) with false. cbv iota.
    change (91 =? 123) with false. change (91 =? 91) with true. cbv iota.
    assert (Hhead : exists c tail,
               join (js ",") (map JSON_stringify (e :: elements))
               ++ 93 :: rest = c :: tail /\ opens c).
    { cbn [forallb] in Hc. apply andb_true_iff in Hc as [Hce _].
      destruct (stringify_head e Hce) as (c & tail & E & Ho).
      destruct elements as [|e' elements].
      - cbn [map join]. rewrite E.
        exists c, (tail ++ 93 :: rest). split; [reflexivity | exact Ho].
      - change (join (js ",") (map JSON_stringify (e :: e' :: elements)))
          with (JSON_stringify e ++ js ","
                ++ join (js ",") (map JSON_stringify (e' :: elements))).
        rewrite E. eexists c, _. split; [reflexivity | exact Ho]. }
    destruct Hhead as (c & tail & E & Hs & H93 & _).
    unfold CodeUnit, jsstring in *.
    rewrite E, (skipSpace_opens c tail Hs).
    transitivity (readElements fuel (c :: tail) []).
    { destruct c as [|p]; [reflexivity|].
      do 7 (destruct p as [p|p|]; try reflexivity).
      exfalso. apply H93. reflexivity. }
    rewrite <- E.
    rewrite readElements_join; try assumption; try discriminate.
    + reflexivity.
    + exact (le_S_n _ _ Hf).
  - cbn [isCanonical] in Hc. apply andb_true_iff in Hc as [Hd Hc].
    destruct properties as [|kv properties]; [reflexivity|].
    cbn [JSON_stringify]. change (js "{") with [123]. change (js "}") with [125].
    rewrite <- !app_assoc. cbn [app readValue skipSpace].
    change (isJSONSpace 123) with false. cbv iota.
    change (123 =? 123) with true. cbv iota.
    destruct kv as [k x].
    assert (Hhead : exists tail,
               join (js ",") (map member ((k, x) :: properties))
               ++ 125 :: rest = 34 :: tail).
    { destruct properties as [|kv' properties].
      - cbn [map join]. unfold member, QuoteJSONString. eexists. reflexivity.
      - change (join (js ",") (map member ((k, x) :: kv' :: properties)))
          with (member (k, x) ++ js ","
                ++ join (js ",") (map member (kv' :: properties))).
        unfold member at 1, QuoteJSONString. eexists. reflexivity. }
    destruct Hhead as (tail & E).
    change (map (fun kv : jsstring * JSON =>
                   let (k, x) := kv in
                   QuoteJSONString k ++ js ":" ++ JSON_stringify x)
              ((k, x) :: properties))
      with (map member ((k, x) :: properties)).
    unfold CodeUnit, jsstring in *.
    rewrite E. cbn [skipSpace]. change (isJSONSpace 34) with false. cbv iota.
    rewrite <- E.
    rewrite readMembers_join; try assumption; try discriminate.
    + reflexivity.
    + exact (le_S_n _ _ Hf).
Qed.

(** ** Enough fuel *)

Lemma length_join_unit (c : N) (pieces : list (list N)) :
  pieces <> [] ->
  S (length (join [c] pieces))
  = list_sum (map (fun p => S (length p)) pieces).
Proof.
  induction pieces as [|p pieces IH]; intros H; [contradiction|].
  destruct pieces as [|q pieces].
  - unfold list_sum. cbn [join map fold_right].
    unfold CodeUnit, jsstring in *. lia.
  - change (join [c] (p :: q :: pieces))
      with (p ++ [c] ++ join [c] (q :: pieces)).
    change (list_sum (map (fun p => S (length p)) (p :: q :: pieces)))
      with (S (length p)
            + list_sum (map (fun p => S (length p)) (q :: pieces)))%nat.
    rewrite <- IH by discriminate. rewrite !length_app. cbn [length].
    unfold CodeUnit, jsstring in *. lia.
Qed.

Lemma list_sum_le {A} (f g : A -> nat) l :
  Forall (fun x => (f x <= g x)%nat) l ->
  (list_sum (map f l) <= list_sum (map g l))%nat.
Proof.
  induction 1 as [|x l Hx _ IH]; [reflexivity|].
  change (f x + list_sum (map f l) <= g x + list_sum (map g l))%nat. lia.
Qed.

Lemma weight_le_length v :
  isCanonical v = true -> (weight v <= length (JSON_stringify v))%nat.
Proof.
  induction v as [|b|x|s|elements IH|properties IH] using JSON_induction;
    intros Hc.
  - simpl. lia.
  - destruct b; simpl; lia.
  - destruct (stringify_head (JNum x) Hc) as (c & tail & -> & _).
    simpl. lia.
  - simpl. lia.
  - cbn [isCanonical] in Hc.
    destruct elements as [|e elements]; [simpl; lia|].
    cbn [JSON_stringify weight]. change (js "[") with [91].
    change (js "]") with [93]. change (js ",") with [44].
    rewrite !length_app. cbn [length].
    pose proof (length_join_unit 44 (map JSON_stringify (e :: elements))
                  ltac:(discriminate)) as E.
    rewrite map_map in E.
    assert (H : (list_sum (map (fun e => S (weight e)) (e :: elements))
                 <= list_sum (map (fun x => S (length (JSON_stringify x)))
                                (e :: elements)))%nat).
    { apply list_sum_le. rewrite Forall_forall in *. intros y Hy.
      rewrite forallb_forall in Hc. specialize (IH y Hy (Hc y Hy)). lia. }
    unfold CodeUnit, jsstring in *. lia.
  - cbn [isCanonical] in Hc. apply andb_true_iff in Hc as [_ Hc].
    destruct properties as [|kv properties]; [simpl; lia|].
    cbn [JSON_stringify weight]. change (js "{") with [123].
    change (js "}") with [125]. change (js ",") with [44].
    rewrite !length_app. cbn [length].
    change (map (fun kv : jsstring * JSON =>
                   let (k, x) := kv in
                   QuoteJSONString k ++ js ":" ++ JSON_stringify x)
              (kv :: properties))
      with (map member (kv :: properties)).
    pose proof (length_join_unit 44 (map member (kv :: properties))
                  ltac:(discriminate)) as E.
    rewrite map_map in E.
    assert (H : (list_sum (map (fun kv : jsstring * JSON =>
                                  S (weight (snd kv))) (kv :: properties))
                 <= list_sum (map (fun x => S (length (member x)))
                                (kv :: properties)))%nat).
    { apply list_sum_le. rewrite Forall_forall in *. intros y Hy.
      rewrite forallb_forall in Hc. specialize (IH y Hy (Hc y Hy)).
      destruct y as [k x]. cbn [snd] in *. unfold member.
      rewrite !length_app. lia. }
    unfold CodeUnit, jsstring in *. lia.
Qed.

Lemma JSON_parse_stringify v :
  isCanonical v = true -> JSON_parse (JSON_stringify v) = Normal v.
Proof.
  intros Hc. unfold JSON_parse.
  pose proof (readValue_stringify v Hc
                (2 * length (JSON_stringify v) + 2)%nat []) as H.
  rewrite app_nil_r in H. rewrite H; [reflexivity | | reflexivity].
  pose proof (weight_le_length v Hc). lia.
Qed.

(** ** Integers as numbers *)

Lemma digitsFrom_upper d :
  forallb isDigit d = true ->
  forall v, digitsFrom v d < (v + 1) * 10 ^ N.of_nat (length d).
Proof.
  induction d as [|c d IH]; intros Hd v.
  - simpl. lia.
  - cbn [forallb] in Hd. apply andb_true_iff in Hd as [Hc Hd].
    unfold isDigit in Hc. apply andb_true_iff in Hc as [H1 H2].
    apply N.leb_le in H1, H2.
    rewrite digitsFrom_cons. specialize (IH Hd (10 * v + (c - 48))).
    cbn [length]. rewrite Nnat.Nat2N.inj_succ, N.pow_succ_r'.
    assert (10 * v + (c - 48) + 1 <= (v + 1) * 10) by lia.
    nia.
Qed.

Lemma digitsFrom_lower d :
  forall v, v * 10 ^ N.of_nat (length d) <= digitsFrom v d.
Proof.
  induction d as [|c d IH]; intros v.
  - simpl. lia.
  - rewrite digitsFrom_cons. specialize (IH (10 * v + (c - 48))).
    cbn [length]. rewrite Nnat.Nat2N.inj_succ, N.pow_succ_r'.
    nia.
Qed.

Lemma digitsOf_magnitude p :
  10 ^ N.of_nat (pred (length (digitsOf p))) <= Npos p
  /\ Npos p < 10 ^ N.of_nat (length (digitsOf p)).
Proof.
  pose proof (digitsValue_digitsOf p) as E. rewrite digitsValue_eq in E.
  split.
  - destruct (digitsOf_head p) as (c & more & Hd & Hc & Hdigit).
    rewrite Hd in *. cbn [length pred]. rewrite digitsFrom_cons in E.
    pose proof (digitsFrom_lower more (10 * 0 + (c - 48))) as L.
    rewrite E in L.
    unfold isDigit in Hdigit. apply andb_true_iff in Hdigit as [H1 H2].
    apply N.leb_le in H1, H2.
    assert (1 <= 10 * 0 + (c - 48)) by lia.
    nia.
  - pose proof (digitsFrom_upper _ (digitsOf_are_digits p) 0) as U.
    rewrite E in U. lia.
Qed.

Lemma digitsOf_length p k :
  Npos p < 10 ^ N.of_nat k -> (length (digitsOf p) <= k)%nat.
Proof.
  intros H. destruct (digitsOf_magnitude p) as [L _].
  assert (Hlt : 10 ^ N.of_nat (pred (length (digitsOf p)))
                < 10 ^ N.of_nat k) by lia.
  apply N.pow_lt_mono_r_iff in Hlt; lia.
Qed.

Lemma stripZeros_spec fuel :
  forall m t,
  0 < m -> m < 10 ^ N.of_nat fuel ->
  exists s j,
    stripZeros fuel m t = (s, (t + Z.of_nat j)%Z) /\
    s mod 10 <> 0 /\ 0 < s /\ s <= m /\ (j <= fuel)%nat.
Proof.
  induction fuel as [|fuel IH]; intros m t Hm Hlt.
  - simpl in Hlt. lia.
  - cbn [stripZeros].
    destruct (N.eqb_spec (m mod 10) 0) as [Hz|Hz].
    + destruct (N.eqb_spec m 0); [lia|]. cbn [negb andb].
      assert (E : m = 10 * (m / 10)).
      { pose proof (N.div_mod m 10 ltac:(lia)). lia. }
      rewrite Nnat.Nat2N.inj_succ, N.pow_succ_r' in Hlt.
      destruct (IH (m / 10) (t + 1)%Z) as (s & j & Es & H1 & H2 & H3 & H4);
        [lia | lia |].
      exists s, (S j). rewrite Es. split; [f_equal; lia|].
      repeat split; try assumption; lia.
    + cbn [andb]. exists m, 0%nat. rewrite Z.add_0_r.
      repeat split; try assumption; lia.
Qed.

Lemma NumberOfN_canonical m :
  m < 10 ^ 16 -> isCanonicalNumber (Http.NumberOfN m) = true.
Proof.
  intros H. destruct m as [|p]; [reflexivity|].
  unfold Http.NumberOfN.
  destruct (digitsOf_magnitude p) as [_ U].
  destruct (stripZeros_spec (length (digitsOf p)) (Npos p) 0%Z)
    as (s & j & E & Hs & Hpos & Hle & Hj); [lia | exact U |].
  rewrite E. destruct s as [|q]; [lia|]. rewrite succ_pos_pred.
  cbn [isCanonicalNumber].
  assert (Hq : (length (digitsOf q) <= 16)%nat).
  { apply digitsOf_length. change (N.of_nat 16) with 16. lia. }
  assert (Hp : (length (digitsOf p) <= 16)%nat).
  { apply digitsOf_length. change (N.of_nat 16) with 16. lia. }
  apply N.eqb_neq in Hs. rewrite Hs. cbn [negb andb].
  apply andb_true_iff. split; apply Z.leb_le; lia.
Qed.

(** ** What is written is read back *)

Lemma AgentEvent_canonical Msg :
  isCanonicalMessage Msg = true -> isCanonical (AgentEvent Msg) = true.
Proof.
  unfold isCanonicalMessage, AgentEvent. intros H.
  destruct (content Msg) as [text|Blocks]; cbn [normalizedContent].
  - reflexivity.
  - cbn [isCanonical map fst snd forallb]. rewrite H. reflexivity.
Qed.

(** X7. Every line of the NDJSON document is JSON text that parses
    back to the event of its message, whatever characters the texts of
    the message hold: quotes, control characters and surrogates outside a
    pair are escaped, and the escapes are read back as the same code
    units. The content blocks are values as [JSON.parse] returns them. *)
Theorem X7_document_lines_parse_back (Messages : list Message) :
  forallb isCanonicalMessage Messages = true ->
  map JSON_parse (NDJSONLines (MessagesAsNDJSON Messages))
  = map (fun Msg => Normal (AgentEvent Msg)) (Turns Messages).
Proof.
  intros H. rewrite MessagesAsNDJSON_lines. fold (Turns Messages).
  rewrite map_map. apply map_ext_in. intros Msg HMsg.
  apply JSON_parse_stringify, AgentEvent_canonical.
  unfold Turns in HMsg. apply filter_In in HMsg as [HMsg _].
  rewrite forallb_forall in H. exact (H Msg HMsg).
Qed.

(** A text with a quote, a newline and a lone surrogate. *)
Lemma X7_document_lines_parse_back_witness :
  let Msg := {| role := js "user";
                content := TextContent (js "say " ++ [34; 10; 55357]) |} in
  map JSON_parse (NDJSONLines (MessagesAsNDJSON [Msg]))
  = [Normal (AgentEvent Msg)].
Proof.
  intros Msg. apply (X7_document_lines_parse_back [Msg]). reflexivity.
Defined.

Lemma ChunkObject_canonical now Delta Model :
  now < 10 ^ 16 ->
  isCanonical Model = true ->
  isCanonical (ChunkObject now Delta Model) = true.
Proof.
  intros Hnow HModel. unfold ChunkObject.
  cbn [isCanonical map fst snd forallb].
  rewrite HModel, NumberOfN_canonical.
  - reflexivity.
  - pose proof (N.Div0.div_le_upper_bound now 1000 now) as H.
    assert (now / 1000 <= now) by (apply N.Div0.div_le_upper_bound; lia).
    lia.
Qed.

(** X24. The payload of a server-sent event is JSON text in one line
    that parses back to the chunk it serializes, and the delta content
    read from it is the token, code unit by code unit. The clock is in
    the range of [Date.now()]; the model is a value as [JSON.parse]
    returns it. *)
Theorem X24_token_is_read_back (now : N) (Delta : jsstring) (Model : JSON) :
  now < 10 ^ 16 ->
  isCanonical Model = true ->
  exists payload,
    SSEChunk now Delta Model = js "data: " ++ payload ++ [LF; LF] /\
    NoNewline payload /\
    JSON_parse payload = Normal (ChunkObject now Delta Model) /\
    DeltaOf (ChunkObject now Delta Model) = Some Delta.
Proof.
  intros Hnow HModel.
  exists (JSON_stringify (ChunkObject now Delta Model)).
  split; [reflexivity|]. split; [apply NoNewline_JSON_stringify|].
  split; [|reflexivity].
  apply JSON_parse_stringify, ChunkObject_canonical; assumption.
Qed.

(** A token of two lines. *)
Lemma X24_token_is_read_back_witness :
  exists payload,
    SSEChunk 1700000000000 (js "a" ++ [LF] ++ js "b")
      (JStr (js "claude-code-proxy"))
    = js "data: " ++ payload ++ [LF; LF] /\
    NoNewline payload /\
    JSON_parse payload
    = Normal (ChunkObject 1700000000000 (js "a" ++ [LF] ++ js "b")
                (JStr (js "claude-code-proxy"))) /\
    DeltaOf (ChunkObject 1700000000000 (js "a" ++ [LF] ++ js "b")
               (JStr (js "claude-code-proxy")))
    = Some (js "a" ++ [LF] ++ js "b").
Proof.
  apply (X24_token_is_read_back 1700000000000 (js "a" ++ [LF] ++ js "b")
           (JStr (js "claude-code-proxy"))).
  - reflexivity.
  - reflexivity.
Defined.

(** X25. Both decoders read the text of an assistant event back from its
    serialized line, whatever the text holds and whatever else the event
    carries: for an event object of type [assistant] whose message has a
    content of plain text [Text], the line [JSON.stringify] writes is
    decoded to [Text], by the whole-output parse and, as one increment,
    by the streaming decoder. *)
Theorem X25_assistant_text_is_read_back
  (properties message : list (jsstring * JSON)) (Content : JSON)
  (Text : jsstring) :
  isCanonical (JObj properties) = true ->
  lookup (js "type") properties = Some (JStr (js "assistant")) ->
  lookup (js "message") properties = Some (JObj message) ->
  lookup (js "content") message = Some Content ->
  Content <> JNull ->
  ContentAsString Content = Normal Text ->
  let Line := JSON_stringify (JObj properties) in
  AssistantText Line = Normal (Some Text) /\
  TextExtractedFromStreamJSON (Line ++ [LF]) = Text /\
  LastText (onText (Line ++ [LF]) initial) = Text /\
  Tokens (onText (Line ++ [LF]) initial)
  = match Text with [] => [] | _ :: _ => [Text] end.
Proof.
  intros Hc Ht Hm Hcontent Hnull HText Line.
  assert (HA : AssistantText Line = Normal (Some Text)).
  { unfold AssistantText, Line. rewrite (JSON_parse_stringify _ Hc).
    cbn [bind Get]. rewrite Ht. cbn [bind isString].
    change (streq (js "assistant") (js "assistant")) with true. cbv iota.
    rewrite Hm. cbn [bind GetOptional isNullish Get]. rewrite Hcontent.
    cbn [bind]. destruct Content; try contradiction; rewrite HText;
      reflexivity. }
  split; [exact HA|].
  assert (HLF : Forall (fun l => ~ In LF l) [Line]).
  { constructor; [|constructor].
    apply NoNewline_not_In, NoNewline_JSON_stringify. }
  assert (HD : Line ++ [LF] = Document [Line]).
  { unfold Document. cbn [map concat]. rewrite app_nil_r. reflexivity. }
  rewrite HD. split.
  - rewrite TextExtractedFromStreamJSON_last, AssistantTexts_Document by exact HLF.
    unfold AssistantTexts. cbn [flat_map]. rewrite HA. reflexivity.
  - rewrite onText_spec. cbn [LineBuffer initial app].
    rewrite CompleteLines_Document, Remainder_Document by exact HLF.
    cbn [filter]. unfold Line at 1 3. rewrite notBlank_object.
    cbn [fold_left]. rewrite onLine_AssistantText, HA.
    cbn [LastText initial length].
    destruct Text as [|c Text]; split; reflexivity.
Qed.

(** A text block with a quote in its text. *)
Lemma X25_assistant_text_is_read_back_witness :
  let Content := JArr [JObj [(js "type", JStr (js "text"));
                             (js "text", JStr (js "say " ++ [34]))]] in
  AssistantText
    (JSON_stringify
       (JObj [(js "type", JStr (js "assistant"));
              (js "message", JObj [(js "content", Content)])]))
  = Normal (Some (js "say " ++ [34])).
Proof.
  intros Content.
  apply (X25_assistant_text_is_read_back
           [(js "type", JStr (js "assistant"));
            (js "message", JObj [(js "content", Content)])]
           [(js "content", Content)] Content (js "say " ++ [34])).
  - reflexivity.
  - reflexivity.
  - reflexivity.
  - reflexivity.
  - discriminate.
  - reflexivity.
Defined.

(** ** Indented JSON text *)

Lemma skipSpace_spaces (ws s : list N) :
  forallb isJSONSpace ws = true -> skipSpace (ws ++ s) = skipSpace s.
Proof.
  induction ws as [|c ws IH]; intros H; [reflexivity|].
  cbn [forallb] in H. apply andb_true_iff in H as [Hc H].
  cbn [app skipSpace]. rewrite Hc. apply IH, H.
Qed.

Lemma readValue_spaces fuel (ws s : list N) :
  forallb isJSONSpace ws = true ->
  readValue fuel (ws ++ s) = readValue fuel s.
Proof.
  intros H. destruct fuel as [|fuel]; [reflexivity|].
  cbn [readValue]. rewrite (skipSpace_spaces ws s H). reflexivity.
Qed.

Lemma isTerminator_spaces (c : N) (s : list N) :
  isJSONSpace c = true -> isTerminator (c :: s) = true.
Proof.
  unfold isJSONSpace, isTerminator, isDigit. intros H.
  repeat (apply orb_true_iff in H as [H|H]);
    apply N.eqb_eq in H; subst; reflexivity.
Qed.

Lemma readElements_indented elements inner :
  Forall ReadsBackIndented elements ->
  forallb isCanonical elements = true ->
  forallb isJSONSpace inner = true ->
  elements <> [] ->
  forall fuel acc (ws1 rest : list N),
    forallb isJSONSpace ws1 = true ->
    (list_sum (map (fun e => S (weight e)) elements) <= fuel)%nat ->
    readElements fuel
      ((LF :: inner)
       ++ join (js "," ++ [LF] ++ inner)
            (map (JSON_stringify_indented inner) elements)
       ++ ws1 ++ 93 :: rest) acc
    = Some (JArr (acc ++ elements), rest).
Proof.
  intros HF Hc Hinner.
  assert (Hws0 : forallb isJSONSpace (LF :: inner) = true).
  { cbn [forallb]. rewrite Hinner. reflexivity. }
  revert Hc.
  induction HF as [|e elements He _ IH]; intros Hc Hne fuel acc ws1 rest Hws1 Hf;
    [contradiction|].
  cbn [forallb] in Hc. apply andb_true_iff in Hc as [Hce Hc].
  change (S (weight e) + list_sum (map (fun e => S (weight e)) elements)
          <= fuel)%nat in Hf.
  destruct fuel as [|fuel]; [lia|].
  assert (Hend : isTerminator (ws1 ++ 93 :: rest) = true).
  { destruct ws1 as [|w ws1]; [reflexivity|].
    cbn [forallb] in Hws1. apply andb_true_iff in Hws1 as [Hw _].
    apply isTerminator_spaces, Hw. }
  cbn [readElements]. rewrite (readValue_spaces fuel _ _ Hws0).
  destruct elements as [|e' elements].
  - cbn [map join].
    rewrite (He Hce inner fuel (ws1 ++ 93 :: rest)) by (try assumption; lia).
    rewrite (skipSpace_spaces ws1 (93 :: rest) Hws1). reflexivity.
  - change (join (js "," ++ [LF] ++ inner)
              (map (JSON_stringify_indented inner) (e :: e' :: elements)))
      with (JSON_stringify_indented inner e
            ++ (js "," ++ [LF] ++ inner)
            ++ join (js "," ++ [LF] ++ inner)
                 (map (JSON_stringify_indented inner) (e' :: elements))).
    rewrite <- !app_assoc. change (js ",") with [44]. cbn [app].
    rewrite (He Hce inner fuel) by (try assumption; try reflexivity; lia).
    cbn [skipSpace]. change (isJSONSpace 44) with false. cbv iota.
    change (LF :: inner ++ ?x) with ((LF :: inner) ++ x).
    rewrite IH by (try discriminate; try assumption; lia).
    rewrite <- app_assoc. reflexivity.
Qed.

Lemma readMembers_indented properties inner :
  Forall (fun kv => ReadsBackIndented (snd kv)) properties ->
  forallb (fun kv : jsstring * JSON => isCanonical (snd kv)) properties
  = true ->
  forallb isJSONSpace inner = true ->
  properties <> [] ->
  forall fuel acc (ws1 rest : list N),
    forallb isJSONSpace ws1 = true ->
    distinct (map fst (acc ++ properties)) = true ->
    (list_sum (map (fun kv : jsstring * JSON => S (weight (snd kv)))
                 properties) <= fuel)%nat ->
    readMembers fuel
      ((LF :: inner)
       ++ join (js "," ++ [LF] ++ inner)
            (map (memberIndented inner) properties)
       ++ ws1 ++ 125 :: rest) acc
    = Some (JObj (acc ++ properties), rest).
Proof.
  intros HF Hc Hinner.
  assert (Hws0 : forallb isJSONSpace (LF :: inner) = true).
  { cbn [forallb]. rewrite Hinner. reflexivity. }
  revert Hc.
  induction HF as [|[k x] properties Hx _ IH];
    intros Hc Hne fuel acc ws1 rest Hws1 Hd Hf; [contradiction|].
  cbn [forallb snd] in Hc. apply andb_true_iff in Hc as [Hcx Hc].
  cbn [snd] in Hx.
  change (S (weight x)
          + list_sum (map (fun kv : jsstring * JSON => S (weight (snd kv)))
                        properties) <= fuel)%nat in Hf.
  destruct fuel as [|fuel]; [lia|].
  assert (Hend : isTerminator (ws1 ++ 125 :: rest) = true).
  { destruct ws1 as [|w ws1]; [reflexivity|].
    cbn [forallb] in Hws1. apply andb_true_iff in Hws1 as [Hw _].
    apply isTerminator_spaces, Hw. }
  assert (Hfresh : setProperty k x acc = acc ++ [(k, x)]).
  { apply setProperty_fresh. rewrite map_app in Hd. cbn [map fst] in Hd.
    exact (distinct_fresh _ _ _ Hd). }
  assert (Hread : forall tail : list N,
             isTerminator tail = true ->
             readMembers (S fuel)
               ((LF :: inner) ++ memberIndented inner (k, x) ++ tail) acc
             = match skipSpace tail with
               | 44 :: r' => readMembers fuel r' (acc ++ [(k, x)])
               | 125 :: r' => Some (JObj (acc ++ [(k, x)]), r')
               | _ => None
               end).
  { intros tail Ht. cbn [readMembers].
    rewrite (skipSpace_spaces _ _ Hws0).
    unfold memberIndented, QuoteJSONString.
    change (js ": ") with [58; 32].
    cbn [app skipSpace]. change (isJSONSpace 34) with false. cbv iota.
    rewrite <- !app_assoc. cbn [app].
    rewrite readChars_QuoteBody. cbn [app skipSpace].
    change (isJSONSpace 58) with false. cbv iota.
    change (32 :: Http.JSON_stringify_indented inner x ++ tail)
      with ([32] ++ Http.JSON_stringify_indented inner x ++ tail).
    rewrite (readValue_spaces fuel [32] _ eq_refl).
    rewrite (Hx Hcx inner fuel tail) by (try assumption; lia).
    rewrite Hfresh. reflexivity. }
  destruct properties as [|kv' properties].
  - cbn [map join]. rewrite Hread by exact Hend.
    rewrite (skipSpace_spaces ws1 (125 :: rest) Hws1). reflexivity.
  - change (join (js "," ++ [LF] ++ inner)
              (map (memberIndented inner) ((k, x) :: kv' :: properties)))
      with (memberIndented inner (k, x)
            ++ (js "," ++ [LF] ++ inner)
            ++ join (js "," ++ [LF] ++ inner)
                 (map (memberIndented inner) (kv' :: properties))).
    rewrite <- !app_assoc. change (js ",") with [44].
    change ([44] ++ ?y) with (44 :: y).
    rewrite Hread by reflexivity.
    cbn [skipSpace]. change (isJSONSpace 44) with false. cbv iota.
    change ([LF] ++ inner ++ ?y) with ((LF :: inner) ++ y).
    rewrite IH; try discriminate; try assumption; try lia.
    + rewrite <- app_assoc. reflexivity.
    + rewrite <- app_assoc. exact Hd.
Qed.

Lemma opens_not_bracket (c : N) (tail : list N) {A} (x : list N -> A) (y : A) :
  c <> 93 ->
  match c :: tail with
  | 93 :: r => x r
  | _ => y
  end = y.
Proof.
  intros H. destruct c as [|p]; [reflexivity|].
  do 7 (destruct p as [p|p|]; try reflexivity).
  exfalso. apply H. reflexivity.
Qed.

Lemma readValue_array fuel (s : list N) :
  readValue (S fuel) (91 :: s)
  = match skipSpace s with
    | 93 :: r => Some (JArr [], r)
    | _ => readElements fuel s []
    end.
Proof. reflexivity. Qed.

Lemma readValue_object fuel (s : list N) :
  readValue (S fuel) (123 :: s)
  = match skipSpace s with
    | 125 :: r => Some (JObj [], r)
    | _ => readMembers fuel s []
    end.
Proof. reflexivity. Qed.

Lemma indented_head v indent :
  isCanonical v = true ->
  exists c tail, Http.JSON_stringify_indented indent v = c :: tail /\ opens c.
Proof.
  intros H. destruct v as [|b|x|s|[|e elements]|[|kv properties]];
    try exact (stringify_head _ H);
    cbn [Http.JSON_stringify_indented];
    eexists; eexists; (split; [reflexivity|]);
    unfold opens; repeat split; discriminate.
Qed.

Lemma readValue_indented v : ReadsBackIndented v.
Proof.
  induction v as [|b|x|s|elements IH|properties IH] using JSON_induction;
    intros Hc indent fuel rest Hindent Hf Hrest;
    try exact (readValue_stringify _ Hc fuel rest Hf Hrest).
  - cbn [isCanonical] in Hc.
    destruct elements as [|e elements];
      [exact (readValue_stringify (JArr []) eq_refl fuel rest Hf Hrest)|].
    destruct fuel as [|fuel]; [simpl in Hf; lia|].
    set (inner := indent ++ js "  ").
    assert (Hinner : forallb isJSONSpace inner = true).
    { unfold inner. rewrite forallb_app, Hindent. reflexivity. }
    assert (Hws0 : forallb isJSONSpace (LF :: inner) = true).
    { cbn [forallb]. rewrite Hinner. reflexivity. }
    set (pieces := map (Http.JSON_stringify_indented inner) (e :: elements)).
    assert (Etext :
              Http.JSON_stringify_indented indent (JArr (e :: elements)) ++ rest
              = 91 :: (LF :: inner)
                      ++ join (js "," ++ [LF] ++ inner) pieces
                      ++ (LF :: indent) ++ 93 :: rest).
    { cbn [Http.JSON_stringify_indented]. cbv zeta. fold inner. fold pieces.
      change (js "[") with [91]. change (js "]") with [93]. same_text. }
    rewrite Etext, readValue_array.
    assert (Hhead : exists c tail,
               skipSpace
                 ((LF :: inner) ++ join (js "," ++ [LF] ++ inner) pieces
                  ++ (LF :: indent) ++ 93 :: rest) = c :: tail /\ c <> 93).
    { rewrite (skipSpace_spaces _ _ Hws0).
      cbn [forallb] in Hc. apply andb_true_iff in Hc as [Hce _].
      destruct (indented_head e inner Hce) as (c & tail & E & Hs & H93 & _).
      unfold pieces. destruct elements as [|e' elements].
      - cbn [map join]. rewrite E. cbn [app].
        rewrite (skipSpace_opens c _ Hs). eauto.
      - change (join (js "," ++ [LF] ++ inner)
                  (map (Http.JSON_stringify_indented inner) (e :: e' :: elements)))
          with (Http.JSON_stringify_indented inner e
                ++ (js "," ++ [LF] ++ inner)
                ++ join (js "," ++ [LF] ++ inner)
                     (map (Http.JSON_stringify_indented inner) (e' :: elements))).
        rewrite E. cbn [app]. rewrite (skipSpace_opens c _ Hs). eauto. }
    destruct Hhead as (c & tail & E & H93).
    rewrite E.
    etransitivity;
      [apply (opens_not_bracket c tail (fun r => Some (JArr [], r)));
       exact H93|].
    unfold pieces.
    rewrite (readElements_indented (e :: elements) inner); try assumption;
      try discriminate.
    + reflexivity.
    + exact (le_S_n _ _ Hf).
  - cbn [isCanonical] in Hc. apply andb_true_iff in Hc as [Hd Hc].
    destruct properties as [|kv properties];
      [exact (readValue_stringify (JObj []) eq_refl fuel rest Hf Hrest)|].
    destruct fuel as [|fuel]; [simpl in Hf; lia|].
    set (inner := indent ++ js "  ").
    assert (Hinner : forallb isJSONSpace inner = true).
    { unfold inner. rewrite forallb_app, Hindent. reflexivity. }
    assert (Hws0 : forallb isJSONSpace (LF :: inner) = true).
    { cbn [forallb]. rewrite Hinner. reflexivity. }
    set (pieces := map (memberIndented inner) (kv :: properties)).
    assert (Etext :
              Http.JSON_stringify_indented indent (JObj (kv :: properties))
              ++ rest
              = 123 :: (LF :: inner)
                       ++ join (js "," ++ [LF] ++ inner) pieces
                       ++ (LF :: indent) ++ 125 :: rest).
    { cbn [Http.JSON_stringify_indented]. cbv zeta. fold inner.
      change (map (fun kv : jsstring * JSON =>
                     let (k, x) := kv in
                     QuoteJSONString k ++ js ": "
                     ++ Http.JSON_stringify_indented inner x)
                (kv :: properties))
        with pieces.
      change (js "{") with [123]. change (js "}") with [125]. same_text. }
    rewrite Etext, readValue_object.
    assert (Hhead : exists tail,
               skipSpace
                 ((LF :: inner) ++ join (js "," ++ [LF] ++ inner) pieces
                  ++ (LF :: indent) ++ 125 :: rest) = 34 :: tail).
    { rewrite (skipSpace_spaces _ _ Hws0). unfold pieces.
      destruct kv as [k x]. destruct properties as [|kv' properties].
      - cbn [map join]. unfold memberIndented, QuoteJSONString.
        eexists. reflexivity.
      - change (join (js "," ++ [LF] ++ inner)
                  (map (memberIndented inner) ((k, x) :: kv' :: properties)))
          with (memberIndented inner (k, x) ++ (js "," ++ [LF] ++ inner)
                ++ join (js "," ++ [LF] ++ inner)
                     (map (memberIndented inner) (kv' :: properties))).
        unfold memberIndented at 1, QuoteJSONString. eexists. reflexivity. }
    destruct Hhead as (tail & E).
    rewrite E. unfold pieces.
    rewrite (readMembers_indented (kv :: properties) inner); try assumption;
      try discriminate.
    + reflexivity.
    + exact (le_S_n _ _ Hf).
Qed.

Lemma length_join_ge (sep : list N) (pieces : list (list N)) :
  sep <> [] -> pieces <> [] ->
  (list_sum (map (fun p => S (length p)) pieces)
   <= S (length (join sep pieces)))%nat.
Proof.
  intros Hsep. induction pieces as [|p pieces IH]; intros H; [contradiction|].
  destruct pieces as [|q pieces].
  - unfold list_sum. cbn [join map fold_right].
    unfold CodeUnit, jsstring in *. lia.
  - change (join sep (p :: q :: pieces))
      with (p ++ sep ++ join sep (q :: pieces)).
    change (list_sum (map (fun p => S (length p)) (p :: q :: pieces)))
      with (S (length p)
            + list_sum (map (fun p => S (length p)) (q :: pieces)))%nat.
    specialize (IH ltac:(discriminate)). rewrite !length_app.
    destruct sep as [|s0 sep]; [contradiction|]. cbn [length].
    unfold CodeUnit, jsstring in *. lia.
Qed.

Lemma weight_le_indented v :
  isCanonical v = true ->
  forall indent,
  (weight v <= length (Http.JSON_stringify_indented indent v))%nat.
Proof.
  induction v as [|b|x|s|elements IH|properties IH] using JSON_induction;
    intros Hc indent; try exact (weight_le_length _ Hc).
  - cbn [isCanonical] in Hc.
    destruct elements as [|e elements]; [simpl; lia|].
    cbn [Http.JSON_stringify_indented weight]. cbv zeta.
    set (inner := indent ++ js "  ").
    rewrite !length_app.
    pose proof (length_join_ge (js "," ++ [LF] ++ inner)
                  (map (Http.JSON_stringify_indented inner) (e :: elements))
                  ltac:(discriminate) ltac:(discriminate)) as E.
    rewrite map_map in E.
    assert (H : (list_sum (map (fun e => S (weight e)) (e :: elements))
                 <= list_sum
                      (map (fun x =>
                              S (length (Http.JSON_stringify_indented inner x)))
                         (e :: elements)))%nat).
    { apply list_sum_le. rewrite Forall_forall in *. intros y Hy.
      rewrite forallb_forall in Hc. specialize (IH y Hy (Hc y Hy) inner). lia. }
    change (length (js "[")) with 1%nat. change (length (js "]")) with 1%nat.
    unfold CodeUnit, jsstring in *. lia.
  - cbn [isCanonical] in Hc. apply andb_true_iff in Hc as [_ Hc].
    destruct properties as [|kv properties]; [simpl; lia|].
    cbn [Http.JSON_stringify_indented weight]. cbv zeta.
    set (inner := indent ++ js "  ").
    change (map (fun kv : jsstring * JSON =>
                   let (k, x) := kv in
                   QuoteJSONString k ++ js ": "
                   ++ Http.JSON_stringify_indented inner x)
              (kv :: properties))
      with (map (memberIndented inner) (kv :: properties)).
    rewrite !length_app.
    pose proof (length_join_ge (js "," ++ [LF] ++ inner)
                  (map (memberIndented inner) (kv :: properties))
                  ltac:(discriminate) ltac:(discriminate)) as E.
    rewrite map_map in E.
    assert (H : (list_sum (map (fun kv : jsstring * JSON =>
                                  S (weight (snd kv))) (kv :: properties))
                 <= list_sum
                      (map (fun x => S (length (memberIndented inner x)))
                         (kv :: properties)))%nat).
    { apply list_sum_le. rewrite Forall_forall in *. intros y Hy.
      rewrite forallb_forall in Hc. specialize (IH y Hy (Hc y Hy) inner).
      destruct y as [k x]. cbn [snd] in *. unfold memberIndented.
      rewrite !length_app. lia. }
    change (length (js "{")) with 1%nat. change (length (js "}")) with 1%nat.
    unfold CodeUnit, jsstring in *. lia.
Qed.

Lemma JSON_parse_indented v :
  isCanonical v = true ->
  JSON_parse (Http.JSON_stringify_indented [] v) = Normal v.
Proof.
  intros Hc. unfold JSON_parse.
  pose proof (readValue_indented v Hc []
                (2 * length (Http.JSON_stringify_indented [] v) + 2)%nat [])
    as H.
  rewrite app_nil_r in H. rewrite H; [reflexivity | reflexivity | | reflexivity].
  pose proof (weight_le_indented v Hc []). lia.
Qed.

Lemma AnswerOf_sendJSON Status Body :
  isCanonical Body = true ->
  AnswerOf (sendJSON Status Body) = Some (Status, Normal Body).
Proof.
  intros H. unfold sendJSON, AnswerOf. rewrite (JSON_parse_indented _ H).
  reflexivity.
Qed.

(** X26. The body of every JSON answer parses back to the value sent,
    whatever characters its texts hold: an error answer to an object whose
    [error] carries the message and the status as [code], the answer of a
    completed chat or text completion to the response built, with the
    text of the CLI as content and status 200, and the answer of a failed
    one to an error with status 502 that quotes the message of the
    failure. The status and the clock are in the range of integers that
    are printed exactly; the model is a value as [JSON.parse] returns
    it. *)
Theorem X26_answers_parse_back
  (Status now : N) (Msg : jsstring) (Model : JSON)
  (r : NonStreaming.Response) (Signal : Error) :
  Status < 10 ^ 16 ->
  now < 10 ^ 16 ->
  isCanonical Model = true ->
  AnswerOf (sendError Status Msg) = Some (Status, Normal (ErrorBody Status Msg))
  /\ AnswerOf (Handlers.chatCompleted now Model (Fulfilled r))
     = Some (200, Normal (buildChatResponse now (NonStreaming.Text r) Model
                            (NonStreaming.SessionId r)))
  /\ AnswerOf (Handlers.textCompleted now Model (Fulfilled r))
     = Some (200, Normal (buildTextResponse now (NonStreaming.Text r) Model))
  /\ AnswerOf (Handlers.chatCompleted now Model (Rejected Signal))
     = Some (502, Normal (ErrorBody 502
                            (js "Claude Code error: " ++ message Signal))).
Proof.
  intros HStatus Hnow HModel.
  assert (Hcreated : isCanonicalNumber (NumberOfN (now / 1000)) = true).
  { apply NumberOfN_canonical.
    assert (now / 1000 <= now) by (apply N.Div0.div_le_upper_bound; lia).
    lia. }
  assert (Herror : forall S M,
             S < 10 ^ 16 -> isCanonical (ErrorBody S M) = true).
  { intros S M HS. unfold ErrorBody. cbn [isCanonical map fst snd forallb].
    rewrite (NumberOfN_canonical S HS). reflexivity. }
  split; [|split; [|split]].
  - apply (AnswerOf_sendJSON Status (ErrorBody Status Msg)), Herror, HStatus.
  - apply AnswerOf_sendJSON. unfold buildChatResponse.
    cbn [isCanonical map fst snd forallb]. rewrite HModel, Hcreated.
    reflexivity.
  - apply AnswerOf_sendJSON. unfold buildTextResponse.
    cbn [isCanonical map fst snd forallb]. rewrite HModel, Hcreated.
    reflexivity.
  - apply (AnswerOf_sendJSON 502 (ErrorBody 502 _)), Herror. reflexivity.
Qed.

(** The answer to a request that is no JSON. *)
Lemma X26_answers_parse_back_witness :
  AnswerOf (sendError 400 (js "Invalid JSON body"))
  = Some (400, Normal (ErrorBody 400 (js "Invalid JSON body"))).
Proof.
  apply (X26_answers_parse_back 400 1700000000000 (js "Invalid JSON body")
           (JStr (js "claude-code-proxy"))
           {| NonStreaming.Text := js "Hi";
              NonStreaming.SessionId := js "generated-uuid" |}
           TimeoutError);
    reflexivity.
Defined.
